(** * bkmrks: the bookmark server (server.js) and the client filter (App.js)

    A shallow embedding of the request handlers of [server.js] and of the
    component of [src/App.js] (its derived lists [filteredBookmarks] and
    [categories] and its handlers), with the properties the specification
    states about them and further properties of the code.

    Conventions of the embedding.
    - A JSON value is a [value]; the JavaScript [undefined] is the [None] of
      an [option value].  Objects are finite maps from property names to
      values (stdpp's [gmap]); a property set to [undefined] is the same as
      an absent one, as it is after [JSON.stringify].
    - A JavaScript number is kept as the rational it denotes ([Q]); [===] on
      numbers is [Qeq_bool].  A number that the program computes is rounded
      to binary64 ([binary64]: to nearest, ties to even); magnitudes stay
      below 2^1024, so that nothing rounds to [Infinity].  [NaN], which only
      [parseInt] produces here, is the [None] of an [option Q].
    - Text is a [string] of code units below 256 (one [ascii] is one
      code unit, not one byte of an encoding); on these [toLowerCase] is
      what [String.prototype.toLowerCase] is: it folds A-Z, and the
      capitals 192-214 and 216-222 of Latin-1.
    - [try { ... } catch] is an error monad, [completion]: [Throw] is an
      exception on its way to the nearest [catch].
    - The file system is a [world]: the bookmarks file is absent, or holds
      a text that [JSON.parse] either rejects or turns into a [value]; a
      text is kept as what [JSON.parse] makes of it. *)

From stdpp Require Import base option list strings gmap fin_maps pretty.
From Stdlib Require Import ZArith QArith Ascii String Bool Lia.

Set Warnings "-register-all".

Local Open Scope Z_scope.
Local Open Scope string_scope.
Local Open Scope list_scope.

(** ** JSON values *)

Inductive value : Type :=
| VNull
| VBool (b : bool)
| VNum (q : Q)
| VStr (s : string)
| VArr (l : list value)
| VObj (m : gmap string value).

(** A JavaScript value as a handler sees it: [None] is [undefined]. *)
Abbreviation jsval := (option value).

(** A bookmark record is the property map of a JSON object, and a Collection
    an ordered sequence of them. *)
Abbreviation record := (gmap string value).
Abbreviation Collection := (list (gmap string value)).

(** ** Exceptions *)

Inductive completion (A : Type) : Type :=
| Normal (a : A)
| Throw.
Arguments Normal {A} a.
Arguments Throw {A}.

#[global] Instance completion_ret : MRet completion := @Normal.

#[global] Instance completion_bind : MBind completion := fun A B k c =>
  match c with
  | Normal a => k a
  | Throw => Throw
  end.

(** ** Primitives of the language *)

Module JS.

(** The integer nearest to [n / d], the even one of two that are equally
    near. *)
Definition round_half_even (n : Z) (d : positive) : Z :=
  let q := n / Zpos d in
  let r := n mod Zpos d in
  match (2 * r ?= Zpos d)%Z with
  | Lt => q
  | Gt => q + 1
  | Eq => if Z.even q then q else q + 1
  end.

(** The Number nearest to the real [q]: a multiple [m * 2^e] with [m] of at
    most 53 bits and [e] at least -1074. *)
Definition binary64 (q : Q) : Q :=
  let a := Z.abs (Qnum q) in
  let d := Zpos (Qden q) in
  if (a =? 0)%Z then 0%Q
  else
    let k := Z.log2 a - Z.log2 d in
    let l := if (d * 2 ^ Z.max 0 k <=? a * 2 ^ Z.max 0 (- k))%Z then k else k - 1 in
    let e := Z.max (l - 52) (-1074) in
    let m := round_half_even (a * 2 ^ Z.max 0 (- e))
               (Z.to_pos (d * 2 ^ Z.max 0 e)) in
    Qmake (Z.sgn (Qnum q) * m * 2 ^ Z.max 0 e) (Z.to_pos (2 ^ Z.max 0 (- e))).

(** [ToBoolean]: [undefined], [null], [false], [0], [NaN] and the empty
    string are falsy, everything else (objects and arrays too) is truthy. *)
Definition truthy (x : jsval) : bool :=
  match x with
  | None => false
  | Some VNull => false
  | Some (VBool b) => b
  | Some (VNum q) => negb (Qeq_bool q 0)
  | Some (VStr s) => negb (String.eqb s EmptyString)
  | Some (VArr _) => true
  | Some (VObj _) => true
  end.

(** [x || d] with a default [d] that is a value. *)
Definition or_else (x : jsval) (d : value) : value :=
  match x with
  | Some v => if truthy x then v else d
  | None => d
  end.

(** [x.k] for the property names this program reads ([id], [title], [url],
    [category], [description], [bookmarks]): none of them is defined on the
    prototypes of arrays, strings, numbers or booleans, so only an object
    can answer; reading a property of [null] is a TypeError. *)
Definition member (x : value) (k : string) : completion jsval :=
  match x with
  | VNull => Throw
  | VObj m => Normal (m !! k)
  | _ => Normal None
  end.

(** [a === b] for values that [JSON.parse] made: primitives compare by
    value; two parsed objects or arrays are never the same reference. *)
Definition strict_equals (a b : jsval) : bool :=
  match a, b with
  | None, None => true
  | Some VNull, Some VNull => true
  | Some (VBool x), Some (VBool y) => Bool.eqb x y
  | Some (VNum x), Some (VNum y) => Qeq_bool x y
  | Some (VStr x), Some (VStr y) => String.eqb x y
  | _, _ => false
  end.

(** [x === n] where [n] is the result of [parseInt]: [None] is [NaN],
    which is equal to nothing. *)
Definition equals_number (x : jsval) (n : option Q) : bool :=
  match n with
  | None => false
  | Some q => strict_equals x (Some (VNum q))
  end.

(** [Array.isArray]. *)
Definition isArray (x : jsval) : bool :=
  match x with
  | Some (VArr _) => true
  | _ => false
  end.

(** The elements of an array. *)
Definition elements (x : jsval) : list value :=
  match x with
  | Some (VArr l) => l
  | _ => []
  end.

(** The receiver of [push], [findIndex] and [filter]: anything but an
    array has no such method, and the call is a TypeError. *)
Definition as_array (x : value) : completion (list value) :=
  match x with
  | VArr l => Normal l
  | _ => Throw
  end.

(** The characters of a string, each as a one-character string. *)
Fixpoint chars (s : string) : list value :=
  match s with
  | EmptyString => []
  | String a s' => VStr (String a EmptyString) :: chars s'
  end.

(** [[...x]]: arrays and strings are iterable, the other JSON values are
    not. *)
Definition iterate (x : value) : completion (list value) :=
  match x with
  | VArr l => Normal l
  | VStr s => Normal (chars s)
  | _ => Throw
  end.

(** Own enumerable properties of an indexed sequence: ["0"], ["1"], ... *)
Definition indexed (l : list value) : gmap string value :=
  list_to_map (imap (fun i v => (pretty i, v)) l).

(** [{...x}]: the own enumerable properties of [x]; [undefined], [null],
    numbers and booleans have none. *)
Definition spread (x : jsval) : gmap string value :=
  match x with
  | Some (VObj m) => m
  | Some (VArr l) => indexed l
  | Some (VStr s) => indexed (chars s)
  | _ => ∅
  end.

(** [{...o, k: x}] on top of the properties [o]: a property whose value is
    [undefined] does not survive serialization, so it is dropped. *)
Definition set_prop (k : string) (x : jsval) (o : gmap string value)
  : gmap string value :=
  match x with
  | Some v => <[k := v]> o
  | None => delete k o
  end.

(** [l.findIndex(p)]; [None] is the [-1] of the source.  An exception in
    the callback ends the search. *)
Fixpoint Array_findIndex (p : value -> completion bool) (l : list value)
  : completion (option nat) :=
  match l with
  | [] => Normal None
  | b :: l' =>
      t ← p b;
      if t : bool then Normal (Some 0%nat)
      else i ← Array_findIndex p l'; Normal (S <$> (i : option nat))
  end.

(** [l.filter(p)], with the same treatment of exceptions. *)
Fixpoint Array_filter (p : value -> completion bool) (l : list value)
  : completion (list value) :=
  match l with
  | [] => Normal []
  | b :: l' =>
      t ← p b;
      rest ← Array_filter p l';
      Normal (if t : bool then b :: rest else rest)
  end.

(** *** [parseInt] with no radix argument *)

Definition is_space (a : ascii) : bool :=
  let n := N_of_ascii a in
  ((9 <=? n) && (n <=? 13) || (n =? 32) || (n =? 160))%N.

Fixpoint trimStart (s : string) : string :=
  match s with
  | String a s' => if is_space a then trimStart s' else s
  | EmptyString => EmptyString
  end.

Definition digit_of (radix : Z) (a : ascii) : option Z :=
  let n := Z.of_N (N_of_ascii a) in
  let d :=
    if ((48 <=? n) && (n <=? 57))%Z then Some (n - 48)
    else if ((97 <=? n) && (n <=? 122))%Z then Some (n - 87)
    else if ((65 <=? n) && (n <=? 90))%Z then Some (n - 55)
    else None in
  match d with
  | Some k => if (k <? radix)%Z then Some k else None
  | None => None
  end.

(** The longest prefix of radix-[radix] digits, as a number; [acc] is
    [None] until a first digit has been read. *)
Fixpoint digits (radix : Z) (s : string) (acc : option Z) : option Z :=
  match s with
  | String a s' =>
      match digit_of radix a with
      | Some d => digits radix s' (Some (default 0 acc * radix + d))
      | None => acc
      end
  | EmptyString => acc
  end.

Definition parseInt (s : string) : option Q :=
  let s1 := trimStart s in
  let '(sign, s2) :=
    match s1 with
    | String "-" r => (-1, r)
    | String "+" r => (1, r)
    | _ => (1, s1)
    end in
  let '(radix, s3) :=
    match s2 with
    | String "0" (String "x" r) => (16, r)
    | String "0" (String "X" r) => (16, r)
    | _ => (10, s2)
    end in
  match digits radix s3 None with
  | Some n => Some (binary64 (inject_Z (sign * n)))
  | None => None
  end.

(** [s.split('T')[0]]: what precedes the first ['T'], or all of [s]. *)
Fixpoint split_T_0 (s : string) : string :=
  match s with
  | String a s' => if Ascii.eqb a "T" then EmptyString else String a (split_T_0 s')
  | EmptyString => EmptyString
  end.

End JS.

(** ** The world a request runs in *)

(** What the runtime hands to a handler: the [k]-th reading of [Date.now()]
    and the [k]-th draw of [Math.random()] during the request, and the text
    of [new Date().toISOString()]. *)
Record runtime : Type := {
  Date_now : nat -> Z;
  Math_random : nat -> Q;
  Date_toISOString : string
}.

(** The text of the bookmarks file, as far as [JSON.parse] can tell. *)
Inductive text : Type :=
| Unparseable
| Serialized (v : value).

(** The file system: [BOOKMARKS_FILE] (absent, or its text), whether
    [fs.writeFile] will succeed, and how often it has been called. *)
Record world : Type := {
  BOOKMARKS_FILE : option text;
  writable : bool;
  writes : nat
}.

Record request : Type := {
  params_id : string;
  body : value
}.

Record response : Type := {
  status : nat;
  json : value
}.

Module Store.

Definition fs_readFile (w : world) : completion text :=
  match BOOKMARKS_FILE w with
  | Some t => Normal t
  | None => Throw
  end.

Definition JSON_parse (t : text) : completion value :=
  match t with
  | Serialized v => Normal v
  | Unparseable => Throw
  end.

Definition JSON_stringify (v : value) : text := Serialized v.

(** A write that fails leaves the file as it was. *)
Definition fs_writeFile (t : text) (w : world) : completion unit * world :=
  if writable w
  then (Normal tt, {| BOOKMARKS_FILE := Some t; writable := writable w;
                      writes := S (writes w) |})
  else (Throw, {| BOOKMARKS_FILE := BOOKMARKS_FILE w; writable := writable w;
                  writes := S (writes w) |}).

(** [readBookmarks]: [try] to read and parse the file; [catch] whatever
    is thrown and return [[]]. *)
Definition readBookmarks (w : world) : completion value :=
  match (data ← fs_readFile w; JSON_parse data) with
  | Normal v => Normal v
  | Throw => Normal (VArr [])
  end.

(** [writeBookmarks]: [true] when the file was written. *)
Definition writeBookmarks (bookmarks : value) (w : world) : bool * world :=
  match fs_writeFile (JSON_stringify bookmarks) w with
  | (Normal _, w') => (true, w')
  | (Throw, w') => (false, w')
  end.

End Store.

(** ** The request handlers of server.js *)

Module Server.
Import JS Store.

Definition res (code : nat) (payload : value) : response :=
  {| status := code; json := payload |}.

(** [{ error: msg }] and [{ message: msg }]. *)
Definition error (msg : string) : value := VObj {[ "error" := VStr msg ]}.
Definition message (msg : string) : value := VObj {[ "message" := VStr msg ]}.

(** [try { ... } catch (error) { res.status(500).json(...) }]: nothing is
    written after an exception, so the world is the one the request
    found. *)
Definition try_catch (attempt : completion (response * world))
    (msg : string) (w : world) : response * world :=
  match attempt with
  | Normal r => r
  | Throw => (res 500 (error msg), w)
  end.

(** GET /api/bookmarks *)
Definition app_get_bookmarks (w : world) : response * world :=
  try_catch (
    bookmarks ← readBookmarks w;
    Normal (res 200 bookmarks, w)
  ) "Failed to read bookmarks" w.

(** The object literal [newBookmark] of POST /api/bookmarks. *)
Definition newBookmark (rt : runtime) (title url category description : jsval)
  : gmap string value :=
  set_prop "dateAdded" (Some (VStr (split_T_0 (Date_toISOString rt)))) (
  set_prop "description" (Some (or_else description (VStr EmptyString))) (
  set_prop "category" (Some (or_else category (VStr EmptyString))) (
  set_prop "url" url (
  set_prop "title" title (
  set_prop "id" (Some (VNum (inject_Z (Date_now rt 0)))) ∅))))).

(** POST /api/bookmarks *)
Definition app_post_bookmarks (rt : runtime) (req : request) (w : world)
  : response * world :=
  try_catch (
    title ← member (body req) "title";
    url ← member (body req) "url";
    category ← member (body req) "category";
    description ← member (body req) "description";
    if negb (truthy title) || negb (truthy url)
    then Normal (res 400 (error "Title and URL are required"), w)
    else
      bookmarks ← readBookmarks w;
      let newBookmark := VObj (newBookmark rt title url category description) in
      l ← as_array bookmarks;
      let bookmarks := VArr (l ++ [newBookmark]) in
      let '(success, w') := writeBookmarks bookmarks w in
      if success : bool
      then Normal (res 201 newBookmark, w')
      else Normal (res 500 (error "Failed to save bookmark"), w')
  ) "Failed to add bookmark" w.

(** The object literal assigned to [bookmarks[bookmarkIndex]] by
    PUT /api/bookmarks/:id. *)
Definition updatedBookmark (old title url category description : jsval)
  : gmap string value :=
  set_prop "description" (Some (or_else description (VStr EmptyString))) (
  set_prop "category" (Some (or_else category (VStr EmptyString))) (
  set_prop "url" url (
  set_prop "title" title (
  spread old)))).

(** PUT /api/bookmarks/:id *)
Definition app_put_bookmarks_id (req : request) (w : world)
  : response * world :=
  try_catch (
    let bookmarkId := parseInt (params_id req) in
    title ← member (body req) "title";
    url ← member (body req) "url";
    category ← member (body req) "category";
    description ← member (body req) "description";
    if negb (truthy title) || negb (truthy url)
    then Normal (res 400 (error "Title and URL are required"), w)
    else
      bookmarks ← readBookmarks w;
      l ← as_array bookmarks;
      bookmarkIndex ← Array_findIndex
        (fun b => id ← member b "id"; Normal (equals_number id bookmarkId)) l;
      match bookmarkIndex : option nat with
      | None => Normal (res 404 (error "Bookmark not found"), w)
      | Some i =>
          let updated := VObj (updatedBookmark (l !! i) title url category description) in
          let bookmarks := VArr (<[i := updated]> l) in
          let '(success, w') := writeBookmarks bookmarks w in
          if success : bool
          then Normal (res 200 updated, w')
          else Normal (res 500 (error "Failed to update bookmark"), w')
      end
  ) "Failed to update bookmark" w.

(** DELETE /api/bookmarks/:id *)
Definition app_delete_bookmarks_id (req : request) (w : world)
  : response * world :=
  try_catch (
    let bookmarkId := parseInt (params_id req) in
    bookmarks ← readBookmarks w;
    l ← as_array bookmarks;
    filteredBookmarks ← Array_filter
      (fun b => id ← member b "id"; Normal (negb (equals_number id bookmarkId))) l;
    if Nat.eqb (List.length (filteredBookmarks : list value)) (List.length l)
    then Normal (res 404 (error "Bookmark not found"), w)
    else
      let '(success, w') := writeBookmarks (VArr filteredBookmarks) w in
      if success : bool
      then Normal (res 200 (message "Bookmark deleted successfully"), w')
      else Normal (res 500 (error "Failed to delete bookmark"), w')
  ) "Failed to delete bookmark" w.

(** DELETE /api/bookmarks *)
Definition app_delete_bookmarks (w : world) : response * world :=
  let '(success, w') := writeBookmarks (VArr []) w in
  if success : bool
  then (res 200 (message "All bookmarks cleared successfully"), w')
  else (res 500 (error "Failed to clear bookmarks"), w').

(** [bookmark => ({ ...bookmark, id: Date.now() + Math.random() })], for
    the [i]-th element of the payload. *)
Definition with_new_id (rt : runtime) (i : nat) (bookmark : value)
  : gmap string value :=
  set_prop "id"
    (Some (VNum (binary64 (inject_Z (Date_now rt i) + Math_random rt i))))
    (spread (Some bookmark)).

(** POST /api/bookmarks/import *)
Definition app_post_bookmarks_import (rt : runtime) (req : request) (w : world)
  : response * world :=
  try_catch (
    importedBookmarks ← member (body req) "bookmarks";
    if negb (isArray importedBookmarks)
    then Normal (res 400 (error "Invalid bookmarks format"), w)
    else
      let imported := elements importedBookmarks in
      currentBookmarks ← readBookmarks w;
      let bookmarksWithNewIds :=
        imap (fun i bookmark => VObj (with_new_id rt i bookmark)) imported in
      current ← iterate currentBookmarks;
      let allBookmarks := VArr (current ++ bookmarksWithNewIds) in
      let '(success, w') := writeBookmarks allBookmarks w in
      if success : bool
      then Normal (res 200 (VObj (
             <["count" := VNum (inject_Z (Z.of_nat (List.length imported)))]> (
             <["message" := VStr ("Successfully imported "
                                  +:+ pretty (List.length imported)
                                  +:+ " bookmarks")]> ∅))), w')
      else Normal (res 500 (error "Failed to import bookmarks"), w')
  ) "Failed to import bookmarks" w.

End Server.

(** ** The derived list of the client (src/App.js) *)

Module Client.
Import JS.

(** [toLowerCase] on one code unit below 256: the capitals are A-Z
    (65-90) and, in Latin-1, 192-214 and 216-222 (215 is the
    multiplication sign); the small letter of each is 32 places further,
    and every other code unit stays as it is. *)
Definition lower (a : ascii) : ascii :=
  let n := N_of_ascii a in
  if ((65 <=? n) && (n <=? 90) || (192 <=? n) && (n <=? 214)
      || (216 <=? n) && (n <=? 222))%N
  then ascii_of_N (n + 32) else a.

Fixpoint toLowerCase (s : string) : string :=
  match s with
  | String a s' => String (lower a) (toLowerCase s')
  | EmptyString => EmptyString
  end.

(** [s.includes(t)]: [t] occurs in [s]. *)
Fixpoint includes (s t : string) : bool :=
  String.prefix t s ||
  match s with
  | String _ s' => includes s' t
  | EmptyString => false
  end.

(** [x.toLowerCase()]: a method of strings only; on anything else the
    call is a TypeError. *)
Definition call_toLowerCase (x : jsval) : completion string :=
  match x with
  | Some (VStr s) => Normal (toLowerCase s)
  | _ => Throw
  end.

(** [x.toLowerCase().includes(searchTerm.toLowerCase())] *)
Definition field_includes (bookmark : value) (k searchTerm : string)
  : completion bool :=
  x ← member bookmark k;
  s ← call_toLowerCase x;
  Normal (includes s (toLowerCase searchTerm)).

(** The callback of [bookmarks.filter]; [||] evaluates its right operand
    only when the left one is false. *)
Definition keeps (searchTerm selectedCategory : string) (bookmark : value)
  : completion bool :=
  matchesSearch ← (
    inTitle ← field_includes bookmark "title" searchTerm;
    if inTitle : bool then Normal true
    else
      inDescription ← field_includes bookmark "description" searchTerm;
      if inDescription : bool then Normal true
      else field_includes bookmark "url" searchTerm);
  matchesCategory ← (
    if String.eqb selectedCategory "All" then Normal true
    else
      category ← member bookmark "category";
      Normal (strict_equals category (Some (VStr selectedCategory))));
  Normal (matchesSearch && matchesCategory).

Definition filteredBookmarks (bookmarks : list value)
    (searchTerm selectedCategory : string) : completion (list value) :=
  Array_filter (keeps searchTerm selectedCategory) bookmarks.

End Client.

(** ** The vocabulary of the specification *)

Module Spec.
Import JS Store Server Client.

(** The Collection that a request finds: what [readBookmarks] returns is
    the array of the records [c]. *)
Definition stored (w : world) (c : Collection) : Prop :=
  readBookmarks w = Normal (VArr (VObj <$> c)).

(** The world after a successful or a failed [fs.writeFile]. *)
Definition written (v : value) (w : world) : world :=
  {| BOOKMARKS_FILE := Some (Serialized v); writable := writable w;
     writes := S (writes w) |}.

Definition write_failed (w : world) : world :=
  {| BOOKMARKS_FILE := BOOKMARKS_FILE w; writable := writable w;
     writes := S (writes w) |}.

(** The error responses. *)
Definition not_found : response := res 404 (error "Bookmark not found").
Definition validation_error : response :=
  res 400 (error "Title and URL are required").

(** A field of the request body, for a body that is not [null]. *)
Definition field (x : value) (k : string) : jsval :=
  match x with
  | VObj m => m !! k
  | _ => None
  end.

(** The record has the id that the path of the request parsed to. *)
Definition targets (bookmarkId : option Q) (b : record) : bool :=
  equals_number (b !! "id") bookmarkId.

(** The first position at which [p] holds. *)
Fixpoint index_where (p : record -> bool) (c : Collection) : option nat :=
  match c with
  | [] => None
  | b :: c' => if p b then Some 0%nat else S <$> index_where p c'
  end.

(** The ids of a Collection, and the invariant that no two records share
    one. *)
Definition ids (c : Collection) : list jsval := (fun b : record => b !! "id") <$> c.

Fixpoint pairwise_distinct (l : list jsval) : bool :=
  match l with
  | [] => true
  | x :: l' =>
      forallb (fun y => negb (strict_equals x y)) l' && pairwise_distinct l'
  end.

Definition unique_ids (c : Collection) : bool := pairwise_distinct (ids c).

(** The five operations that change the Collection. *)
Inductive operation : Type :=
| Create (req : request)
| Update (req : request)
| Delete (req : request)
| ClearAll
| Import (req : request).

Definition run (rt : runtime) (op : operation) (w : world) : response * world :=
  match op with
  | Create req => app_post_bookmarks rt req w
  | Update req => app_put_bookmarks_id req w
  | Delete req => app_delete_bookmarks_id req w
  | ClearAll => app_delete_bookmarks w
  | Import req => app_post_bookmarks_import rt req w
  end.

(** The id that Import gives to the [i]-th record of its payload. *)
Definition token (rt : runtime) (i : nat) : Q :=
  binary64 (inject_Z (Date_now rt i) + Math_random rt i).

(** The ids that an operation takes from the clock. *)
Definition tokens_of (rt : runtime) (op : operation) : list Q :=
  match op with
  | Create _ => [inject_Z (Date_now rt 0)]
  | Import req =>
      match field (body req) "bookmarks" with
      | Some (VArr imported) => token rt <$> seq 0 (List.length imported)
      | _ => []
      end
  | _ => []
  end.

(** The tokens are pairwise different numbers, and no record of [c] has
    one of them as its id. *)
Definition fresh_tokens (ts : list Q) (c : Collection) : bool :=
  pairwise_distinct ((fun t => Some (VNum t)) <$> ts) &&
  forallb (fun b : record =>
    forallb (fun t =>
      negb (strict_equals (b !! "id") (Some (VNum t)))) ts) c.

(** A number with no fractional part. *)
Definition is_integer (q : Q) : bool :=
  (Qnum q mod Zpos (Qden q) =? 0)%Z.

(** An optional text field of a request, and the value the specification
    stores for it. *)
Inductive text_or_absent : jsval -> Prop :=
| field_absent : text_or_absent None
| field_text (s : string) : text_or_absent (Some (VStr s)).

Definition defaulted (x : jsval) : value :=
  match x with
  | Some v => v
  | None => VStr EmptyString
  end.

(** The number that a decimal numeral [-ddd.ddd] denotes: how a path
    gives the id of a record. *)
Fixpoint all_digits (s : string) (acc : Z) : option Z :=
  match s with
  | EmptyString => Some acc
  | String a s' =>
      match digit_of 10 a with
      | Some d => all_digits s' (acc * 10 + d)
      | None => None
      end
  end.

Fixpoint split_dot (s : string) : string * option string :=
  match s with
  | EmptyString => (EmptyString, None)
  | String a s' =>
      if Ascii.eqb a "." then (EmptyString, Some s')
      else let '(i, f) := split_dot s' in (String a i, f)
  end.

Definition decimal_value (s : string) : option Q :=
  let '(negative, s1) :=
    match s with
    | String "-" r => (true, r)
    | _ => (false, s)
    end in
  let '(ip, fp) := split_dot s1 in
  let signed (q : Q) : Q := if negative : bool then Qopp q else q in
  match ip, fp with
  | EmptyString, _ => None
  | _, None => n ← all_digits ip 0; Some (signed (inject_Z n))
  | _, Some EmptyString => None
  | _, Some f =>
      n ← all_digits ip 0;
      m ← all_digits f 0;
      Some (signed (inject_Z n + Qmake m (Pos.pow 10 (Pos.of_nat (String.length f))))%Q)
  end.

Definition path_gives (path : string) (q : Q) : Prop :=
  exists q', decimal_value path = Some q' /\ Qeq q' q.

(** Letter case, as the specification means it, said without the
    functions of the program.  A capital letter (among the code units
    below 256: A-Z, and 192-214 and 216-222 of Latin-1) has its small
    letter 32 places further.  Two code units are the same letter, case
    aside, when they are equal or one is the small letter of the other;
    two texts are the same, case aside, when they are so place by
    place. *)
Definition capital (a : ascii) : Prop :=
  let n := N_of_ascii a in
  (65 <= n <= 90 \/ 192 <= n <= 214 \/ 216 <= n <= 222)%N.

Definition same_letter (a b : ascii) : Prop :=
  a = b \/
  (capital a /\ N_of_ascii b = (N_of_ascii a + 32)%N) \/
  (capital b /\ N_of_ascii a = (N_of_ascii b + 32)%N).

Inductive same_text : string -> string -> Prop :=
| same_text_nil : same_text EmptyString EmptyString
| same_text_cons (a b : ascii) (s t : string) :
    same_letter a b -> same_text s t -> same_text (String a s) (String b t).

(** The search term occurs in the field, letter case aside: some part of
    the field is the search term, case aside. *)
Definition ci_contains (s searchTerm : string) : Prop :=
  exists pre part post,
    s = pre +:+ part +:+ post /\ same_text part searchTerm.



(** The title, the description and the url of the bookmark are text. *)
Definition has_text (b : record) (k : string) : bool :=
  match b !! k with
  | Some (VStr _) => true
  | _ => false
  end.


End Spec.

(** ** Concrete runs *)

Module Scenario.
Import JS Store Server Spec.

(** The three bookmarks that [initializeBookmarksFile] writes. *)
Definition bookmark (id : Z) (title url category description : string)
  : gmap string value :=
  {[ "id" := VNum (inject_Z id); "title" := VStr title; "url" := VStr url;
     "category" := VStr category; "description" := VStr description;
     "dateAdded" := VStr "2025-01-15" ]}.

Definition defaultBookmarks : Collection :=
  [ bookmark 1 "React Documentation" "https://react.dev" "Development"
      "Official React documentation and guides";
    bookmark 2 "MDN Web Docs" "https://developer.mozilla.org" "Development"
      "Web development resources and references";
    bookmark 3 "GitHub" "https://github.com" "Tools"
      "Code hosting and collaboration platform" ].

Definition disk (c : Collection) : world :=
  {| BOOKMARKS_FILE := Some (Serialized (VArr (VObj <$> c)));
     writable := true; writes := 0 |}.

Definition no_file : world :=
  {| BOOKMARKS_FILE := None; writable := true; writes := 0 |}.

(** A clock that stands at one millisecond for the whole request, and
    random draws 1/2, 1/3, 1/4, ... *)
Definition rt_at (ms : Z) : runtime :=
  {| Date_now := fun _ => ms;
     Math_random := fun i => Qmake 1 (Pos.of_succ_nat (S i));
     Date_toISOString := "2025-01-15T09:30:00.000Z" |}.

Definition form (title url : string) : value :=
  VObj {[ "title" := VStr title; "url" := VStr url ]}.

Definition call (id : string) (payload : value) : request :=
  {| params_id := id; body := payload |}.

(** A request to a route without [:id]. *)
Definition submit (payload : value) : request :=
  {| params_id := EmptyString; body := payload |}.

End Scenario.

(** ** Start-up and export (server.js) *)

Module Startup.
Import JS Store Server.

(** [fs.access]: throws when the file does not exist. *)
Definition fs_access (w : world) : completion unit :=
  match BOOKMARKS_FILE w with
  | Some _ => Normal tt
  | None => Throw
  end.

(** One element of the array literal [defaultBookmarks]; [iso] is the
    [new Date().toISOString()] evaluated for it. *)
Definition defaultBookmark (id : Z) (title url category description iso : string)
  : gmap string value :=
  {[ "id" := VNum (inject_Z id); "title" := VStr title; "url" := VStr url;
     "category" := VStr category; "description" := VStr description;
     "dateAdded" := VStr (split_T_0 iso) ]}.

(** The array literal; [iso k] is the [k]-th reading of the clock. *)
Definition defaultBookmarks (iso : nat -> string) : list (gmap string value) :=
  [ defaultBookmark 1 "React Documentation" "https://react.dev" "Development"
      "Official React documentation and guides" (iso 0%nat);
    defaultBookmark 2 "MDN Web Docs" "https://developer.mozilla.org" "Development"
      "Web development resources and references" (iso 1%nat);
    defaultBookmark 3 "GitHub" "https://github.com" "Tools"
      "Code hosting and collaboration platform" (iso 2%nat) ].

(** [initializeBookmarksFile]: the write happens in the [catch] of the
    access check, and an exception of the write is not caught. *)
Definition initializeBookmarksFile (iso : nat -> string) (w : world)
  : completion unit * world :=
  match fs_access w with
  | Normal _ => (Normal tt, w)
  | Throw =>
      fs_writeFile (JSON_stringify (VArr (VObj <$> defaultBookmarks iso))) w
  end.

(** [startServer]: [app.listen] is reached only when the initialization
    did not throw; the boolean tells whether the server listens. *)
Definition startServer (iso : nat -> string) (w : world) : bool * world :=
  match initializeBookmarksFile iso w with
  | (Normal _, w') => (true, w')
  | (Throw, w') => (false, w')
  end.

(** A response with the two headers that the export route sets. *)
Record download : Type := {
  reply : response;
  Content_Disposition : option string;
  Content_Type : option string
}.

Definition quote : string := String "034"%char EmptyString.

(** GET /api/bookmarks/export *)
Definition app_get_bookmarks_export (rt : runtime) (w : world)
  : download * world :=
  match readBookmarks w with
  | Normal bookmarks =>
      let fileName :=
        "bookmarks-" +:+ split_T_0 (Date_toISOString rt) +:+ ".json" in
      ({| reply := res 200 bookmarks;
          Content_Disposition :=
            Some ("attachment; filename=" +:+ quote +:+ fileName +:+ quote);
          Content_Type := Some "application/json" |}, w)
  | Throw =>
      ({| reply := res 500 (error "Failed to export bookmarks");
          Content_Disposition := None; Content_Type := None |}, w)
  end.

End Startup.

(** ** The state controller of the client (src/App.js) *)

Module Controller.
Import JS Client.

(** [l.map(f)] with a callback that can throw. *)
Fixpoint Array_map {A} (f : value -> completion A) (l : list value)
  : completion (list A) :=
  match l with
  | [] => Normal []
  | b :: l' =>
      x ← f b;
      rest ← Array_map f l';
      Normal (x :: rest)
  end.

(** [l.filter(Boolean)]: the truthy elements; the [undefined] ones go. *)
Fixpoint filter_Boolean (l : list jsval) : list value :=
  match l with
  | [] => []
  | Some v :: l' => if truthy (Some v) then v :: filter_Boolean l' else filter_Boolean l'
  | None :: l' => filter_Boolean l'
  end.

(** [[...new Set(l)]]: the elements in the order of their first occurrence,
    one of each; a Set tells values apart as [===] does (there is no [NaN]
    here). *)
Fixpoint Set_values (seen l : list value) : list value :=
  match l with
  | [] => []
  | x :: l' =>
      if existsb (fun y => strict_equals (Some y) (Some x)) seen
      then Set_values seen l'
      else x :: Set_values (x :: seen) l'
  end.

(** [categories] *)
Definition categories (bookmarks : list value) : completion (list value) :=
  all ← Array_map (fun bookmark => member bookmark "category") bookmarks;
  Normal (VStr "All" :: Set_values [] (filter_Boolean all)).

(** The state [formData]. *)
Record formData : Type := {
  title : jsval;
  url : jsval;
  category : jsval;
  description : jsval
}.

(** [{ title: '', url: '', category: '', description: '' }] *)
Definition emptyForm : formData :=
  {| title := Some (VStr EmptyString); url := Some (VStr EmptyString);
     category := Some (VStr EmptyString); description := Some (VStr EmptyString) |}.

(** [handleEdit]: the form takes the four fields of the bookmark. *)
Definition handleEdit (bookmark : value) : completion formData :=
  t ← member bookmark "title";
  u ← member bookmark "url";
  c ← member bookmark "category";
  d ← member bookmark "description";
  Normal {| title := t; url := u; category := c; description := d |}.

(** [JSON.stringify(formData)] as the server parses it. *)
Definition body_of (fd : formData) : value :=
  VObj (set_prop "description" (description fd) (
        set_prop "category" (category fd) (
        set_prop "url" (url fd) (
        set_prop "title" (title fd) ∅)))).

(** The guard of [handleSubmit]: [if (!formData.title || !formData.url)
    return]; [true] when the form is sent. *)
Definition sends (fd : formData) : bool :=
  negb (negb (truthy (title fd)) || negb (truthy (url fd))).

(** What [fetch] resolves or rejects with. *)
Inductive fetched : Type :=
| Rejected (reason : string)
| Responded (r : response).

(** What a handler catches: the [Error] that [apiCall] makes of the
    response, with the argument of [new Error]; what a property read
    threw; what [fetch] rejected with; what [JSON.parse] threw. *)
Inductive failure : Type :=
| Error (arg : value)
| TypeError
| Failed (reason : string)
| SyntaxError.

(** [response.ok] *)
Definition ok (r : response) : bool :=
  Nat.leb 200 (status r) && Nat.leb (status r) 299.

(** [apiCall]: the body of a 2xx response; otherwise an [Error] with the
    [error] text of the body or, if that is falsy, with [HTTP <status>]. *)
Definition apiCall (f : fetched) : failure + value :=
  match f with
  | Rejected reason => inl (Failed reason)
  | Responded r =>
      if negb (ok r)
      then
        match member (json r) "error" with
        | Throw => inl TypeError
        | Normal e =>
            inl (Error (or_else e (VStr ("HTTP " +:+ pretty (status r)))))
        end
      else inr (json r)
  end.

(** [importBookmarks]: the request made of the parsed file, or nothing
    when the file does not hold an array. *)
Definition importBookmarks (parsed : value) : option request :=
  if isArray (Some parsed)
  then Some {| params_id := EmptyString;
               body := VObj {[ "bookmarks" := parsed ]} |}
  else None.

End Controller.

(** ** Vocabulary for the behaviour of the handlers on any world *)

Module Behaviour.
Import JS Store Server Spec Controller.

(** The three ways in which a handler that changes the Collection can end:
    it answers 2xx after the one write it made; it answers with an error
    without having called [fs.writeFile]; it answers 500 after a write
    that failed.  An error answer is [{ error: msg }] with a text. *)
Inductive outcome (w : world) : response * world -> Prop :=
| outcome_written (code : nat) (payload v : value) :
    code = 200%nat \/ code = 201%nat -> writable w = true ->
    outcome w (res code payload, written v w)
| outcome_refused (code : nat) (msg : string) :
    code = 400%nat \/ code = 404%nat \/ code = 500%nat -> msg <> EmptyString ->
    outcome w (res code (error msg), w)
| outcome_write_failed (msg : string) :
    writable w = false -> msg <> EmptyString ->
    outcome w (res 500 (error msg), write_failed w).

(** The records of a Collection that a Delete of [bookmarkId] keeps. *)
Definition kept (bookmarkId : option Q) (c : Collection) : Collection :=
  List.filter (fun b => negb (targets bookmarkId b)) c.

(** The category of the bookmark is text, or there is none. *)
Definition category_text (b : record) : bool :=
  match b !! "category" with
  | Some (VStr _) => true
  | None => true
  | _ => false
  end.

(** The text categories of a mirror, those that are not empty. *)
Definition category_of (b : record) : option string :=
  match b !! "category" with
  | Some (VStr s) => if String.eqb s EmptyString then None else Some s
  | _ => None
  end.

(** The elements of [l], each once, at the place of its first
    occurrence. *)
Fixpoint first_occurrences (l : list string) : list string :=
  match l with
  | [] => []
  | x :: l' =>
      x :: List.filter (fun y => negb (String.eqb y x)) (first_occurrences l')
  end.

(** A decimal digit. *)
Definition is_digit (a : ascii) : bool :=
  match digit_of 10 a with
  | Some _ => true
  | None => false
  end.

Fixpoint all_digit (s : string) : bool :=
  match s with
  | EmptyString => true
  | String a s' => is_digit a && all_digit s'
  end.

(** The string is empty or begins with a character that is neither a
    decimal digit nor [x] nor [X]. *)
Definition stops (t : string) : bool :=
  match t with
  | EmptyString => true
  | String a _ =>
      negb (is_digit a) && negb (Ascii.eqb a "x") && negb (Ascii.eqb a "X")
  end.

End Behaviour.

(** ** The state of the component and its handlers (src/App.js) *)

Module BookmarkManager.
Import JS Store Controller.

(** The state that the handlers read and set.  The error slot holds the
    prefix of the text and what was caught; the text shown is the prefix
    followed by the [message] of what was caught. *)
Record state : Type := {
  bookmarks : value;
  loading : bool;
  error : option (string * failure);
  showAddForm : bool;
  editingBookmark : value;
  formData : Controller.formData
}.

(** The initial values of the [useState] calls. *)
Definition initial : state :=
  {| bookmarks := VArr []; loading := true; error := None;
     showAddForm := false; editingBookmark := VNull; formData := emptyForm |}.

Definition setBookmarks (v : value) (st : state) : state :=
  {| bookmarks := v; loading := loading st; error := error st;
     showAddForm := showAddForm st; editingBookmark := editingBookmark st;
     formData := formData st |}.

Definition setLoading (b : bool) (st : state) : state :=
  {| bookmarks := bookmarks st; loading := b; error := error st;
     showAddForm := showAddForm st; editingBookmark := editingBookmark st;
     formData := formData st |}.

Definition setError (e : option (string * failure)) (st : state) : state :=
  {| bookmarks := bookmarks st; loading := loading st; error := e;
     showAddForm := showAddForm st; editingBookmark := editingBookmark st;
     formData := formData st |}.

Definition setShowAddForm (b : bool) (st : state) : state :=
  {| bookmarks := bookmarks st; loading := loading st; error := error st;
     showAddForm := b; editingBookmark := editingBookmark st;
     formData := formData st |}.

Definition setEditingBookmark (v : value) (st : state) : state :=
  {| bookmarks := bookmarks st; loading := loading st; error := error st;
     showAddForm := showAddForm st; editingBookmark := v;
     formData := formData st |}.

Definition setFormData (fd : Controller.formData) (st : state) : state :=
  {| bookmarks := bookmarks st; loading := loading st; error := error st;
     showAddForm := showAddForm st; editingBookmark := editingBookmark st;
     formData := fd |}.

(** What a [try] block of a handler throws: the failure of [apiCall], or
    the TypeError of an expression of the block. *)
Definition evaluated {A} (c : completion A) : failure + A :=
  match c with
  | Normal x => inr x
  | Throw => inl TypeError
  end.

(** [loadBookmarks], given what [fetch] answered to GET /bookmarks. *)
Definition loadBookmarks (reply : fetched) (st : state) : state :=
  let st := setError None (setLoading true st) in
  setLoading false
    match apiCall reply with
    | inr data => setBookmarks data st
    | inl e => setError (Some ("Failed to load bookmarks: ", e)) st
    end.

(** [bookmarks.map(bookmark => bookmark.id === editingBookmark.id ?
    updatedBookmark : bookmark)].  The ids compared are primitive values
    in every theorem below, so that [===] is the comparison by value. *)
Definition replaced (editing updatedBookmark : value) (l : list value)
  : completion (list value) :=
  Array_map (fun bookmark =>
    id ← member bookmark "id";
    id' ← member editing "id";
    Normal (if strict_equals id id' then updatedBookmark else bookmark)) l.

(** [handleSubmit], given what [fetch] answers to the one request that the
    handler makes: PUT /bookmarks/<id> when a bookmark is being edited,
    POST /bookmarks otherwise. *)
Definition handleSubmit (reply : fetched) (st : state) : state :=
  if negb (sends (formData st)) then st
  else
    let st := setError None st in
    let attempt : failure + state :=
      if truthy (Some (editingBookmark st))
      then
        match apiCall reply with
        | inl e => inl e
        | inr updatedBookmark =>
            match evaluated (l ← as_array (bookmarks st);
                             replaced (editingBookmark st) updatedBookmark l) with
            | inl e => inl e
            | inr l' => inr (setEditingBookmark VNull (setBookmarks (VArr l') st))
            end
        end
      else
        match apiCall reply with
        | inl e => inl e
        | inr newBookmark =>
            match evaluated (iterate (bookmarks st)) with
            | inl e => inl e
            | inr l => inr (setBookmarks (VArr (l ++ [newBookmark])) st)
            end
        end in
    match attempt with
    | inr st' => setShowAddForm false (setFormData emptyForm st')
    | inl e => setError (Some ("Failed to save bookmark: ", e)) st
    end.

(** [handleDelete(id)], given what [fetch] answers to DELETE
    /bookmarks/<id>. *)
Definition handleDelete (id : jsval) (reply : fetched) (st : state) : state :=
  let st := setError None st in
  let attempt : failure + state :=
    match apiCall reply with
    | inl e => inl e
    | inr _ =>
        match evaluated (l ← as_array (bookmarks st);
                         Array_filter (fun bookmark =>
                           id' ← member bookmark "id";
                           Normal (negb (strict_equals id' id))) l) with
        | inl e => inl e
        | inr l' => inr (setBookmarks (VArr l') st)
        end
    end in
  match attempt with
  | inr st' => st'
  | inl e => setError (Some ("Failed to delete bookmark: ", e)) st
  end.

(** [clearAllBookmarks], given the answer to [window.confirm] and what
    [fetch] answers to DELETE /bookmarks. *)
Definition clearAllBookmarks (confirm : bool) (reply : fetched) (st : state)
  : state :=
  if confirm
  then
    let st := setError None st in
    match apiCall reply with
    | inr _ => setBookmarks (VArr []) st
    | inl e => setError (Some ("Failed to clear bookmarks: ", e)) st
    end
  else st.

(** The [onload] callback of [importBookmarks], given the text of the
    file and what [fetch] answers to POST /bookmarks/import and then, from
    [loadBookmarks], to GET /bookmarks.  The second request is made only
    after the first succeeded. *)
Definition onload (file : text) (imported listed : fetched) (st : state)
  : state :=
  let st := setError None st in
  let failed e := setError (Some ("Failed to import bookmarks: ", e)) in
  match JSON_parse file with
  | Throw => failed SyntaxError st
  | Normal importedBookmarks =>
      if negb (isArray (Some importedBookmarks))
      then failed (Error (VStr "Invalid file format - expected an array of bookmarks")) st
      else
        match apiCall imported with
        | inl e => failed e st
        | inr result =>
            let st' := loadBookmarks listed st in
            match member result "message" with
            | Normal _ => st'
            | Throw => failed TypeError st'
            end
        end
  end.

(** [s.split(sep)] for a separator that is not empty: the pieces of [s]
    between the occurrences of [sep], found from left to right; [skip]
    counts the characters of an occurrence that are still to be passed. *)
Fixpoint split (sep s : string) (skip : nat) : list string :=
  match s with
  | EmptyString => [EmptyString]
  | String a s' =>
      match skip with
      | S k => split sep s' k
      | O =>
          if String.prefix sep s
          then EmptyString :: split sep s' (String.length sep - 1)
          else
            match split sep s' 0 with
            | piece :: pieces => String a piece :: pieces
            | [] => [String a EmptyString]
            end
      end
  end.

(** [s.replace] of every double quote by nothing. *)
Fixpoint replace_quotes (s : string) : string :=
  match s with
  | EmptyString => EmptyString
  | String a s' =>
      if Ascii.eqb a "034" then replace_quotes s' else String a (replace_quotes s')
  end.

(** The [filename] of [exportBookmarks]: taken from the header when
    [headers.get('content-disposition')] is a text that is not empty
    ([undefined], here [None], when the header has no [filename=]), made
    of the date of the client otherwise. *)
Definition filename (contentDisposition : option string) (iso : string)
  : option string :=
  let ownName := "bookmarks-" +:+ split_T_0 iso +:+ ".json" in
  match contentDisposition with
  | Some header =>
      if truthy (Some (VStr header))
      then replace_quotes <$> (split "filename=" header 0 !! 1%nat)
      else Some ownName
  | None => Some ownName
  end.

(** [exportBookmarks], given what [fetch] answers to GET /bookmarks/export
    (or the reason of its rejection) and the text of
    [new Date().toISOString()]: the name given to the download, when there
    is one. *)
Definition exportBookmarks (reply : string + Startup.download) (iso : string)
    (st : state) : state * option (option string) :=
  let st := setError None st in
  let failed e := (setError (Some ("Failed to export bookmarks: ", e)) st, None) in
  match reply with
  | inl reason => failed (Failed reason)
  | inr d =>
      if negb (ok (Startup.reply d))
      then failed (Error (VStr ("HTTP " +:+ pretty (status (Startup.reply d)))))
      else (st, Some (filename (Startup.Content_Disposition d) iso))
  end.

(** The character [a] does not occur in [s]. *)
Fixpoint lacks (a : ascii) (s : string) : bool :=
  match s with
  | EmptyString => true
  | String b s' => negb (Ascii.eqb b a) && lacks a s'
  end.

(** The text before the [T] of [toISOString()]: digits and signs. *)
Fixpoint date_text (s : string) : bool :=
  match s with
  | EmptyString => true
  | String a s' =>
      (Behaviour.is_digit a || Ascii.eqb a "-" || Ascii.eqb a "+") && date_text s'
  end.

(** The mirror is what a List request would answer now. *)
Definition agrees (w : world) (st : state) : Prop :=
  readBookmarks w = Normal (bookmarks st).

End BookmarkManager.

(** Discharge the leading premises of [H], at a concrete input, by
    evaluation. *)
Ltac evaluate_premises H :=
  repeat match type of H with
         | ?A -> _ =>
             let h := fresh in
             assert A as h by (vm_compute; reflexivity);
             specialize (H h); clear h
         end.

(** ** Facts about the store and the array primitives *)

Section StoreFacts.
Import JS Store Server Spec.

Lemma writeBookmarks_eq (v : value) (w : world) :
  writeBookmarks v w =
  if writable w then (true, written v w) else (false, write_failed w).
Proof.
  unfold writeBookmarks, fs_writeFile, written, write_failed, JSON_stringify.
  destruct (writable w); reflexivity.
Qed.

Lemma readBookmarks_written (v : value) (w : world) :
  readBookmarks (written v w) = Normal v.
Proof. reflexivity. Qed.

Lemma readBookmarks_write_failed (w : world) :
  readBookmarks (write_failed w) = readBookmarks w.
Proof. reflexivity. Qed.

Lemma stored_written (c : Collection) (w : world) :
  stored (written (VArr (VObj <$> c)) w) c.
Proof. reflexivity. Qed.

Lemma stored_write_failed (c : Collection) (w : world) :
  stored w c -> stored (write_failed w) c.
Proof. intros H. exact H. Qed.

Lemma VObj_fmap_inj (c c' : Collection) :
  VObj <$> c = VObj <$> c' -> c = c'.
Proof.
  revert c'. induction c as [|b c IH]; intros [|b' c'] H; simpl in H;
    try discriminate; [reflexivity|].
  injection H as Hb Hc. rewrite Hb, (IH _ Hc). reflexivity.
Qed.

Lemma stored_unique (w : world) (c c' : Collection) :
  stored w c -> stored w c' -> c = c'.
Proof.
  unfold stored. intros H H'. rewrite H in H'.
  injection H' as H'. apply VObj_fmap_inj, H'.
Qed.

(** On an array of records the search never throws, and it is the search
    of the first record that satisfies the test. *)
Lemma findIndex_records (f : jsval -> bool) (c : Collection) :
  Array_findIndex (fun b => id ← member b "id"; Normal (f id)) (VObj <$> c)
  = Normal (index_where (fun b : record => f (b !! "id")) c).
Proof.
  induction c as [|b c IH]; [reflexivity|].
  cbn [fmap list_fmap Array_findIndex index_where member mbind completion_bind].
  destruct (f (b !! "id")); [reflexivity|].
  change (list_fmap _ _ VObj c) with (VObj <$> c).
  rewrite IH. reflexivity.
Qed.

Lemma filter_records (f : jsval -> bool) (c : Collection) :
  Array_filter (fun b => id ← member b "id"; Normal (f id)) (VObj <$> c)
  = Normal (VObj <$> List.filter (fun b : record => f (b !! "id")) c).
Proof.
  induction c as [|b c IH]; [reflexivity|].
  cbn [fmap list_fmap Array_filter List.filter member mbind completion_bind].
  change (list_fmap _ _ VObj c) with (VObj <$> c).
  rewrite IH. cbn [mbind completion_bind].
  destruct (f (b !! "id")); reflexivity.
Qed.

Lemma index_where_Some (p : record -> bool) (c : Collection) (i : nat) :
  index_where p c = Some i ->
  exists b, c !! i = Some b /\ p b = true /\
            forall j b', (j < i)%nat -> c !! j = Some b' -> p b' = false.
Proof.
  revert i. induction c as [|a c IH]; intros i H; [discriminate|].
  simpl in H. destruct (p a) eqn:Hp.
  - injection H as <-. exists a. repeat split; [exact Hp|]. intros j b' Hj. lia.
  - destruct (index_where p c) as [k|] eqn:Hk; [|discriminate].
    injection H as <-. destruct (IH k eq_refl) as (b & Hb & Hpb & Hmin).
    exists b. repeat split; [exact Hb|exact Hpb|].
    intros [|j] b' Hj Hl; simpl in Hl.
    + injection Hl as <-. exact Hp.
    + apply (Hmin j); [lia|exact Hl].
Qed.

Lemma index_where_None (p : record -> bool) (c : Collection) :
  index_where p c = None <-> forall b, b ∈ c -> p b = false.
Proof.
  induction c as [|a c IH]; simpl.
  - split; [|reflexivity]. intros _ b Hb. inversion Hb.
  - destruct (p a) eqn:Hp.
    + split; [discriminate|]. intros H. rewrite (H a) in Hp; [discriminate|].
      apply list_elem_of_here.
    + destruct (index_where p c) eqn:Hk; simpl.
      * split; [discriminate|]. intros H.
        assert (Some n = None) as Hn; [|discriminate Hn].
        apply IH. intros b Hb. apply H. apply list_elem_of_further, Hb.
      * split; [|reflexivity]. intros _ b Hb.
        apply elem_of_cons in Hb as [->|Hb]; [exact Hp|].
        apply IH; [reflexivity|exact Hb].
Qed.

Lemma filter_all_length (p : record -> bool) (c : Collection) :
  List.length (List.filter p c) = List.length c <->
  forall b, b ∈ c -> p b = true.
Proof.
  induction c as [|a c IH]; simpl.
  - split; [|reflexivity]. intros _ b Hb. inversion Hb.
  - pose proof (List.filter_length_le p c) as Hle.
    destruct (p a) eqn:Hp; simpl.
    + split.
      * intros H b Hb. apply elem_of_cons in Hb as [->|Hb]; [exact Hp|].
        apply IH; [lia|exact Hb].
      * intros H. f_equal. apply IH. intros b Hb. apply H.
        apply list_elem_of_further, Hb.
    + split; [lia|]. intros H. rewrite (H a) in Hp; [discriminate|].
      apply list_elem_of_here.
Qed.

End StoreFacts.

(** ** What each handler does to a stored Collection *)

Section Handlers.
Import JS Store Server Spec.

Lemma get_bookmarks_eq (w : world) (v : value) :
  readBookmarks w = Normal v ->
  app_get_bookmarks w = (res 200 v, w).
Proof. intros H. unfold app_get_bookmarks, try_catch. rewrite H. reflexivity. Qed.

Lemma post_bookmarks_eq (rt : runtime) (req : request) (w : world)
    (c : Collection) (m : gmap string value) :
  stored w c -> body req = VObj m ->
  app_post_bookmarks rt req w =
  if negb (truthy (m !! "title")) || negb (truthy (m !! "url"))
  then (validation_error, w)
  else
    let b := newBookmark rt (m !! "title") (m !! "url")
               (m !! "category") (m !! "description") in
    if writable w
    then (res 201 (VObj b), written (VArr (VObj <$> (c ++ [b]))) w)
    else (res 500 (error "Failed to save bookmark"), write_failed w).
Proof.
  intros Hst Hbody. unfold app_post_bookmarks. rewrite Hbody.
  unfold try_catch; cbn [member mbind completion_bind].
  destruct (negb (truthy (m !! "title")) || negb (truthy (m !! "url")));
    [reflexivity|].
  rewrite Hst. cbn [as_array mbind completion_bind].
  rewrite writeBookmarks_eq, fmap_app.
  destruct (writable w); reflexivity.
Qed.

Lemma put_bookmarks_id_eq (req : request) (w : world)
    (c : Collection) (m : gmap string value) :
  stored w c -> body req = VObj m ->
  app_put_bookmarks_id req w =
  if negb (truthy (m !! "title")) || negb (truthy (m !! "url"))
  then (validation_error, w)
  else
    match index_where (targets (parseInt (params_id req))) c with
    | None => (not_found, w)
    | Some i =>
        let b := updatedBookmark (VObj <$> c !! i) (m !! "title") (m !! "url")
                   (m !! "category") (m !! "description") in
        if writable w
        then (res 200 (VObj b), written (VArr (VObj <$> <[i := b]> c)) w)
        else (res 500 (error "Failed to update bookmark"), write_failed w)
    end.
Proof.
  intros Hst Hbody. unfold app_put_bookmarks_id. rewrite Hbody.
  unfold try_catch; cbn [member mbind completion_bind].
  destruct (negb (truthy (m !! "title")) || negb (truthy (m !! "url")));
    [reflexivity|].
  rewrite Hst. cbn [as_array mbind completion_bind].
  rewrite (findIndex_records (fun id => equals_number id (parseInt (params_id req)))).
  cbn [mbind completion_bind]. fold (targets (parseInt (params_id req))).
  change (fun b : record => equals_number (b !! "id") (parseInt (params_id req)))
    with (targets (parseInt (params_id req))).
  destruct (index_where _ c) as [i|]; [|reflexivity].
  rewrite writeBookmarks_eq, list_fmap_insert, list_lookup_fmap.
  destruct (writable w); reflexivity.
Qed.

Lemma delete_bookmarks_id_eq (req : request) (w : world) (c : Collection) :
  stored w c ->
  app_delete_bookmarks_id req w =
  let kept := List.filter
                (fun b => negb (targets (parseInt (params_id req)) b)) c in
  if Nat.eqb (List.length kept) (List.length c)
  then (not_found, w)
  else if writable w
  then (res 200 (message "Bookmark deleted successfully"),
        written (VArr (VObj <$> kept)) w)
  else (res 500 (error "Failed to delete bookmark"), write_failed w).
Proof.
  intros Hst. unfold app_delete_bookmarks_id.
  unfold try_catch; cbn [member mbind completion_bind].
  rewrite Hst. cbn [as_array mbind completion_bind].
  rewrite (filter_records
             (fun id => negb (equals_number id (parseInt (params_id req))))).
  cbn [mbind completion_bind]. rewrite !length_fmap.
  change (fun b : record => negb (equals_number (b !! "id") (parseInt (params_id req))))
    with (fun b => negb (targets (parseInt (params_id req)) b)).
  cbv zeta.
  destruct (Nat.eqb _ _); [reflexivity|].
  rewrite writeBookmarks_eq. destruct (writable w); reflexivity.
Qed.

Lemma delete_bookmarks_eq (w : world) :
  app_delete_bookmarks w =
  if writable w
  then (res 200 (message "All bookmarks cleared successfully"),
        written (VArr (VObj <$> [])) w)
  else (res 500 (error "Failed to clear bookmarks"), write_failed w).
Proof.
  unfold app_delete_bookmarks. rewrite writeBookmarks_eq.
  destruct (writable w); reflexivity.
Qed.

Lemma imap_VObj {A} (f : nat -> A -> gmap string value) (l : list A) :
  imap (fun i x => VObj (f i x)) l = VObj <$> imap f l.
Proof.
  revert f. induction l as [|x l IH]; intros f; [reflexivity|].
  simpl. f_equal. apply (IH (f ∘ S)).
Qed.

Lemma post_bookmarks_import_eq (rt : runtime) (req : request) (w : world)
    (c : Collection) (imported : list value) :
  stored w c -> member (body req) "bookmarks" = Normal (Some (VArr imported)) ->
  app_post_bookmarks_import rt req w =
  if writable w
  then (res 200 (VObj (
          <["count" := VNum (inject_Z (Z.of_nat (List.length imported)))]> (
          <["message" := VStr ("Successfully imported "
                               +:+ pretty (List.length imported)
                               +:+ " bookmarks")]> ∅))),
        written (VArr (VObj <$> (c ++ imap (with_new_id rt) imported))) w)
  else (res 500 (error "Failed to import bookmarks"), write_failed w).
Proof.
  intros Hst Hbody. unfold app_post_bookmarks_import. rewrite Hbody.
  unfold try_catch; cbn [mbind completion_bind isArray negb elements].
  rewrite Hst. cbn [iterate mbind completion_bind].
  rewrite writeBookmarks_eq, imap_VObj, fmap_app.
  destruct (writable w); reflexivity.
Qed.

End Handlers.

(** ** Reading the store, and the errors that leave it alone *)

Section Errors.
Import JS Store Server Spec Scenario.

Lemma member_field (x : value) (k : string) :
  x <> VNull -> member x k = Normal (field x k).
Proof. intros Hx. destruct x; try reflexivity. contradiction. Qed.

(** C8.  Whatever the state of the bookmarks file, [readBookmarks]
    completes normally: with the parsed document when the file exists and
    parses, with the empty array when the file is missing or does not
    parse.  List answers 200 with that same value, hence with the empty
    list in the degraded cases. *)
Theorem readBookmarks_degrades (w : world) :
  let found :=
    match BOOKMARKS_FILE w with
    | Some (Serialized v) => v
    | Some Unparseable => VArr []
    | None => VArr []
    end in
  readBookmarks w = Normal found /\
  app_get_bookmarks w = (res 200 found, w).
Proof.
  assert (readBookmarks w = Normal
            match BOOKMARKS_FILE w with
            | Some (Serialized v) => v
            | Some Unparseable => VArr []
            | None => VArr []
            end) as Hread.
  { unfold readBookmarks, fs_readFile.
    destruct (BOOKMARKS_FILE w) as [[|v]|]; reflexivity. }
  split; [exact Hread|]. apply get_bookmarks_eq, Hread.
Qed.

(** C6.  A Create or an Update whose title or url is empty (missing, the
    empty string, or any other falsy value) is answered with the
    validation error, and the world is the one the request found: the
    handler returns before it reads the file, and no write is attempted. *)
Theorem empty_title_or_url_rejected (rt : runtime) (req : request) (w : world) :
  body req <> VNull ->
  truthy (field (body req) "title") = false \/
  truthy (field (body req) "url") = false ->
  app_post_bookmarks rt req w = (validation_error, w) /\
  app_put_bookmarks_id req w = (validation_error, w).
Proof.
  intros Hbody Hempty.
  assert (negb (truthy (field (body req) "title"))
          || negb (truthy (field (body req) "url")) = true) as Hguard.
  { destruct Hempty as [-> | ->]; [reflexivity|apply orb_true_r]. }
  unfold app_post_bookmarks, app_put_bookmarks_id, try_catch.
  rewrite !(member_field _ _ Hbody). cbn [mbind completion_bind].
  rewrite Hguard. split; reflexivity.
Qed.

Lemma empty_title_or_url_rejected_witness :
  app_post_bookmarks (rt_at 1736933400000) (call "2" (form EmptyString "https://x.test"))
    (disk defaultBookmarks)
  = (validation_error, disk defaultBookmarks) /\
  app_put_bookmarks_id (call "2" (form EmptyString "https://x.test")) (disk defaultBookmarks)
  = (validation_error, disk defaultBookmarks).
Proof.
  apply (empty_title_or_url_rejected (rt_at 1736933400000)
           (call "2" (form EmptyString "https://x.test")) (disk defaultBookmarks)).
  - discriminate.
  - left. vm_compute. reflexivity.
Defined.

(** C5, as stated, fails: an Update of an unknown id with an empty title
    is answered with the validation error, not with not-found. *)
Lemma update_unknown_id_empty_title :
  ~ (forall (req : request) (w : world) (c : Collection),
        stored w c ->
        index_where (targets (parseInt (params_id req))) c = None ->
        app_put_bookmarks_id req w = (not_found, w) /\
        app_delete_bookmarks_id req w = (not_found, w)).
Proof.
  intros H.
  destruct (H (call "99" (form EmptyString "https://x.test")) (disk defaultBookmarks)
              defaultBookmarks eq_refl eq_refl) as [Hput _].
  apply (f_equal (fun r => status (fst r))) in Hput.
  vm_compute in Hput. discriminate Hput.
Qed.

Lemma delete_unmatched (req : request) (w : world) (c : Collection) :
  stored w c ->
  index_where (targets (parseInt (params_id req))) c = None ->
  app_delete_bookmarks_id req w = (not_found, w).
Proof.
  intros Hst Hnone.
  rewrite (delete_bookmarks_id_eq req w c Hst). cbv zeta.
  replace (Nat.eqb _ _) with true; [reflexivity|].
  symmetry. apply Nat.eqb_eq, filter_all_length.
  intros b Hb. rewrite (proj1 (index_where_None _ _) Hnone b Hb). reflexivity.
Qed.

Lemma put_unmatched (req : request) (w : world) (c : Collection) :
  stored w c ->
  index_where (targets (parseInt (params_id req))) c = None ->
  truthy (field (body req) "title") = true ->
  truthy (field (body req) "url") = true ->
  app_put_bookmarks_id req w = (not_found, w).
Proof.
  intros Hst Hnone Ht Hu. destruct (body req) as [| | | | |m] eqn:Hbody;
    try discriminate Ht.
  rewrite (put_bookmarks_id_eq req w c m Hst Hbody).
  simpl in Ht, Hu. rewrite Ht, Hu, Hnone. reflexivity.
Qed.

(** C5, amended.  When no record has the id that the path parses to, a
    Delete, and an Update whose title and url are not empty, are answered
    with not-found and the world is the one the request found: nothing is
    written. *)
Theorem unknown_id_not_found (req : request) (w : world) (c : Collection) :
  stored w c ->
  index_where (targets (parseInt (params_id req))) c = None ->
  app_delete_bookmarks_id req w = (not_found, w) /\
  (truthy (field (body req) "title") = true ->
   truthy (field (body req) "url") = true ->
   app_put_bookmarks_id req w = (not_found, w)).
Proof.
  intros Hst Hnone. split.
  - apply (delete_unmatched req w c Hst Hnone).
  - apply (put_unmatched req w c Hst Hnone).
Qed.

Lemma unknown_id_not_found_witness :
  app_delete_bookmarks_id (call "99" (form "X" "https://x.test"))
    (disk defaultBookmarks)
  = (not_found, disk defaultBookmarks) /\
  app_put_bookmarks_id (call "99" (form "X" "https://x.test"))
    (disk defaultBookmarks)
  = (not_found, disk defaultBookmarks).
Proof.
  destruct (unknown_id_not_found (call "99" (form "X" "https://x.test"))
              (disk defaultBookmarks) defaultBookmarks eq_refl eq_refl)
    as [Hdel Hput].
  split; [exact Hdel|]. apply Hput; vm_compute; reflexivity.
Defined.

End Errors.

(** ** Create and Update *)

Section CreateUpdate.
Import JS Store Server Spec Scenario.

Lemma truthy_field_obj (x : value) (k : string) :
  truthy (field x k) = true -> exists m, x = VObj m.
Proof. destruct x; try discriminate. intros _. eexists. reflexivity. Qed.

Lemma truthy_Some (x : jsval) : truthy x = true -> exists v, x = Some v.
Proof. destruct x as [v|]; [eauto|discriminate]. Qed.

Lemma or_else_defaulted (x : jsval) :
  text_or_absent x -> or_else x (VStr EmptyString) = defaulted x.
Proof.
  intros [|s]; [reflexivity|]. unfold or_else, truthy, defaulted.
  destruct (String.eqb_spec s EmptyString) as [->|]; reflexivity.
Qed.

(** The fields of the two object literals. *)
Lemma newBookmark_fields (rt : runtime) (title url category description : jsval) :
  truthy title = true -> truthy url = true ->
  let b := newBookmark rt title url category description in
  b !! "id" = Some (VNum (inject_Z (Date_now rt 0))) /\
  b !! "title" = title /\ b !! "url" = url /\
  b !! "category" = Some (or_else category (VStr EmptyString)) /\
  b !! "description" = Some (or_else description (VStr EmptyString)) /\
  b !! "dateAdded" = Some (VStr (split_T_0 (Date_toISOString rt))).
Proof.
  intros [t ->]%truthy_Some [u ->]%truthy_Some. unfold newBookmark, set_prop.
  repeat split;
    repeat (first [ rewrite lookup_insert_eq | rewrite lookup_insert_ne by done ]);
    reflexivity.
Qed.

Lemma updatedBookmark_fields (old : gmap string value)
    (title url category description : jsval) :
  truthy title = true -> truthy url = true ->
  let b := updatedBookmark (Some (VObj old)) title url category description in
  b !! "title" = title /\ b !! "url" = url /\
  b !! "category" = Some (or_else category (VStr EmptyString)) /\
  b !! "description" = Some (or_else description (VStr EmptyString)) /\
  forall k, k <> "title" -> k <> "url" -> k <> "category" -> k <> "description" ->
            b !! k = old !! k.
Proof.
  intros [t ->]%truthy_Some [u ->]%truthy_Some.
  unfold updatedBookmark, set_prop, spread.
  repeat split;
    try (repeat (first [ rewrite lookup_insert_eq
                       | rewrite lookup_insert_ne by done ]); reflexivity).
  intros k H1 H2 H3 H4. rewrite !lookup_insert_ne by done. reflexivity.
Qed.

(** C4.  An Update with a title and a url that are not empty, for which
    the search finds a record with the id of the path (at position [i],
    the first such), succeeds when the file can be written: the record at
    that position is replaced by one with the same id and dateAdded, with
    the title and url of the request, and with the category and the
    description of the request, the empty string standing for one that is
    absent (or falsy). *)
Theorem update_replaces_fields (req : request) (w : world) (c : Collection)
    (i : nat) :
  stored w c -> writable w = true ->
  truthy (field (body req) "title") = true ->
  truthy (field (body req) "url") = true ->
  index_where (targets (parseInt (params_id req))) c = Some i ->
  exists (old new : gmap string value) (w' : world),
    c !! i = Some old /\ targets (parseInt (params_id req)) old = true /\
    app_put_bookmarks_id req w = (res 200 (VObj new), w') /\
    stored w' (<[i := new]> c) /\
    new !! "id" = old !! "id" /\
    new !! "dateAdded" = old !! "dateAdded" /\
    new !! "title" = field (body req) "title" /\
    new !! "url" = field (body req) "url" /\
    new !! "category" = Some (or_else (field (body req) "category") (VStr EmptyString)) /\
    new !! "description" = Some (or_else (field (body req) "description") (VStr EmptyString)) /\
    (text_or_absent (field (body req) "category") ->
     new !! "category" = Some (defaulted (field (body req) "category"))) /\
    (text_or_absent (field (body req) "description") ->
     new !! "description" = Some (defaulted (field (body req) "description"))).
Proof.
  intros Hst Hw Ht Hu Hi.
  destruct (truthy_field_obj _ _ Ht) as [m Hbody].
  destruct (index_where_Some _ _ _ Hi) as (old & Hold & Htarget & _).
  rewrite Hbody in *. cbn [field] in *.
  pose proof (put_bookmarks_id_eq req w c m Hst Hbody) as Hput.
  rewrite Ht, Hu, Hi, Hw, Hold in Hput. cbn [negb orb fmap option_fmap option_map] in Hput.
  destruct (updatedBookmark_fields old _ _ (m !! "category") (m !! "description")
              Ht Hu) as (Ftitle & Furl & Fcat & Fdesc & Frest).
  eexists old, _, _. split; [exact Hold|]. split; [exact Htarget|].
  split; [exact Hput|]. split; [apply stored_written|].
  split; [apply Frest; discriminate|]. split; [apply Frest; discriminate|].
  split; [exact Ftitle|]. split; [exact Furl|].
  split; [exact Fcat|]. split; [exact Fdesc|].
  split; intros Htext.
  - rewrite Fcat, (or_else_defaulted _ Htext). reflexivity.
  - rewrite Fdesc, (or_else_defaulted _ Htext). reflexivity.
Qed.

Lemma update_replaces_fields_witness :
  exists (new : gmap string value) (w' : world),
    app_put_bookmarks_id
      (call "2" (VObj {[ "title" := VStr "MDN"; "url" := VStr "https://mdn.io";
                         "category" := VStr "Docs" ]}))
      (disk defaultBookmarks) = (res 200 (VObj new), w') /\
    new !! "id" = Some (VNum (inject_Z 2)) /\
    new !! "dateAdded" = Some (VStr "2025-01-15") /\
    new !! "title" = Some (VStr "MDN") /\
    new !! "category" = Some (VStr "Docs") /\
    new !! "description" = Some (VStr EmptyString).
Proof.
  pose proof (update_replaces_fields
                (call "2" (VObj {[ "title" := VStr "MDN"; "url" := VStr "https://mdn.io";
                                   "category" := VStr "Docs" ]}))
                (disk defaultBookmarks) defaultBookmarks 1%nat) as H.
  evaluate_premises H.
  destruct H as (old & new & w' & Hold & _ & Hput & _ & Hid & Hdate & Htitle & _
                 & Hcat & _ & _ & Hdesc).
  injection Hold as <-.
  exists new, w'. split; [exact Hput|].
  split; [rewrite Hid; reflexivity|]. split; [rewrite Hdate; reflexivity|].
  split; [rewrite Htitle; reflexivity|]. split; [rewrite Hcat; reflexivity|].
  rewrite Hdesc; [reflexivity|]. apply field_absent.
Defined.

Lemma put_needs_object (req : request) (w : world) :
  (forall m, body req <> VObj m) ->
  status (fst (app_put_bookmarks_id req w)) <> 200%nat.
Proof.
  intros Hbody. unfold app_put_bookmarks_id.
  destruct (body req) as [| | | | |m]; try (simpl; discriminate).
  destruct (Hbody m eq_refl).
Qed.

(** C10.  An Update answered with 200 replaces the matched record and
    nothing else.  The matched record is the first of the Collection whose
    id is the number that the path parses to; the Collection afterwards is
    the Collection before with the returned record at that position: it
    has the length it had, and at every other position the record it had,
    field for field. *)
Theorem update_touches_one_record (req : request) (w w' : world)
    (c : Collection) (r : response) :
  stored w c ->
  app_put_bookmarks_id req w = (r, w') ->
  status r = 200%nat ->
  exists (i : nat) (old new : gmap string value) (c' : Collection),
    stored w' c' /\ json r = VObj new /\
    index_where (targets (parseInt (params_id req))) c = Some i /\
    c !! i = Some old /\
    targets (parseInt (params_id req)) old = true /\
    (forall j b, (j < i)%nat -> c !! j = Some b ->
                 targets (parseInt (params_id req)) b = false) /\
    c' = <[i := new]> c /\
    (i < List.length c)%nat /\ c' !! i = Some new /\
    List.length c' = List.length c /\
    forall j, j <> i -> c' !! j = c !! j.
Proof.
  intros Hst Hput Hok.
  destruct (body req) as [| | | | |m] eqn:Hbody;
    try (exfalso; apply (put_needs_object req w);
         [intros m'; rewrite Hbody; discriminate | rewrite Hput; exact Hok]).
  rewrite (put_bookmarks_id_eq req w c m Hst Hbody) in Hput.
  destruct (negb (truthy (m !! "title")) || negb (truthy (m !! "url")));
    [injection Hput as <- <-; discriminate Hok|].
  destruct (index_where _ c) as [i|] eqn:Hi;
    [|injection Hput as <- <-; discriminate Hok].
  destruct (index_where_Some _ _ _ Hi) as (old & Hold & Htarget & Hfirst).
  apply lookup_lt_Some in Hold as Hlt.
  cbv zeta in Hput. destruct (writable w);
    [|injection Hput as <- <-; discriminate Hok].
  injection Hput as <- <-. eexists i, old, _, _.
  split; [apply stored_written|]. split; [reflexivity|].
  split; [reflexivity|]. split; [exact Hold|]. split; [exact Htarget|].
  split; [exact Hfirst|]. split; [reflexivity|].
  split; [exact Hlt|]. split; [apply list_lookup_insert_eq, Hlt|].
  split; [apply length_insert|].
  intros j Hj. apply list_lookup_insert_ne. congruence.
Qed.

Lemma update_touches_one_record_witness :
  exists (c' : Collection) (new : gmap string value),
    stored (snd (app_put_bookmarks_id (call "3" (form "GitHub" "https://github.com/explore"))
                   (disk defaultBookmarks))) c' /\
    c' = <[2%nat := new]> defaultBookmarks /\
    forall j, j <> 2%nat -> c' !! j = defaultBookmarks !! j.
Proof.
  pose proof (update_touches_one_record
                (call "3" (form "GitHub" "https://github.com/explore"))
                (disk defaultBookmarks)
                (snd (app_put_bookmarks_id
                        (call "3" (form "GitHub" "https://github.com/explore"))
                        (disk defaultBookmarks)))
                defaultBookmarks
                (fst (app_put_bookmarks_id
                        (call "3" (form "GitHub" "https://github.com/explore"))
                        (disk defaultBookmarks)))) as H.
  evaluate_premises H.
  destruct H as (i & old & new & c' & Hst & _ & Hi & _ & _ & _ & Hc' & _ & _ & _ & Hframe).
  assert (i = 2%nat) as -> by (vm_compute in Hi; congruence).
  exists c', new. repeat split; assumption.
Defined.

(** C3, as stated, fails: a Create in the millisecond in which a stored
    record was created returns a record whose id is the id of that
    record. *)
Lemma create_in_the_same_millisecond :
  ~ (forall (rt : runtime) (req : request) (w : world) (c : Collection),
        stored w c -> writable w = true ->
        truthy (field (body req) "title") = true ->
        truthy (field (body req) "url") = true ->
        exists (b : gmap string value) (w' : world),
          app_post_bookmarks rt req w = (res 201 (VObj b), w') /\
          forall r, r ∈ c -> strict_equals (r !! "id") (b !! "id") = false).
Proof.
  intros H.
  specialize (H (rt_at 1736933400000) (submit (form "Y" "https://y.test"))
                (disk [bookmark 1736933400000 "X" "https://x.test" EmptyString EmptyString])
                [bookmark 1736933400000 "X" "https://x.test" EmptyString EmptyString]).
  evaluate_premises H. destruct H as (b & w' & Hpost & Hfresh).
  erewrite post_bookmarks_eq in Hpost; [|reflexivity|reflexivity].
  cbn [negb orb truthy] in Hpost. injection Hpost as <- _.
  specialize (Hfresh _ (list_elem_of_here _ _)).
  vm_compute in Hfresh. discriminate Hfresh.
Qed.

(** C3, amended.  A Create with a title and a url that are not empty
    succeeds when the file can be written.  The record it returns has the
    reading of the clock as its id, the title and url of the request, its
    category and description (the empty string for an absent one) and the
    date of the day; the Collection afterwards is the one before with that
    record appended.  The id is absent from the Collection before,
    provided that no record there has that reading of the clock as its
    id. *)
Theorem create_appends_record (rt : runtime) (req : request) (w : world)
    (c : Collection) :
  stored w c -> writable w = true ->
  truthy (field (body req) "title") = true ->
  truthy (field (body req) "url") = true ->
  exists (b : gmap string value) (w' : world),
    app_post_bookmarks rt req w = (res 201 (VObj b), w') /\
    stored w' (c ++ [b]) /\
    b !! "id" = Some (VNum (inject_Z (Date_now rt 0))) /\
    b !! "title" = field (body req) "title" /\
    b !! "url" = field (body req) "url" /\
    b !! "category" = Some (or_else (field (body req) "category") (VStr EmptyString)) /\
    b !! "description" = Some (or_else (field (body req) "description") (VStr EmptyString)) /\
    b !! "dateAdded" = Some (VStr (split_T_0 (Date_toISOString rt))) /\
    (index_where (targets (Some (inject_Z (Date_now rt 0)))) c = None ->
     forall r, r ∈ c -> strict_equals (r !! "id") (b !! "id") = false).
Proof.
  intros Hst Hw Ht Hu.
  destruct (truthy_field_obj _ _ Ht) as [m Hbody].
  rewrite Hbody in *. cbn [field] in *.
  pose proof (post_bookmarks_eq rt req w c m Hst Hbody) as Hpost.
  rewrite Ht, Hu, Hw in Hpost. cbn [negb orb] in Hpost.
  destruct (newBookmark_fields rt _ _ (m !! "category") (m !! "description")
              Ht Hu) as (Fid & Ftitle & Furl & Fcat & Fdesc & Fdate).
  eexists _, _. split; [exact Hpost|]. split; [apply stored_written|].
  split; [exact Fid|]. split; [exact Ftitle|]. split; [exact Furl|].
  split; [exact Fcat|]. split; [exact Fdesc|]. split; [exact Fdate|].
  intros Hnone r Hr. rewrite Fid.
  apply (proj1 (index_where_None _ _) Hnone r Hr).
Qed.

Lemma create_appends_record_witness :
  exists (b : gmap string value) (w' : world),
    app_post_bookmarks (rt_at 1736933400000)
      (submit (form "Example" "https://example.com")) no_file
    = (res 201 (VObj b), w') /\
    stored w' [b] /\
    b !! "title" = Some (VStr "Example") /\
    b !! "category" = Some (VStr EmptyString) /\
    b !! "dateAdded" = Some (VStr "2025-01-15").
Proof.
  pose proof (create_appends_record (rt_at 1736933400000)
                (submit (form "Example" "https://example.com")) no_file []) as H.
  evaluate_premises H.
  destruct H as (b & w' & Hpost & Hst & _ & Htitle & _ & Hcat & _ & Hdate & _).
  exists b, w'. split; [exact Hpost|]. split; [exact Hst|].
  split; [rewrite Htitle; reflexivity|].
  split; [rewrite Hcat; reflexivity|]. rewrite Hdate; reflexivity.
Defined.

End CreateUpdate.

(** ** Import *)

Section ImportFacts.
Import JS Store Server Spec Scenario.

Lemma with_new_id_id (rt : runtime) (i : nat) (x : value) :
  with_new_id rt i x !! "id" = Some (VNum (token rt i)).
Proof. unfold with_new_id, set_prop. apply lookup_insert_eq. Qed.

(** Import copies every property of an input object but [id]: a property
    that the input lacks is not added. *)
Lemma with_new_id_other (rt : runtime) (i : nat) (m : gmap string value)
    (k : string) :
  k <> "id" -> with_new_id rt i (VObj m) !! k = m !! k.
Proof.
  intros Hk. unfold with_new_id, set_prop, spread.
  apply lookup_insert_ne. congruence.
Qed.

Lemma length_imap_new (rt : runtime) (imported : list value) :
  List.length (imap (with_new_id rt) imported) = List.length imported.
Proof. apply length_imap. Qed.

Lemma ids_imap_from (rt : runtime) (imported : list value) (k : nat) :
  ids (imap (fun i => with_new_id rt (k + i)) imported)
  = (fun t => Some (VNum t)) <$> (token rt <$> seq k (List.length imported)).
Proof.
  revert k. induction imported as [|x l IH]; intros k; [reflexivity|].
  cbn [imap List.length seq fmap list_fmap ids].
  rewrite with_new_id_id, Nat.add_0_r. f_equal.
  specialize (IH (S k)). unfold ids in IH. cbn [fmap] in IH.
  rewrite <- IH. f_equal. apply imap_ext. intros i y _. simpl.
  f_equal. lia.
Qed.

Lemma ids_imap_new (rt : runtime) (imported : list value) :
  ids (imap (with_new_id rt) imported)
  = (fun t => Some (VNum t)) <$> (token rt <$> seq 0 (List.length imported)).
Proof. apply (ids_imap_from rt imported 0). Qed.

(** What a successful Import does: the answer counts the input records, and
    the Collection afterwards is the one before followed by one record per
    input record, in order, each with the properties of its input record
    and the id taken from the clock. *)
Lemma import_appends (rt : runtime) (req : request) (w : world)
    (c : Collection) (imported : list value) :
  stored w c -> writable w = true ->
  field (body req) "bookmarks" = Some (VArr imported) ->
  exists (r : response) (w' : world),
    app_post_bookmarks_import rt req w = (r, w') /\
    status r = 200%nat /\
    field (json r) "count" = Some (VNum (inject_Z (Z.of_nat (List.length imported)))) /\
    stored w' (c ++ imap (with_new_id rt) imported) /\
    forall i x, imported !! i = Some x ->
      exists b, (c ++ imap (with_new_id rt) imported) !! (List.length c + i)%nat = Some b /\
                b !! "id" = Some (VNum (token rt i)) /\
                forall k, k <> "id" -> b !! k = spread (Some x) !! k.
Proof.
  intros Hst Hw Hfield.
  assert (member (body req) "bookmarks" = Normal (Some (VArr imported))) as Hm.
  { destruct (body req); try discriminate Hfield. simpl in *. rewrite Hfield.
    reflexivity. }
  rewrite (post_bookmarks_import_eq rt req w c imported Hst Hm), Hw.
  eexists _, _. split; [reflexivity|]. split; [reflexivity|].
  split; [reflexivity|]. split; [apply stored_written|].
  intros i x Hx. exists (with_new_id rt i x).
  split.
  - rewrite lookup_app_r by lia.
    replace (List.length c + i - List.length c)%nat with i by lia.
    rewrite list_lookup_imap, Hx. reflexivity.
  - split; [apply with_new_id_id|]. intros k Hk.
    unfold with_new_id, set_prop. apply lookup_insert_ne. congruence.
Qed.

(** C1.  The Import of the specification's scenario, two records with a
    title and a url only, into an empty Collection: the answer counts 2,
    the two records are appended with ids from the clock, and neither has a
    category or a description: Import does not give them the empty string
    that Create and Update store. *)
Theorem import_leaves_missing_fields_missing :
  let payload := VObj {[ "bookmarks" :=
                   VArr [ form "X" "https://x.test"; form "Y" "https://y.test" ] ]} in
  let x := with_new_id (rt_at 1736933400000) 0 (form "X" "https://x.test") in
  let y := with_new_id (rt_at 1736933400000) 1 (form "Y" "https://y.test") in
  exists w' : world,
    app_post_bookmarks_import (rt_at 1736933400000) (submit payload) no_file
    = (res 200 (VObj {[ "message" := VStr "Successfully imported 2 bookmarks";
                        "count" := VNum (inject_Z 2) ]}), w') /\
    stored w' [x; y] /\
    x !! "title" = Some (VStr "X") /\ x !! "url" = Some (VStr "https://x.test") /\
    x !! "category" = None /\ x !! "description" = None /\
    y !! "category" = None /\ y !! "description" = None /\
    x !! "category" <> Some (VStr EmptyString) /\ x !! "description" <> Some (VStr EmptyString).
Proof.
  intros payload x y. eexists. split; [vm_compute; reflexivity|].
  split; [vm_compute; reflexivity|].
  repeat split; try (vm_compute; reflexivity); vm_compute; discriminate.
Qed.

End ImportFacts.

(** ** The ids of the Collection *)

Section Ids.
Import JS Store Server Spec Scenario.

Lemma forallb_filter {A} (f p : A -> bool) (l : list A) :
  forallb f l = true -> forallb f (List.filter p l) = true.
Proof.
  induction l as [|a l IH]; [reflexivity|]. simpl.
  intros [Ha Hl]%andb_true_iff. destruct (p a); simpl; [|auto].
  rewrite Ha. auto.
Qed.

Lemma forallb_fmap {A B} (f : B -> bool) (g : A -> B) (l : list A) :
  forallb f (g <$> l) = forallb (fun a => f (g a)) l.
Proof. induction l as [|a l IH]; [reflexivity|]. simpl. rewrite <- IH. reflexivity. Qed.

Lemma forallb_pointwise {A} (f g : A -> bool) (l : list A) :
  (forall a, f a = g a) -> forallb f l = forallb g l.
Proof.
  intros Hfg. induction l as [|a l IH]; [reflexivity|]. simpl.
  rewrite Hfg, IH. reflexivity.
Qed.

Lemma pairwise_distinct_app (l1 l2 : list jsval) :
  pairwise_distinct (l1 ++ l2) =
  pairwise_distinct l1 && pairwise_distinct l2 &&
  forallb (fun x => forallb (fun y => negb (strict_equals x y)) l2) l1.
Proof.
  induction l1 as [|x l1 IH]; simpl.
  - rewrite andb_true_r. reflexivity.
  - rewrite IH, forallb_app.
    destruct (forallb _ l1), (pairwise_distinct l1), (pairwise_distinct l2),
      (forallb _ l2), (forallb _ l1); reflexivity.
Qed.

Lemma ids_filter (p : record -> bool) (c : Collection) :
  pairwise_distinct (ids c) = true ->
  pairwise_distinct (ids (List.filter p c)) = true.
Proof.
  induction c as [|b c IH]; [reflexivity|]. cbn [ids fmap list_fmap pairwise_distinct List.filter].
  intros [Hb Hc]%andb_true_iff. specialize (IH Hc).
  destruct (p b); [|exact IH].
  cbn [ids fmap list_fmap pairwise_distinct]. apply andb_true_iff. split; [|exact IH].
  change (list_fmap _ _ ?f ?l) with (f <$> l) in *.
  rewrite forallb_fmap in *. apply forallb_filter, Hb.
Qed.

Lemma ids_insert (c : Collection) (i : nat) (old new : gmap string value) :
  c !! i = Some old -> new !! "id" = old !! "id" ->
  ids (<[i := new]> c) = ids c.
Proof.
  intros Hold Hid. unfold ids. rewrite list_fmap_insert.
  apply list_insert_id. rewrite list_lookup_fmap, Hold. simpl. congruence.
Qed.

Lemma updatedBookmark_id (old : gmap string value)
    (title url category description : jsval) :
  updatedBookmark (Some (VObj old)) title url category description !! "id"
  = old !! "id".
Proof.
  unfold updatedBookmark, set_prop, spread. rewrite !lookup_insert_ne by done.
  destruct url, title;
    repeat (first [ rewrite lookup_insert_ne by done
                  | rewrite lookup_delete_ne by done ]); reflexivity.
Qed.

Lemma newBookmark_id (rt : runtime) (title url category description : jsval) :
  newBookmark rt title url category description !! "id"
  = Some (VNum (inject_Z (Date_now rt 0))).
Proof.
  unfold newBookmark, set_prop. rewrite !lookup_insert_ne by done.
  destruct url, title;
    repeat (first [ rewrite lookup_insert_ne by done
                  | rewrite lookup_delete_ne by done ]);
    apply lookup_insert_eq.
Qed.

(** Appending records whose ids are fresh tokens keeps the ids distinct. *)
Lemma unique_ids_append (c news : Collection) (ts : list Q) :
  unique_ids c = true -> fresh_tokens ts c = true ->
  ids news = (fun t => Some (VNum t)) <$> ts ->
  unique_ids (c ++ news) = true.
Proof.
  unfold unique_ids, fresh_tokens. intros Hc [Hts Hcross]%andb_true_iff Hnews.
  unfold ids at 1. rewrite fmap_app. fold (ids c) (ids news).
  rewrite pairwise_distinct_app, Hc, Hnews, Hts. simpl.
  unfold ids. rewrite forallb_fmap.
  etrans; [|exact Hcross]. apply forallb_pointwise.
  intros b. rewrite forallb_fmap. reflexivity.
Qed.

(** What the handlers can leave in the store. *)
Lemma post_outcome (rt : runtime) (req : request) (w : world) (c : Collection) :
  stored w c ->
  snd (app_post_bookmarks rt req w) = w \/
  snd (app_post_bookmarks rt req w) = write_failed w \/
  exists b, snd (app_post_bookmarks rt req w) = written (VArr (VObj <$> (c ++ [b]))) w /\
            b !! "id" = Some (VNum (inject_Z (Date_now rt 0))).
Proof.
  intros Hst. destruct (body req) as [| | | | |m] eqn:Hbody;
    try (left; unfold app_post_bookmarks; rewrite Hbody; reflexivity).
  rewrite (post_bookmarks_eq rt req w c m Hst Hbody).
  destruct (negb _ || negb _); [left; reflexivity|]. cbv zeta.
  destruct (writable w); [|right; left; reflexivity].
  right; right. eexists. split; [reflexivity|apply newBookmark_id].
Qed.

Lemma put_outcome (req : request) (w : world) (c : Collection) :
  stored w c ->
  snd (app_put_bookmarks_id req w) = w \/
  snd (app_put_bookmarks_id req w) = write_failed w \/
  exists i old new,
    index_where (targets (parseInt (params_id req))) c = Some i /\
    c !! i = Some old /\ new !! "id" = old !! "id" /\
    snd (app_put_bookmarks_id req w) = written (VArr (VObj <$> <[i := new]> c)) w.
Proof.
  intros Hst. destruct (body req) as [| | | | |m] eqn:Hbody;
    try (left; unfold app_put_bookmarks_id; rewrite Hbody; reflexivity).
  rewrite (put_bookmarks_id_eq req w c m Hst Hbody).
  destruct (negb _ || negb _); [left; reflexivity|].
  destruct (index_where _ c) as [i|] eqn:Hi; [|left; reflexivity]. cbv zeta.
  destruct (writable w); [|right; left; reflexivity].
  right; right. destruct (index_where_Some _ _ _ Hi) as (old & Hold & _ & _).
  exists i, old. eexists. split; [reflexivity|]. split; [exact Hold|].
  split; [|reflexivity]. rewrite Hold. apply updatedBookmark_id.
Qed.

Lemma delete_outcome (req : request) (w : world) (c : Collection) :
  stored w c ->
  snd (app_delete_bookmarks_id req w) = w \/
  snd (app_delete_bookmarks_id req w) = write_failed w \/
  snd (app_delete_bookmarks_id req w)
  = written (VArr (VObj <$> List.filter
                     (fun b => negb (targets (parseInt (params_id req)) b)) c)) w.
Proof.
  intros Hst. rewrite (delete_bookmarks_id_eq req w c Hst). cbv zeta.
  destruct (Nat.eqb _ _); [left; reflexivity|].
  destruct (writable w); [right; right|right; left]; reflexivity.
Qed.

Lemma import_outcome (rt : runtime) (req : request) (w : world) (c : Collection) :
  stored w c ->
  snd (app_post_bookmarks_import rt req w) = w \/
  snd (app_post_bookmarks_import rt req w) = write_failed w \/
  exists imported,
    field (body req) "bookmarks" = Some (VArr imported) /\ writable w = true /\
    snd (app_post_bookmarks_import rt req w)
    = written (VArr (VObj <$> (c ++ imap (with_new_id rt) imported))) w.
Proof.
  intros Hst. destruct (body req) as [| | | | |m] eqn:Hbody;
    try (left; unfold app_post_bookmarks_import; rewrite Hbody; reflexivity).
  destruct (m !! "bookmarks") as [[| | | |imported|]|] eqn:Hm;
    try (left; unfold app_post_bookmarks_import; rewrite Hbody;
         cbn [member try_catch mbind completion_bind]; rewrite Hm; reflexivity).
  assert (member (body req) "bookmarks" = Normal (Some (VArr imported))) as Hmem.
  { rewrite Hbody. simpl. rewrite Hm. reflexivity. }
  rewrite (post_bookmarks_import_eq rt req w c imported Hst Hmem).
  destruct (writable w) eqn:Hw; [|right; left; reflexivity].
  right; right. exists imported. repeat split; exact Hm.
Qed.

End Ids.

(** ** The invariant, and the ids that the path cannot name *)

Section Invariant.
Import JS Store Server Spec Scenario.

(** C2, as stated, fails: a Create in the millisecond in which the one
    stored record was created leaves two records with the same id. *)
Lemma create_duplicates_an_id :
  ~ (forall (rt : runtime) (op : operation) (w : world) (c : Collection),
        stored w c -> unique_ids c = true ->
        exists c', stored (snd (run rt op w)) c' /\ unique_ids c' = true).
Proof.
  intros H.
  specialize (H (rt_at 1736933400000) (Create (submit (form "Y" "https://y.test")))
                (disk [bookmark 1736933400000 "X" "https://x.test" EmptyString EmptyString])
                [bookmark 1736933400000 "X" "https://x.test" EmptyString EmptyString]).
  evaluate_premises H. destruct H as (c' & Hst & Huniq).
  assert (stored
            (snd (run (rt_at 1736933400000)
                    (Create (submit (form "Y" "https://y.test")))
                    (disk [bookmark 1736933400000 "X" "https://x.test" EmptyString EmptyString])))
            [bookmark 1736933400000 "X" "https://x.test" EmptyString EmptyString;
             newBookmark (rt_at 1736933400000) (Some (VStr "Y"))
               (Some (VStr "https://y.test")) None None]) as Hst'.
  { vm_compute. reflexivity. }
  rewrite (stored_unique _ _ _ Hst Hst') in Huniq.
  vm_compute in Huniq. discriminate Huniq.
Qed.

(** C2, amended.  From a Collection in which no two records share an id,
    every operation leaves such a Collection, provided that the ids the
    operation takes from the clock (one for Create, one per record for
    Import) are pairwise different and are not ids of the Collection.
    Update, Delete and Clear-all take none.  An Import of an array, when
    the file can be written, leaves the Collection followed by as many
    records as the array has. *)
Theorem ids_stay_unique (rt : runtime) (op : operation) (w : world)
    (c : Collection) :
  stored w c -> unique_ids c = true ->
  fresh_tokens (tokens_of rt op) c = true ->
  exists c',
    stored (snd (run rt op w)) c' /\ unique_ids c' = true /\
    forall req imported,
      op = Import req ->
      field (body req) "bookmarks" = Some (VArr imported) ->
      writable w = true ->
      List.length c' = (List.length c + List.length imported)%nat.
Proof.
  intros Hst Huniq Hfresh.
  assert (forall w', w' = w \/ w' = write_failed w -> stored w' c) as Hsame.
  { intros w' [-> | ->]; [exact Hst|apply stored_write_failed, Hst]. }
  destruct op as [req|req|req| |req]; cbn [run].
  - destruct (post_outcome rt req w c Hst) as [H|[H|(b & H & Hid)]].
    + exists c. rewrite H. split; [apply Hsame; auto|]. split; [exact Huniq|].
      discriminate.
    + exists c. rewrite H. split; [apply Hsame; auto|]. split; [exact Huniq|].
      discriminate.
    + exists (c ++ [b]). rewrite H. split; [apply stored_written|].
      split; [|discriminate].
      apply (unique_ids_append c [b] _ Huniq Hfresh).
      cbn [ids fmap list_fmap]. rewrite Hid. reflexivity.
  - destruct (put_outcome req w c Hst) as [H|[H|(i & old & new & _ & Hold & Hid & H)]].
    + exists c. rewrite H. split; [apply Hsame; auto|]. split; [exact Huniq|].
      discriminate.
    + exists c. rewrite H. split; [apply Hsame; auto|]. split; [exact Huniq|].
      discriminate.
    + exists (<[i := new]> c). rewrite H. split; [apply stored_written|].
      split; [|discriminate].
      unfold unique_ids. rewrite (ids_insert c i old new Hold Hid). exact Huniq.
  - destruct (delete_outcome req w c Hst) as [H|[H|H]].
    + exists c. rewrite H. split; [apply Hsame; auto|]. split; [exact Huniq|].
      discriminate.
    + exists c. rewrite H. split; [apply Hsame; auto|]. split; [exact Huniq|].
      discriminate.
    + eexists. rewrite H. split; [apply stored_written|].
      split; [|discriminate]. apply ids_filter, Huniq.
  - rewrite delete_bookmarks_eq. destruct (writable w).
    + exists []. split; [apply stored_written|]. split; [reflexivity|discriminate].
    + exists c. split; [apply Hsame; auto|]. split; [exact Huniq|discriminate].
  - destruct (import_outcome rt req w c Hst)
      as [H|[H|(imported & Hf & Hw & H)]].
    + exists c. rewrite H. split; [apply Hsame; auto|]. split; [exact Huniq|].
      intros req' imported' [= <-] Hf' Hw'.
      destruct (import_appends rt req w c imported' Hst Hw' Hf')
        as (r & w' & Hrun & _ & _ & Hst' & _).
      rewrite Hrun in H. simpl in H. subst w'.
      pose proof (stored_unique _ _ _ Hst Hst') as Hc.
      apply (f_equal (@List.length _)) in Hc.
      rewrite length_app, length_imap in *. lia.
    + exists c. rewrite H. split; [apply Hsame; auto|]. split; [exact Huniq|].
      intros req' imported' [= <-] Hf' Hw'.
      unfold write_failed in H.
      destruct (import_appends rt req w c imported' Hst Hw' Hf')
        as (r & w' & Hrun & _ & _ & Hst' & _).
      rewrite Hrun in H. simpl in H. subst w'.
      pose proof (stored_unique _ _ _ (stored_write_failed c w Hst) Hst') as Hc.
      apply (f_equal (@List.length _)) in Hc.
      rewrite length_app, length_imap in *. lia.
    + eexists. rewrite H. split; [apply stored_written|]. split.
      * apply (unique_ids_append c _ (tokens_of rt (Import req)) Huniq Hfresh).
        cbn [tokens_of]. rewrite Hf. apply ids_imap_new.
      * intros req' imported' [= <-] Hf' _. rewrite Hf in Hf'.
        injection Hf' as <-. rewrite length_app, length_imap. reflexivity.
Qed.

Lemma ids_stay_unique_witness :
  exists c',
    stored (snd (run (rt_at 1736933400000)
                   (Import (submit (VObj {[ "bookmarks" :=
                      VArr [ form "X" "https://x.test"; form "Y" "https://y.test" ] ]})))
                   no_file)) c' /\
    unique_ids c' = true /\ List.length c' = 2%nat.
Proof.
  pose proof (ids_stay_unique (rt_at 1736933400000)
                (Import (submit (VObj {[ "bookmarks" :=
                   VArr [ form "X" "https://x.test"; form "Y" "https://y.test" ] ]})))
                no_file []) as H.
  evaluate_premises H. destruct H as (c' & Hst & Huniq & Hlen).
  exists c'. split; [exact Hst|]. split; [exact Huniq|].
  apply (Hlen _ [ form "X" "https://x.test"; form "Y" "https://y.test" ] eq_refl);
    vm_compute; reflexivity.
Defined.

Lemma is_integer_multiple (q : Q) :
  is_integer q = true <-> exists k, Qnum q = (k * Zpos (Qden q))%Z.
Proof.
  unfold is_integer. rewrite Z.eqb_eq. split.
  - intros H. exists (Qnum q / Zpos (Qden q))%Z.
    pose proof (Z.div_mod (Qnum q) (Zpos (Qden q))) as Hdm. lia.
  - intros [k ->]. apply Z.mod_mul. lia.
Qed.

Lemma is_integer_Qeq (p q : Q) :
  Qeq p q -> is_integer p = true -> is_integer q = true.
Proof.
  unfold Qeq. intros Hpq [k Hk]%is_integer_multiple.
  apply is_integer_multiple. exists k.
  rewrite Hk in Hpq. nia.
Qed.

Lemma round_half_even_1 (n : Z) : round_half_even n 1 = n.
Proof.
  unfold round_half_even. rewrite Z.mod_1_r, Z.div_1_r. reflexivity.
Qed.

(** Rounding an integer to binary64 gives an integer. *)
Lemma binary64_integer (z : Z) : is_integer (binary64 (inject_Z z)) = true.
Proof.
  unfold binary64. cbn [inject_Z Qnum Qden].
  destruct (Z.abs z =? 0)%Z; [reflexivity|].
  set (e := Z.max _ (-1074)). clearbody e.
  apply is_integer_multiple. cbn [Qnum Qden].
  destruct (Z.le_gt_cases 0 e) as [He|He].
  - replace (Z.max 0 (- e)) with 0%Z by lia.
    change (Z.pos (Z.to_pos (2 ^ 0))) with 1%Z.
    eexists. symmetry. apply Z.mul_1_r.
  - replace (Z.max 0 e) with 0%Z by lia.
    replace (Z.max 0 (- e)) with (- e)%Z by lia.
    change (Z.to_pos (1 * 2 ^ 0)) with 1%positive.
    rewrite round_half_even_1.
    assert (0 < 2 ^ (- e))%Z as Hpos by (apply Z.pow_pos_nonneg; lia).
    rewrite Z2Pos.id by exact Hpos.
    exists (Z.sgn z * Z.abs z)%Z. ring.
Qed.

(** Integers of at most 53 bits are Numbers: rounding leaves them as they
    are. *)
Lemma binary64_exact (z : Z) :
  (Z.abs z < 2 ^ 53)%Z -> Qeq (binary64 (inject_Z z)) (inject_Z z).
Proof.
  intros Hz. unfold binary64. cbn [inject_Z Qnum Qden].
  destruct (Z.abs z =? 0)%Z eqn:H0.
  - apply Z.eqb_eq in H0. apply (proj1 (Z.abs_0_iff z)) in H0.
    subst z. reflexivity.
  - apply Z.eqb_neq in H0.
    assert (Z.log2 (Z.abs z) < 53)%Z as Hlog by (apply Z.log2_lt_pow2; lia).
    change (Z.log2 1) with 0%Z. rewrite Z.sub_0_r.
    set (l := if (_ <=? _)%Z then _ else _).
    assert (l <= 52)%Z as Hl by (subst l; destruct (_ <=? _)%Z; lia).
    clearbody l. set (e := Z.max (l - 52) (-1074)).
    assert (e <= 0)%Z as He by (subst e; lia). clearbody e.
    replace (Z.max 0 e) with 0%Z by lia.
    replace (Z.max 0 (- e)) with (- e)%Z by lia.
    change (Z.to_pos (1 * 2 ^ 0)) with 1%positive.
    rewrite round_half_even_1.
    assert (0 < 2 ^ (- e))%Z as Hpos by (apply Z.pow_pos_nonneg; lia).
    unfold Qeq. cbn [Qnum Qden]. rewrite Z2Pos.id by exact Hpos.
    change (2 ^ 0)%Z with 1%Z. rewrite !Z.mul_1_r. cbn [inject_Z Qnum].
    rewrite Z.mul_assoc, (Z.mul_comm (Z.sgn z)), Z.abs_sgn. reflexivity.
Qed.

Lemma parseInt_integer (s : string) (q : Q) :
  parseInt s = Some q -> is_integer q = true.
Proof.
  unfold parseInt.
  destruct (match trimStart s with
            | String "-" r => (-1, r)
            | String "+" r => (1, r)
            | _ => (1, trimStart s)
            end) as [sign s2].
  destruct (match s2 with
            | String "0" (String "x" r) => (16, r)
            | String "0" (String "X" r) => (16, r)
            | _ => (10, s2)
            end) as [radix s3].
  destruct (digits radix s3 None) as [n|]; [|discriminate].
  intros [= <-]. apply binary64_integer.
Qed.

(** A record whose id has a fractional part is not the record of any
    path: [parseInt] yields an integer or [NaN]. *)
Lemma fractional_id_not_targeted (path : string) (r : gmap string value) (q : Q) :
  r !! "id" = Some (VNum q) -> is_integer q = false ->
  targets (parseInt path) r = false.
Proof.
  intros Hid Hq. unfold targets, equals_number.
  destruct (parseInt path) as [z|] eqn:Hz; [|reflexivity].
  rewrite Hid. cbn [strict_equals].
  destruct (Qeq_bool q z) eqn:E; [|reflexivity].
  apply Qeq_bool_eq in E.
  rewrite (is_integer_Qeq z q) in Hq; [discriminate Hq| |].
  - symmetry. exact E.
  - apply (parseInt_integer path z Hz).
Qed.

Lemma unmatched_but_one (p : gmap string value -> bool) (c : Collection)
    (j : nat) (r : gmap string value) :
  c !! j = Some r -> p r = false ->
  index_where p (take j c ++ drop (S j) c) = None ->
  index_where p c = None.
Proof.
  intros Hr Hp Hrest. apply index_where_None. intros b Hb.
  rewrite <- (take_drop_middle c j r Hr) in Hb.
  apply elem_of_app in Hb as [Hb|Hb].
  - apply (proj1 (index_where_None _ _) Hrest). apply elem_of_app. auto.
  - apply elem_of_cons in Hb as [->|Hb]; [exact Hp|].
    apply (proj1 (index_where_None _ _) Hrest). apply elem_of_app. auto.
Qed.

(** C9, as stated, fails: when a stored record has the integer part of the
    fractional id as its own id, a Delete that gives the fractional id in
    the path is not answered with not-found: it removes that other
    record. *)
Lemma fractional_path_deletes_integer_id :
  ~ (forall (req : request) (w : world) (c : Collection)
            (r : gmap string value) (q : Q),
        stored w c -> r ∈ c -> r !! "id" = Some (VNum q) ->
        is_integer q = false -> path_gives (params_id req) q ->
        app_put_bookmarks_id req w = (not_found, w) /\
        app_delete_bookmarks_id req w = (not_found, w)).
Proof.
  intros H.
  destruct (H (call "1736933400000.5" (form "Y" "https://y.test"))
              (disk [ bookmark 1736933400000 "X" "https://x.test" EmptyString EmptyString;
                      with_new_id (rt_at 1736933400000) 0 (form "Y" "https://y.test") ])
              [ bookmark 1736933400000 "X" "https://x.test" EmptyString EmptyString;
                with_new_id (rt_at 1736933400000) 0 (form "Y" "https://y.test") ]
              (with_new_id (rt_at 1736933400000) 0 (form "Y" "https://y.test"))
              (token (rt_at 1736933400000) 0)) as [_ Hdel].
  - reflexivity.
  - apply list_elem_of_further, list_elem_of_here.
  - apply with_new_id_id.
  - vm_compute. reflexivity.
  - eexists. split; [vm_compute; reflexivity|]. vm_compute. reflexivity.
  - apply (f_equal (fun x => status (fst x))) in Hdel.
    vm_compute in Hdel. discriminate Hdel.
Qed.

(** C9, amended.  Let a stored record have a number with a fractional part
    as its id.  Whatever the path gives, its own id included, an Update
    leaves that record where it is and as it is, and a Delete leaves it in
    the Collection: the record cannot be updated or deleted.  When none of
    the other records has the id that the path parses to, a Delete, and an
    Update whose title and url are not empty, are answered with not-found
    and nothing is written. *)
Theorem fractional_id_out_of_reach (req : request) (w : world)
    (c : Collection) (j : nat) (r : gmap string value) (q : Q) :
  stored w c -> c !! j = Some r ->
  r !! "id" = Some (VNum q) -> is_integer q = false ->
  (exists c', stored (snd (app_put_bookmarks_id req w)) c' /\ c' !! j = Some r) /\
  (exists c', stored (snd (app_delete_bookmarks_id req w)) c' /\ r ∈ c') /\
  (index_where (targets (parseInt (params_id req))) (take j c ++ drop (S j) c) = None ->
   app_delete_bookmarks_id req w = (not_found, w) /\
   (truthy (field (body req) "title") = true ->
    truthy (field (body req) "url") = true ->
    app_put_bookmarks_id req w = (not_found, w))).
Proof.
  intros Hst Hr Hid Hq.
  pose proof (fractional_id_not_targeted (params_id req) r q Hid Hq) as Hmiss.
  split; [|split].
  - destruct (put_outcome req w c Hst) as [H|[H|(i & old & new & Hi & Hold & _ & H)]].
    + exists c. rewrite H. auto.
    + exists c. rewrite H. split; [apply stored_write_failed, Hst|exact Hr].
    + exists (<[i := new]> c). rewrite H. split; [apply stored_written|].
      rewrite list_lookup_insert_ne; [exact Hr|].
      intros ->. destruct (index_where_Some _ _ _ Hi) as (b & Hb & Hhit & _).
      rewrite Hr in Hb. injection Hb as <-. rewrite Hmiss in Hhit. discriminate.
  - apply list_elem_of_lookup_2 in Hr as Hin.
    destruct (delete_outcome req w c Hst) as [H|[H|H]].
    + exists c. rewrite H. auto.
    + exists c. rewrite H. split; [apply stored_write_failed, Hst|exact Hin].
    + eexists. rewrite H. split; [apply stored_written|].
      apply list_elem_of_In, List.filter_In. split; [apply list_elem_of_In, Hin|].
      rewrite Hmiss. reflexivity.
  - intros Hrest.
    pose proof (unmatched_but_one _ c j r Hr Hmiss Hrest) as Hnone.
    split; [apply (delete_unmatched req w c Hst Hnone)|].
    apply (put_unmatched req w c Hst Hnone).
Qed.

Lemma fractional_id_out_of_reach_witness :
  let imported := with_new_id (rt_at 1736933400000) 0 (form "Y" "https://y.test") in
  let req := call "1736933400000.5" (form "Y" "https://y.example") in
  let w := disk (defaultBookmarks ++ [imported]) in
  app_delete_bookmarks_id req w = (not_found, w) /\
  app_put_bookmarks_id req w = (not_found, w).
Proof.
  intros imported req w.
  pose proof (fractional_id_out_of_reach req w (defaultBookmarks ++ [imported])
                3%nat imported (token (rt_at 1736933400000) 0)) as H.
  evaluate_premises H. destruct H as (_ & _ & H).
  evaluate_premises H. destruct H as [Hdel Hput].
  split; [exact Hdel|]. apply Hput; vm_compute; reflexivity.
Defined.

End Invariant.

(** ** The visible bookmarks of the client *)

Section Visible.
Import JS Client Spec Scenario.

Lemma prefix_append (t s : string) :
  String.prefix t s = true <-> exists post, s = t +:+ post.
Proof.
  revert s. induction t as [|a t IH]; intros s; simpl.
  - split; [intros _; exists s; reflexivity|]. intros _. destruct s; reflexivity.
  - destruct s as [|b s]; simpl.
    + split; [discriminate|]. intros [post H]. discriminate H.
    + destruct (ascii_dec a b) as [->|Hab].
      * rewrite IH. split; intros [post H]; exists post.
        -- rewrite H. reflexivity.
        -- change (String b s = String b (t +:+ post)) in H.
           injection H as H. exact H.
      * split; [discriminate|]. intros [post H].
        change (String b s = String a (t +:+ post)) in H. congruence.
Qed.

Lemma includes_occurs (s t : string) :
  includes s t = true <-> exists pre post, s = pre +:+ t +:+ post.
Proof.
  split.
  - induction s as [|a s IH]; cbn [includes]; rewrite orb_true_iff.
    + intros [H|H]; [|discriminate]. apply prefix_append in H as [post H].
      exists EmptyString, post. exact H.
    + intros [H|H].
      * apply prefix_append in H as [post H]. exists EmptyString, post. exact H.
      * destruct (IH H) as (pre & post & ->). exists (String a pre), post.
        reflexivity.
  - intros (pre & post & ->). induction pre as [|a pre IH].
    + change (EmptyString +:+ t +:+ post) with (t +:+ post).
      assert (String.prefix t (t +:+ post) = true) as Hp
        by (apply prefix_append; exists post; reflexivity).
      destruct (t +:+ post); cbn [includes]; rewrite Hp; reflexivity.
    + change (String a pre +:+ t +:+ post) with (String a (pre +:+ t +:+ post)).
      cbn [includes]. apply orb_true_iff. right. exact IH.
Qed.

Lemma N_of_ascii_inj (a b : ascii) : N_of_ascii a = N_of_ascii b -> a = b.
Proof.
  intros H. rewrite <- (ascii_N_embedding a), <- (ascii_N_embedding b), H.
  reflexivity.
Qed.

(** What [lower] does to a capital letter and to any other code unit. *)
Lemma lower_cases (a : ascii) :
  (capital a /\ N_of_ascii (lower a) = (N_of_ascii a + 32)%N) \/
  (~ capital a /\ lower a = a).
Proof.
  unfold lower, capital. cbv zeta. pose proof (N_ascii_bounded a) as Hlt.
  destruct (_ || _)%bool eqn:Hc.
  - rewrite !orb_true_iff, !andb_true_iff, !N.leb_le in Hc. left.
    split; [lia|]. apply N_ascii_embedding. lia.
  - right. split; [|reflexivity]. intros H.
    apply not_true_iff_false in Hc. apply Hc.
    rewrite !orb_true_iff, !andb_true_iff, !N.leb_le. lia.
Qed.

(** [lower] identifies exactly the code units that are the same letter. *)
Lemma lower_same_letter (a b : ascii) : lower a = lower b <-> same_letter a b.
Proof.
  unfold same_letter.
  pose proof (N_ascii_bounded a) as Ha. pose proof (N_ascii_bounded b) as Hb.
  destruct (lower_cases a) as [[Ca La]|[Ca La]],
           (lower_cases b) as [[Cb Lb]|[Cb Lb]].
  - split.
    + intros H. left. apply N_of_ascii_inj. rewrite H in La. lia.
    + intros [->|[[_ H]|[_ H]]]; [reflexivity| |];
        unfold capital in Ca, Cb; cbv zeta in Ca, Cb; lia.
  - rewrite Lb. split.
    + intros <-. right. left. auto.
    + intros [->|[[_ H]|[Cb' _]]]; [contradiction| |contradiction].
      apply N_of_ascii_inj. lia.
  - rewrite La. split.
    + intros ->. right. right. auto.
    + intros [->|[[Ca' _]|[_ H]]]; [contradiction|contradiction|].
      apply N_of_ascii_inj. lia.
  - rewrite La, Lb. split; [auto|].
    intros [H|[[H _]|[H _]]]; [exact H|contradiction|contradiction].
Qed.

Lemma toLowerCase_same_text (s t : string) :
  toLowerCase s = toLowerCase t <-> same_text s t.
Proof.
  split.
  - revert t. induction s as [|a s IH]; intros [|b t] H;
      try discriminate H; [constructor|].
    cbn [toLowerCase] in H. injection H as Hab Hst.
    constructor; [apply lower_same_letter, Hab|apply IH, Hst].
  - induction 1 as [|a b s t Hab _ IH]; [reflexivity|].
    cbn [toLowerCase]. rewrite IH. f_equal. apply lower_same_letter, Hab.
Qed.

Lemma toLowerCase_app (s t : string) :
  toLowerCase (s +:+ t) = toLowerCase s +:+ toLowerCase t.
Proof.
  induction s as [|a s IH]; [reflexivity|].
  change (String a s +:+ t) with (String a (s +:+ t)).
  cbn [toLowerCase]. rewrite IH. reflexivity.
Qed.

Lemma toLowerCase_split (s x y : string) :
  toLowerCase s = x +:+ y ->
  exists s1 s2, s = s1 +:+ s2 /\ toLowerCase s1 = x /\ toLowerCase s2 = y.
Proof.
  revert s. induction x as [|a x IH]; intros s H.
  - exists EmptyString, s. auto.
  - destruct s as [|b s]; [discriminate H|].
    change (String a x +:+ y) with (String a (x +:+ y)) in H.
    cbn [toLowerCase] in H. injection H as Hb Hs.
    destruct (IH s Hs) as (s1 & s2 & -> & H1 & H2).
    exists (String b s1), s2. cbn [toLowerCase]. rewrite Hb, H1. auto.
Qed.

(** The test of the program, [toLowerCase] on both sides and then
    [includes], decides that the search term occurs, case aside. *)
Lemma includes_ci (s searchTerm : string) :
  includes (toLowerCase s) (toLowerCase searchTerm) = true <->
  ci_contains s searchTerm.
Proof.
  rewrite includes_occurs. unfold ci_contains. split.
  - intros (pre' & post' & H).
    apply toLowerCase_split in H as (pre & rest & -> & _ & H).
    apply toLowerCase_split in H as (part & post & -> & H & _).
    exists pre, part, post. split; [reflexivity|].
    apply toLowerCase_same_text, H.
  - intros (pre & part & post & -> & H%toLowerCase_same_text).
    exists (toLowerCase pre), (toLowerCase post).
    rewrite !toLowerCase_app, H. reflexivity.
Qed.

Lemma has_text_Some (b : gmap string value) (k : string) :
  has_text b k = true -> exists s, b !! k = Some (VStr s).
Proof.
  unfold has_text. destruct (b !! k) as [[| | |s| |]|]; try discriminate.
  intros _. exists s. reflexivity.
Qed.






End Visible.

(** ** Every handler, on every world *)

Section AnyWorld.
Import JS Store Server Spec Controller Behaviour.

Lemma readBookmarks_total (w : world) : exists v, readBookmarks w = Normal v.
Proof.
  unfold readBookmarks. destruct (_ ← fs_readFile w; _); eexists; reflexivity.
Qed.

Ltac refused :=
  apply outcome_refused; [auto | discriminate].

Ltac after_write :=
  rewrite writeBookmarks_eq;
  match goal with
  | |- context [writable ?w] =>
      destruct (writable w) eqn:?;
      [ apply outcome_written; auto
      | apply outcome_write_failed; [assumption | discriminate] ]
  end.

Lemma post_outcome_any (rt : runtime) (req : request) (w : world) :
  outcome w (app_post_bookmarks rt req w).
Proof.
  unfold app_post_bookmarks, try_catch.
  destruct (member (body req) "title") as [t|]; [|refused].
  destruct (member (body req) "url") as [u|]; [|refused].
  destruct (member (body req) "category") as [c|]; [|refused].
  destruct (member (body req) "description") as [d|]; [|refused].
  cbn [mbind completion_bind].
  destruct (negb (truthy t) || negb (truthy u)); [refused|].
  destruct (readBookmarks_total w) as [v ->]. cbn [mbind completion_bind].
  destruct v; cbn [as_array mbind completion_bind]; try refused.
  after_write.
Qed.

Lemma put_outcome_any (req : request) (w : world) :
  outcome w (app_put_bookmarks_id req w).
Proof.
  unfold app_put_bookmarks_id, try_catch.
  destruct (member (body req) "title") as [t|]; [|refused].
  destruct (member (body req) "url") as [u|]; [|refused].
  destruct (member (body req) "category") as [c|]; [|refused].
  destruct (member (body req) "description") as [d|]; [|refused].
  cbn [mbind completion_bind].
  destruct (negb (truthy t) || negb (truthy u)); [refused|].
  destruct (readBookmarks_total w) as [v ->]. cbn [mbind completion_bind].
  destruct v; cbn [as_array mbind completion_bind]; try refused.
  destruct (Array_findIndex _ l) as [[i|]|]; cbn [mbind completion_bind];
    try refused.
  after_write.
Qed.

Lemma delete_outcome_any (req : request) (w : world) :
  outcome w (app_delete_bookmarks_id req w).
Proof.
  unfold app_delete_bookmarks_id, try_catch.
  destruct (readBookmarks_total w) as [v ->]. cbn [mbind completion_bind].
  destruct v; cbn [as_array mbind completion_bind]; try refused.
  destruct (Array_filter _ l) as [kept|]; cbn [mbind completion_bind];
    try refused.
  destruct (Nat.eqb _ _); [refused|]. after_write.
Qed.

Lemma clear_outcome_any (w : world) : outcome w (app_delete_bookmarks w).
Proof. unfold app_delete_bookmarks. after_write. Qed.

Lemma import_outcome_any (rt : runtime) (req : request) (w : world) :
  outcome w (app_post_bookmarks_import rt req w).
Proof.
  unfold app_post_bookmarks_import, try_catch.
  destruct (member (body req) "bookmarks") as [x|]; [|refused].
  cbn [mbind completion_bind].
  destruct (negb (isArray x)); [refused|].
  destruct (readBookmarks_total w) as [v ->]. cbn [mbind completion_bind].
  destruct v; cbn [iterate mbind completion_bind]; try refused; after_write.
Qed.

Lemma run_outcome (rt : runtime) (op : operation) (w : world) :
  outcome w (run rt op w).
Proof.
  destruct op; cbn [run];
    auto using post_outcome_any, put_outcome_any, delete_outcome_any,
      clear_outcome_any, import_outcome_any.
Qed.

(** X1.  Whatever the request and whatever the file holds (nothing, text
    that does not parse, JSON that is no array), an operation answers 2xx
    only after its one write succeeded, and then the file holds what it
    wrote; after any other answer (400, 404 or 500) the file is as it was,
    and after 400 and 404 [fs.writeFile] was not even called.  No operation
    writes twice. *)
Theorem answer_tells_the_write (rt : runtime) (op : operation) (w : world) :
  let r := fst (run rt op w) in
  let w' := snd (run rt op w) in
  (ok r = true ->
   writable w = true /\ exists v, w' = written v w) /\
  (ok r = false ->
   BOOKMARKS_FILE w' = BOOKMARKS_FILE w /\
   (status r = 400%nat \/ status r = 404%nat \/ status r = 500%nat)) /\
  (status r = 400%nat \/ status r = 404%nat -> w' = w) /\
  (writes w' <= S (writes w))%nat.
Proof.
  cbv zeta.
  destruct (run_outcome rt op w) as [code p v Hc Hw|code msg Hc _|msg Hw _];
    cbn [fst snd res status];
    (split; [intros Hok | split; [intros Hok | split; [intros Hs|]]]).
  - split; [exact Hw|]. exists v. reflexivity.
  - destruct Hc as [-> | ->]; discriminate Hok.
  - destruct Hc as [-> | ->], Hs as [Hs | Hs]; discriminate Hs.
  - cbn [written writes]. lia.
  - destruct Hc as [-> | [-> | ->]]; discriminate Hok.
  - split; [reflexivity|exact Hc].
  - reflexivity.
  - lia.
  - discriminate Hok.
  - split; [reflexivity|]. right; right; reflexivity.
  - destruct Hs as [Hs | Hs]; discriminate Hs.
  - cbn [write_failed writes]. lia.
Qed.

Lemma answer_tells_the_write_witness :
  BOOKMARKS_FILE (snd (run (Scenario.rt_at 1736933400000)
                         (Delete (Scenario.call "99" VNull))
                         (Scenario.disk Scenario.defaultBookmarks)))
  = BOOKMARKS_FILE (Scenario.disk Scenario.defaultBookmarks).
Proof.
  destruct (answer_tells_the_write (Scenario.rt_at 1736933400000)
              (Delete (Scenario.call "99" VNull))
              (Scenario.disk Scenario.defaultBookmarks)) as (_ & H & _).
  destruct H as [H _]; [vm_compute; reflexivity|exact H].
Defined.

(** X2.  An answer that is not 2xx always has a body [{ error: msg }] with
    a text that is not empty, so [apiCall] throws an [Error] with the text
    of the server and never has to fall back on [HTTP <status>].  A 2xx
    answer makes [apiCall] return its body. *)
Theorem apiCall_shows_server_message (rt : runtime) (op : operation) (w : world) :
  let r := fst (run rt op w) in
  (ok r = false ->
   exists msg, msg <> EmptyString /\ json r = error msg /\
               apiCall (Responded r) = inl (Error (VStr msg))) /\
  (ok r = true -> apiCall (Responded r) = inr (json r)).
Proof.
  cbv zeta. split.
  - destruct (run_outcome rt op w) as [code p v Hc Hw|code msg Hc Hm|msg Hw Hm];
      cbn [fst].
    + destruct Hc as [-> | ->]; discriminate.
    + intros Hok. exists msg. split; [exact Hm|]. split; [reflexivity|].
      unfold apiCall. rewrite Hok. cbn [negb json res member error].
      rewrite lookup_singleton_eq. unfold or_else, truthy.
      destruct (String.eqb_spec msg EmptyString); [contradiction|reflexivity].
    + intros Hok. exists msg. split; [exact Hm|]. split; [reflexivity|].
      unfold apiCall. rewrite Hok. cbn [negb json res member error].
      rewrite lookup_singleton_eq. unfold or_else, truthy.
      destruct (String.eqb_spec msg EmptyString); [contradiction|reflexivity].
  - intros Hok. unfold apiCall. rewrite Hok. reflexivity.
Qed.

Lemma apiCall_shows_server_message_witness :
  exists msg,
    apiCall (Responded (fst (run (Scenario.rt_at 1736933400000)
                               (Update (Scenario.call "99" (Scenario.form "X" "https://x.test")))
                               (Scenario.disk Scenario.defaultBookmarks))))
    = inl (Error (VStr msg)).
Proof.
  destruct (apiCall_shows_server_message (Scenario.rt_at 1736933400000)
              (Update (Scenario.call "99" (Scenario.form "X" "https://x.test")))
              (Scenario.disk Scenario.defaultBookmarks)) as [H _].
  destruct H as (msg & _ & _ & Hcall); [vm_compute; reflexivity|].
  exists msg. exact Hcall.
Defined.

End AnyWorld.

(** ** Delete, Clear-all and the start of the server *)

Section DeleteClear.
Import JS Store Server Spec Controller Behaviour Startup.

Lemma kept_elem_of (n : option Q) (c : Collection) (b : gmap string value) :
  b ∈ kept n c <-> b ∈ c /\ targets n b = false.
Proof.
  unfold kept. rewrite !list_elem_of_In, List.filter_In, negb_true_iff.
  reflexivity.
Qed.

Lemma kept_sublist (n : option Q) (c : Collection) : sublist (kept n c) c.
Proof.
  unfold kept. induction c as [|b c IH]; simpl; [constructor|].
  destruct (negb (targets n b)); [apply sublist_skip|apply sublist_cons]; exact IH.
Qed.

Lemma kept_shorter (n : option Q) (c : Collection) (i : nat) :
  index_where (targets n) c = Some i ->
  (List.length (kept n c) < List.length c)%nat.
Proof.
  intros Hi. destruct (index_where_Some _ _ _ Hi) as (b & Hb & Hhit & _).
  pose proof (List.filter_length_le (fun b => negb (targets n b)) c) as Hle.
  fold (kept n c) in Hle.
  destruct (Nat.eq_dec (List.length (kept n c)) (List.length c)) as [Heq|]; [|lia].
  pose proof (proj1 (filter_all_length (fun b => negb (targets n b)) c) Heq
                b (list_elem_of_lookup_2 _ _ _ Hb)) as Hall.
  cbv beta in Hall. rewrite Hhit in Hall. discriminate Hall.
Qed.

Lemma kept_all (n : option Q) (c : Collection) :
  index_where (targets n) c = None -> kept n c = c.
Proof.
  intros Hnone. unfold kept. induction c as [|b c IH]; [reflexivity|].
  simpl in *. destruct (targets n b); [discriminate|].
  destruct (index_where (targets n) c); [discriminate|].
  simpl. rewrite IH; reflexivity.
Qed.

Lemma kept_app (n : option Q) (c d : Collection) :
  kept n (c ++ d) = kept n c ++ kept n d.
Proof. apply List.filter_app. Qed.

(** X3.  A Delete whose path parses to the id of a stored record, with a
    file that can be written, answers 200 and removes every record with
    that id, not only the first: a record is in the Collection afterwards
    exactly when it was before and has another id; the records that stay
    keep their order; the Collection is strictly shorter. *)
Theorem delete_removes_every_match (req : request) (w : world)
    (c : Collection) (i : nat) :
  stored w c -> writable w = true ->
  index_where (targets (parseInt (params_id req))) c = Some i ->
  let after := kept (parseInt (params_id req)) c in
  app_delete_bookmarks_id req w
  = (res 200 (message "Bookmark deleted successfully"),
     written (VArr (VObj <$> after)) w) /\
  stored (snd (app_delete_bookmarks_id req w)) after /\
  (forall b, b ∈ after <-> b ∈ c /\ targets (parseInt (params_id req)) b = false) /\
  sublist after c /\
  (List.length after < List.length c)%nat.
Proof.
  intros Hst Hw Hi after.
  pose proof (kept_shorter _ _ _ Hi) as Hlt. fold after in Hlt.
  assert (app_delete_bookmarks_id req w
          = (res 200 (message "Bookmark deleted successfully"),
             written (VArr (VObj <$> after)) w)) as Hrun.
  { rewrite (delete_bookmarks_id_eq req w c Hst). cbv zeta.
    fold (kept (parseInt (params_id req)) c). fold after.
    destruct (Nat.eqb_spec (List.length after) (List.length c)); [lia|].
    rewrite Hw. reflexivity. }
  split; [exact Hrun|]. rewrite Hrun. split; [apply stored_written|].
  split; [apply kept_elem_of|]. split; [apply kept_sublist|exact Hlt].
Qed.

Lemma delete_removes_every_match_witness :
  stored (snd (app_delete_bookmarks_id (Scenario.call "2" VNull)
                 (Scenario.disk Scenario.defaultBookmarks)))
    (kept (parseInt "2") Scenario.defaultBookmarks) /\
  List.length (kept (parseInt "2") Scenario.defaultBookmarks) = 2%nat.
Proof.
  pose proof (delete_removes_every_match (Scenario.call "2" VNull)
                (Scenario.disk Scenario.defaultBookmarks)
                Scenario.defaultBookmarks 1%nat) as H.
  evaluate_premises H. destruct H as (_ & Hst & _).
  split; [exact Hst|]. vm_compute. reflexivity.
Defined.

(** X4.  A Create followed by a Delete whose path parses to the id of the
    created record leaves the Collection that the Create found, provided
    that no record had that id before. *)
Theorem delete_undoes_create (rt : runtime) (req del : request) (w : world)
    (c : Collection) :
  stored w c -> writable w = true ->
  truthy (field (body req) "title") = true ->
  truthy (field (body req) "url") = true ->
  equals_number (Some (VNum (inject_Z (Date_now rt 0))))
    (parseInt (params_id del)) = true ->
  index_where (targets (parseInt (params_id del))) c = None ->
  let w1 := snd (app_post_bookmarks rt req w) in
  status (fst (app_post_bookmarks rt req w)) = 201%nat /\
  status (fst (app_delete_bookmarks_id del w1)) = 200%nat /\
  stored (snd (app_delete_bookmarks_id del w1)) c.
Proof.
  intros Hst Hw Ht Hu Hpath Hnone w1.
  destruct (truthy_field_obj _ _ Ht) as [m Hbody].
  rewrite Hbody in Ht, Hu. cbn [field] in Ht, Hu.
  pose proof (post_bookmarks_eq rt req w c m Hst Hbody) as Hpost.
  rewrite Ht, Hu, Hw in Hpost. cbn [negb orb] in Hpost. cbv zeta in Hpost.
  subst w1. rewrite Hpost. cbn [fst snd res status].
  split; [reflexivity|].
  set (b := newBookmark rt (m !! "title") (m !! "url") (m !! "category")
              (m !! "description")) in *.
  assert (targets (parseInt (params_id del)) b = true) as Hb.
  { unfold targets, b. rewrite newBookmark_id. exact Hpath. }
  assert (kept (parseInt (params_id del)) (c ++ [b]) = c) as Hkept.
  { rewrite kept_app, (kept_all _ _ Hnone). unfold kept. simpl. rewrite Hb.
    apply app_nil_r. }
  rewrite (delete_bookmarks_id_eq del _ (c ++ [b]) (stored_written _ _)).
  cbv zeta. fold (kept (parseInt (params_id del)) (c ++ [b])). rewrite Hkept.
  rewrite length_app. cbn [List.length].
  destruct (Nat.eqb_spec (List.length c) (List.length c + 1)); [lia|].
  cbn [written writable]. rewrite Hw. split; [reflexivity|]. apply stored_written.
Qed.

Lemma delete_undoes_create_witness :
  stored (snd (app_delete_bookmarks_id (Scenario.call "1736933400000" VNull)
                 (snd (app_post_bookmarks (Scenario.rt_at 1736933400000)
                         (Scenario.submit (Scenario.form "X" "https://x.test"))
                         (Scenario.disk Scenario.defaultBookmarks)))))
    Scenario.defaultBookmarks.
Proof.
  pose proof (delete_undoes_create (Scenario.rt_at 1736933400000)
                (Scenario.submit (Scenario.form "X" "https://x.test"))
                (Scenario.call "1736933400000" VNull)
                (Scenario.disk Scenario.defaultBookmarks)
                Scenario.defaultBookmarks) as H.
  evaluate_premises H. destruct H as (_ & _ & H). exact H.
Defined.

(** X5.  Clear-all does not read the file: with a file that can be
    written it answers 200 whatever the file held (nothing, text that does
    not parse, JSON that is no array), and the List that follows answers
    with the empty array. *)
Theorem clear_all_from_any_file (w : world) :
  writable w = true ->
  let w' := snd (app_delete_bookmarks w) in
  fst (app_delete_bookmarks w)
  = res 200 (message "All bookmarks cleared successfully") /\
  stored w' [] /\
  app_get_bookmarks w' = (res 200 (VArr []), w').
Proof.
  intros Hw w'. subst w'. rewrite delete_bookmarks_eq, Hw. cbn [fst snd].
  split; [reflexivity|]. split; [apply stored_written|].
  apply get_bookmarks_eq. reflexivity.
Qed.

Lemma clear_all_from_any_file_witness :
  stored (snd (app_delete_bookmarks
                 {| BOOKMARKS_FILE := Some Unparseable; writable := true;
                    writes := 0 |})) [].
Proof.
  pose proof (clear_all_from_any_file
                {| BOOKMARKS_FILE := Some Unparseable; writable := true;
                   writes := 0 |}) as H.
  evaluate_premises H. destruct H as (_ & H & _). exact H.
Defined.

End DeleteClear.

(** ** A file that holds no array, and the start of the server *)

Section StartupFacts.
Import JS Store Server Spec Controller Behaviour Startup.

(** X6.  When the file holds JSON that parses but is no array, List serves
    that value as it is, and every Create and Update with a title and a
    url, and every Delete, is answered with 500 without a write: the
    array methods throw and the [catch] answers. *)
Theorem file_that_holds_no_array (rt : runtime) (req : request) (w : world)
    (v : value) :
  BOOKMARKS_FILE w = Some (Serialized v) -> isArray (Some v) = false ->
  app_get_bookmarks w = (res 200 v, w) /\
  app_delete_bookmarks_id req w = (res 500 (error "Failed to delete bookmark"), w) /\
  (truthy (field (body req) "title") = true ->
   truthy (field (body req) "url") = true ->
   app_post_bookmarks rt req w = (res 500 (error "Failed to add bookmark"), w) /\
   app_put_bookmarks_id req w = (res 500 (error "Failed to update bookmark"), w)).
Proof.
  intros Hfile Harr.
  assert (readBookmarks w = Normal v) as Hread.
  { unfold readBookmarks, fs_readFile. rewrite Hfile. reflexivity. }
  split; [apply get_bookmarks_eq, Hread|]. split.
  - unfold app_delete_bookmarks_id, try_catch. rewrite Hread.
    destruct v; try discriminate Harr; reflexivity.
  - intros Ht Hu. destruct (truthy_field_obj _ _ Ht) as [m Hbody].
    rewrite Hbody in Ht, Hu. cbn [field] in Ht, Hu.
    unfold app_post_bookmarks, app_put_bookmarks_id, try_catch.
    rewrite Hbody. cbn [member mbind completion_bind].
    rewrite Ht, Hu, Hread. cbn [negb orb mbind completion_bind].
    destruct v; try discriminate Harr; split; reflexivity.
Qed.

Lemma file_that_holds_no_array_witness :
  app_delete_bookmarks_id (Scenario.call "1" VNull)
    {| BOOKMARKS_FILE := Some (Serialized (VObj ∅)); writable := true; writes := 0 |}
  = (res 500 (error "Failed to delete bookmark"),
     {| BOOKMARKS_FILE := Some (Serialized (VObj ∅)); writable := true; writes := 0 |}).
Proof.
  pose proof (file_that_holds_no_array (Scenario.rt_at 1736933400000)
                (Scenario.call "1" VNull)
                {| BOOKMARKS_FILE := Some (Serialized (VObj ∅)); writable := true;
                   writes := 0 |} (VObj ∅)) as H.
  evaluate_premises H. destruct H as (_ & H & _). exact H.
Defined.

(** X7.  When there is no bookmarks file and one can be written,
    [initializeBookmarksFile] writes the three default bookmarks, with the
    ids 1, 2 and 3, no two of them the same; the server then listens, and
    List serves these three records. *)
Theorem initialize_writes_the_defaults (iso : nat -> string) (w : world) :
  BOOKMARKS_FILE w = None -> writable w = true ->
  let w' := snd (initializeBookmarksFile iso w) in
  fst (initializeBookmarksFile iso w) = Normal tt /\
  startServer iso w = (true, w') /\
  stored w' (defaultBookmarks iso) /\
  ids (defaultBookmarks iso)
  = [Some (VNum (inject_Z 1)); Some (VNum (inject_Z 2)); Some (VNum (inject_Z 3))] /\
  unique_ids (defaultBookmarks iso) = true /\
  app_get_bookmarks w' = (res 200 (VArr (VObj <$> defaultBookmarks iso)), w').
Proof.
  intros Hfile Hw w'. subst w'.
  unfold startServer, initializeBookmarksFile, fs_access, fs_writeFile.
  rewrite Hfile, Hw. cbn [fst snd].
  split; [reflexivity|]. split; [reflexivity|]. split; [reflexivity|].
  split; [reflexivity|]. split; [reflexivity|].
  apply get_bookmarks_eq. reflexivity.
Qed.

Lemma initialize_writes_the_defaults_witness :
  stored (snd (initializeBookmarksFile (fun _ => "2025-01-15T09:30:00.000Z")
                 Scenario.no_file))
    Scenario.defaultBookmarks.
Proof.
  pose proof (initialize_writes_the_defaults
                (fun _ => "2025-01-15T09:30:00.000Z") Scenario.no_file) as H.
  evaluate_premises H. destruct H as (_ & _ & H & _).
  assert (defaultBookmarks (fun _ => "2025-01-15T09:30:00.000Z")
          = Scenario.defaultBookmarks) as <- by (vm_compute; reflexivity).
  exact H.
Defined.

(** X8.  [initializeBookmarksFile] leaves a file that exists alone, also
    one whose text does not parse: it completes without a write.  So a
    second initialization changes nothing, and when the server listens
    there is a bookmarks file.  When there is no file and none can be
    written, the initialization throws, the server does not listen and
    there is still no file. *)
Theorem initialize_keeps_an_existing_file (iso iso' : nat -> string) (w : world) :
  (forall t, BOOKMARKS_FILE w = Some t ->
             initializeBookmarksFile iso w = (Normal tt, w)) /\
  (fst (initializeBookmarksFile iso w) = Normal tt ->
   initializeBookmarksFile iso' (snd (initializeBookmarksFile iso w))
   = (Normal tt, snd (initializeBookmarksFile iso w))) /\
  (fst (startServer iso w) = true ->
   BOOKMARKS_FILE (snd (startServer iso w)) <> None) /\
  (BOOKMARKS_FILE w = None -> writable w = false ->
   fst (startServer iso w) = false /\
   BOOKMARKS_FILE (snd (startServer iso w)) = None).
Proof.
  unfold startServer, initializeBookmarksFile, fs_access, fs_writeFile.
  repeat split.
  - intros t ->. reflexivity.
  - destruct (BOOKMARKS_FILE w) eqn:Hfile; cbn [fst snd].
    + intros _. rewrite Hfile. reflexivity.
    + destruct (writable w); [reflexivity|discriminate].
  - destruct (BOOKMARKS_FILE w) eqn:Hfile; cbn [fst snd].
    + intros _. rewrite Hfile. discriminate.
    + destruct (writable w); cbn [fst snd BOOKMARKS_FILE]; discriminate.
  - match goal with Hf : BOOKMARKS_FILE w = None, Hw : writable w = false |- _ =>
      rewrite Hf, Hw end. reflexivity.
  - match goal with Hf : BOOKMARKS_FILE w = None, Hw : writable w = false |- _ =>
      rewrite Hf, Hw end. reflexivity.
Qed.

Lemma initialize_keeps_an_existing_file_witness :
  initializeBookmarksFile (fun _ => "2025-01-15T09:30:00.000Z")
    {| BOOKMARKS_FILE := Some Unparseable; writable := true; writes := 0 |}
  = (Normal tt,
     {| BOOKMARKS_FILE := Some Unparseable; writable := true; writes := 0 |}).
Proof.
  destruct (initialize_keeps_an_existing_file
              (fun _ => "2025-01-15T09:30:00.000Z")
              (fun _ => "2025-01-15T09:30:00.000Z")
              {| BOOKMARKS_FILE := Some Unparseable; writable := true; writes := 0 |})
    as [H _].
  apply (H Unparseable). reflexivity.
Defined.

End StartupFacts.

(** ** More on Create and Update *)

Section UpdateFacts.
Import JS Store Server Spec Controller Behaviour.

Lemma lookup_set_prop (k j : string) (x : jsval) (m : gmap string value) :
  set_prop k x m !! j = if decide (k = j) then x else m !! j.
Proof.
  unfold set_prop. destruct x; [apply lookup_insert|apply lookup_delete].
Qed.

Lemma updatedBookmark_lookup (old : gmap string value)
    (t u c d : jsval) (k : string) :
  updatedBookmark (Some (VObj old)) t u c d !! k =
  if decide ("description" = k) then Some (or_else d (VStr EmptyString))
  else if decide ("category" = k) then Some (or_else c (VStr EmptyString))
  else if decide ("url" = k) then u
  else if decide ("title" = k) then t
  else old !! k.
Proof. unfold updatedBookmark, spread. rewrite !lookup_set_prop. reflexivity. Qed.

Lemma updatedBookmark_again (old : gmap string value) (t u c d : jsval) :
  updatedBookmark (Some (VObj (updatedBookmark (Some (VObj old)) t u c d))) t u c d
  = updatedBookmark (Some (VObj old)) t u c d.
Proof.
  apply map_eq. intros k. rewrite !updatedBookmark_lookup.
  repeat case_decide; reflexivity.
Qed.

Lemma index_where_insert (p : gmap string value -> bool) (c : Collection)
    (i : nat) (new : gmap string value) :
  index_where p c = Some i -> p new = true ->
  index_where p (<[i := new]> c) = Some i.
Proof.
  revert i. induction c as [|a c IH]; intros i Hi Hnew; [discriminate|].
  simpl in Hi. destruct (p a) eqn:Hp.
  - injection Hi as <-. simpl. rewrite Hnew. reflexivity.
  - destruct (index_where p c) as [j|] eqn:Hj; [|discriminate].
    injection Hi as <-. simpl. rewrite Hp, (IH j eq_refl Hnew). reflexivity.
Qed.

(** X9.  An Update repeated with the same request has the answer of the
    first and writes the document that the first wrote: the second call
    finds the same record and stores the same values. *)
Theorem update_twice_is_update_once (req : request) (w : world)
    (c : Collection) (i : nat) :
  stored w c -> writable w = true ->
  truthy (field (body req) "title") = true ->
  truthy (field (body req) "url") = true ->
  index_where (targets (parseInt (params_id req))) c = Some i ->
  let w1 := snd (app_put_bookmarks_id req w) in
  status (fst (app_put_bookmarks_id req w)) = 200%nat /\
  fst (app_put_bookmarks_id req w1) = fst (app_put_bookmarks_id req w) /\
  BOOKMARKS_FILE (snd (app_put_bookmarks_id req w1)) = BOOKMARKS_FILE w1.
Proof.
  intros Hst Hw Ht Hu Hi w1.
  destruct (truthy_field_obj _ _ Ht) as [m Hbody].
  rewrite Hbody in Ht, Hu. cbn [field] in Ht, Hu.
  destruct (index_where_Some _ _ _ Hi) as (old & Hold & Hhit & _).
  pose proof (put_bookmarks_id_eq req w c m Hst Hbody) as Hput.
  rewrite Ht, Hu, Hi, Hw, Hold in Hput.
  cbn [negb orb fmap option_fmap option_map] in Hput. cbv zeta in Hput.
  set (b := updatedBookmark (Some (VObj old)) (m !! "title") (m !! "url")
              (m !! "category") (m !! "description")) in *.
  subst w1. rewrite Hput. cbn [fst snd res status].
  split; [reflexivity|].
  assert (index_where (targets (parseInt (params_id req))) (<[i := b]> c) = Some i)
    as Hi'.
  { apply index_where_insert; [exact Hi|].
    unfold targets, b. rewrite updatedBookmark_id. exact Hhit. }
  pose proof (put_bookmarks_id_eq req (written (VArr (VObj <$> <[i := b]> c)) w)
                (<[i := b]> c) m (stored_written _ _) Hbody) as Hput'.
  rewrite Ht, Hu, Hi' in Hput'. cbn [negb orb written writable] in Hput'.
  rewrite Hw in Hput'.
  rewrite list_lookup_insert_eq in Hput'
    by (apply lookup_lt_Some in Hold; exact Hold).
  cbn [fmap option_fmap option_map] in Hput'. cbv zeta in Hput'.
  assert (updatedBookmark (Some (VObj b)) (m !! "title") (m !! "url")
            (m !! "category") (m !! "description") = b) as Hagain
    by apply updatedBookmark_again.
  rewrite !Hagain, list_insert_insert_eq in Hput'.
  rewrite Hput'. split; reflexivity.
Qed.

Lemma update_twice_is_update_once_witness :
  fst (app_put_bookmarks_id (Scenario.call "2" (Scenario.form "MDN" "https://mdn.io"))
         (snd (app_put_bookmarks_id
                 (Scenario.call "2" (Scenario.form "MDN" "https://mdn.io"))
                 (Scenario.disk Scenario.defaultBookmarks))))
  = fst (app_put_bookmarks_id (Scenario.call "2" (Scenario.form "MDN" "https://mdn.io"))
           (Scenario.disk Scenario.defaultBookmarks)).
Proof.
  pose proof (update_twice_is_update_once
                (Scenario.call "2" (Scenario.form "MDN" "https://mdn.io"))
                (Scenario.disk Scenario.defaultBookmarks)
                Scenario.defaultBookmarks 1%nat) as H.
  evaluate_premises H. destruct H as (_ & H & _). exact H.
Defined.

Lemma newBookmark_lookup (rt : runtime) (t u c d : jsval) (k : string) :
  newBookmark rt t u c d !! k =
  if decide ("dateAdded" = k) then Some (VStr (split_T_0 (Date_toISOString rt)))
  else if decide ("description" = k) then Some (or_else d (VStr EmptyString))
  else if decide ("category" = k) then Some (or_else c (VStr EmptyString))
  else if decide ("url" = k) then u
  else if decide ("title" = k) then t
  else if decide ("id" = k) then Some (VNum (inject_Z (Date_now rt 0)))
  else None.
Proof.
  unfold newBookmark. rewrite !lookup_set_prop, lookup_empty. reflexivity.
Qed.

(** X10.  The body of a request reaches four properties and no others.
    The record that a Create stores has the properties id, title, url,
    category, description and dateAdded and nothing else, whatever else
    the body holds; an Update leaves every property of the record other
    than title, url, category and description as it was, an id or a
    dateAdded in the body included. *)
Theorem body_reaches_four_properties (rt : runtime) (req : request) (w : world)
    (c : Collection) :
  stored w c -> writable w = true ->
  truthy (field (body req) "title") = true ->
  truthy (field (body req) "url") = true ->
  (exists b,
     fst (app_post_bookmarks rt req w) = res 201 (VObj b) /\
     forall k, is_Some (b !! k) <->
               k ∈ ["id"; "title"; "url"; "category"; "description"; "dateAdded"]) /\
  (forall i old,
     index_where (targets (parseInt (params_id req))) c = Some i ->
     c !! i = Some old ->
     exists new,
       fst (app_put_bookmarks_id req w) = res 200 (VObj new) /\
       forall k, k ∉ ["title"; "url"; "category"; "description"] ->
                 new !! k = old !! k).
Proof.
  intros Hst Hw Ht Hu.
  destruct (truthy_field_obj _ _ Ht) as [m Hbody].
  rewrite Hbody in Ht, Hu. cbn [field] in Ht, Hu. split.
  - rewrite (post_bookmarks_eq rt req w c m Hst Hbody), Ht, Hu, Hw.
    cbn [negb orb fst]. eexists. split; [reflexivity|].
    intros k. rewrite newBookmark_lookup.
    destruct (truthy_Some _ Ht) as [t Et], (truthy_Some _ Hu) as [u Eu].
    rewrite Et, Eu, !elem_of_cons, elem_of_nil.
    repeat case_decide; subst;
      (split; [intros Hsome | intros Hone]); eauto 10;
      try (destruct Hsome as [x Hx]; discriminate Hx);
      repeat (destruct Hone as [Hone|Hone]; [congruence|]); contradiction.
  - intros i old Hi Hold.
    rewrite (put_bookmarks_id_eq req w c m Hst Hbody), Ht, Hu, Hi, Hw, Hold.
    cbn [negb orb fst fmap option_fmap option_map]. eexists.
    split; [reflexivity|]. intros k Hk. rewrite updatedBookmark_lookup.
    rewrite !elem_of_cons, elem_of_nil in Hk.
    repeat case_decide; subst; try reflexivity; exfalso; apply Hk; auto.
Qed.

Lemma body_reaches_four_properties_witness :
  exists b,
    fst (app_post_bookmarks (Scenario.rt_at 1736933400000)
           (Scenario.submit (VObj {[ "title" := VStr "X"; "url" := VStr "https://x.test";
                                     "id" := VNum (inject_Z 7);
                                     "owner" := VStr "me" ]}))
           Scenario.no_file) = res 201 (VObj b) /\
    b !! "owner" = None /\ b !! "id" = Some (VNum (inject_Z 1736933400000)).
Proof.
  pose proof (body_reaches_four_properties (Scenario.rt_at 1736933400000)
                (Scenario.submit (VObj {[ "title" := VStr "X"; "url" := VStr "https://x.test";
                                          "id" := VNum (inject_Z 7);
                                          "owner" := VStr "me" ]}))
                Scenario.no_file []) as H.
  evaluate_premises H. destruct H as [(b & Hb & Hkeys) _].
  exists b. split; [exact Hb|].
  assert (fst (app_post_bookmarks (Scenario.rt_at 1736933400000)
                 (Scenario.submit (VObj {[ "title" := VStr "X"; "url" := VStr "https://x.test";
                                           "id" := VNum (inject_Z 7);
                                           "owner" := VStr "me" ]}))
                 Scenario.no_file)
          = res 201 (VObj (newBookmark (Scenario.rt_at 1736933400000)
                             (Some (VStr "X")) (Some (VStr "https://x.test")) None None)))
    as Hrun by (vm_compute; reflexivity).
  rewrite Hrun in Hb. injection Hb as <-. split; vm_compute; reflexivity.
Defined.

(** X11.  Editing a stored bookmark and saving the form as [handleEdit]
    filled it changes nothing, when the request reaches that bookmark and
    the file can be written.  Let the record be the first of the
    Collection whose id is the number that the path of the request parses
    to (a record with a fractional id, as Import assigns them, is never
    that), with a title and a url that are not empty and with text for
    category and description.  Then the form is sent, the Update answers
    200 with the record as it was, and the Collection is the same. *)
Theorem saving_an_unchanged_form (path : string) (w : world) (c : Collection)
    (i : nat) (b : gmap string value) :
  stored w c -> writable w = true ->
  index_where (targets (parseInt path)) c = Some i -> c !! i = Some b ->
  truthy (b !! "title") = true -> truthy (b !! "url") = true ->
  has_text b "category" = true -> has_text b "description" = true ->
  exists fd,
    handleEdit (VObj b) = Normal fd /\ sends fd = true /\
    let req := {| params_id := path; body := body_of fd |} in
    fst (app_put_bookmarks_id req w) = res 200 (VObj b) /\
    stored (snd (app_put_bookmarks_id req w)) c.
Proof.
  intros Hst Hw Hi Hb Ht Hu Hc Hd.
  eexists. split; [reflexivity|]. unfold sends. cbn [title url].
  rewrite Ht, Hu. split; [reflexivity|]. cbv zeta.
  unfold body_of. cbn [title url category description].
  set (m := set_prop "description" (b !! "description") (
            set_prop "category" (b !! "category") (
            set_prop "url" (b !! "url") (
            set_prop "title" (b !! "title") ∅)))).
  assert (forall k, k ∈ ["title"; "url"; "category"; "description"] ->
                    m !! k = b !! k) as Hm.
  { intros k Hk. unfold m. rewrite !lookup_set_prop.
    rewrite !elem_of_cons, elem_of_nil in Hk.
    repeat case_decide; subst; try reflexivity.
    repeat (destruct Hk as [Hk|Hk]; [congruence|]). contradiction. }
  assert (m !! "title" = b !! "title") as Mt by (apply Hm; set_solver).
  assert (m !! "url" = b !! "url") as Mu by (apply Hm; set_solver).
  assert (m !! "category" = b !! "category") as Mc by (apply Hm; set_solver).
  assert (m !! "description" = b !! "description") as Md by (apply Hm; set_solver).
  rewrite (put_bookmarks_id_eq {| params_id := path; body := VObj m |} w c m
             Hst eq_refl).
  cbn [params_id]. rewrite Mt, Mu, Mc, Md, Ht, Hu, Hi, Hw, Hb.
  cbn [negb orb fmap option_fmap option_map fst snd].
  assert (updatedBookmark (Some (VObj b)) (b !! "title") (b !! "url")
            (b !! "category") (b !! "description") = b) as Hsame.
  { apply map_eq. intros k. rewrite updatedBookmark_lookup.
    destruct (has_text_Some _ _ Hc) as [sc Ec], (has_text_Some _ _ Hd) as [sd Ed].
    repeat case_decide; subst; try reflexivity.
    - rewrite Ed. unfold or_else, truthy.
      destruct (String.eqb_spec sd EmptyString) as [->|]; reflexivity.
    - rewrite Ec. unfold or_else, truthy.
      destruct (String.eqb_spec sc EmptyString) as [->|]; reflexivity. }
  rewrite Hsame, (list_insert_id c i b Hb). split; [reflexivity|].
  apply stored_written.
Qed.

Lemma saving_an_unchanged_form_witness :
  exists fd,
    handleEdit (VObj (Scenario.bookmark 3 "GitHub" "https://github.com" "Tools"
                        "Code hosting and collaboration platform")) = Normal fd /\
    stored (snd (app_put_bookmarks_id {| params_id := "3"; body := body_of fd |}
                   (Scenario.disk Scenario.defaultBookmarks)))
      Scenario.defaultBookmarks.
Proof.
  pose proof (saving_an_unchanged_form "3" (Scenario.disk Scenario.defaultBookmarks)
                Scenario.defaultBookmarks 2%nat
                (Scenario.bookmark 3 "GitHub" "https://github.com" "Tools"
                   "Code hosting and collaboration platform")) as H.
  evaluate_premises H. destruct H as (fd & Hfd & _ & _ & Hst).
  exists fd. split; [exact Hfd|exact Hst].
Defined.

Lemma member_body_of (fd : formData) :
  member (body_of fd) "title" = Normal (title fd) /\
  member (body_of fd) "url" = Normal (url fd) /\
  member (body_of fd) "category" = Normal (category fd) /\
  member (body_of fd) "description" = Normal (description fd).
Proof.
  unfold body_of, member. rewrite !lookup_set_prop, lookup_empty.
  repeat case_decide; try congruence.
  destruct (title fd), (url fd), (category fd), (description fd); auto.
Qed.

(** X12.  What the guards of the client let through, the server does not
    refuse as invalid: a form that [handleSubmit] sends is not answered
    with 400 by Create or by Update, and a file that [importBookmarks]
    sends is not answered with 400 by Import, on any world.  A form
    without a title or a url, and a file that holds no array, are not
    sent. *)
Theorem client_guards_match_validation (rt : runtime) (w : world) (path : string)
    (fd : formData) (parsed : value) :
  (sends fd = true ->
   status (fst (app_post_bookmarks rt
                  {| params_id := EmptyString; body := body_of fd |} w)) <> 400%nat /\
   status (fst (app_put_bookmarks_id
                  {| params_id := path; body := body_of fd |} w)) <> 400%nat) /\
  (sends fd = false ->
   truthy (title fd) = false \/ truthy (url fd) = false) /\
  (forall req, importBookmarks parsed = Some req ->
               status (fst (app_post_bookmarks_import rt req w)) <> 400%nat) /\
  (importBookmarks parsed = None <-> isArray (Some parsed) = false).
Proof.
  split; [|split; [|split]].
  - unfold sends. intros Hs. apply negb_true_iff in Hs.
    destruct (member_body_of fd) as (Mt & Mu & Mc & Md).
    unfold app_post_bookmarks, app_put_bookmarks_id, try_catch.
    cbn [body]. rewrite Mt, Mu, Mc, Md. cbn [mbind completion_bind].
    rewrite Hs. destruct (readBookmarks_total w) as [v ->].
    cbn [mbind completion_bind].
    split.
    + destruct v; cbn [as_array mbind completion_bind]; try discriminate.
      rewrite writeBookmarks_eq. destruct (writable w); discriminate.
    + destruct v; cbn [as_array mbind completion_bind]; try discriminate.
      destruct (Array_findIndex _ l) as [[j|]|]; cbn [mbind completion_bind];
        try discriminate.
      rewrite writeBookmarks_eq. destruct (writable w); discriminate.
  - unfold sends. intros Hs. apply negb_false_iff, orb_true_iff in Hs.
    destruct Hs as [Hs|Hs]; apply negb_true_iff in Hs; auto.
  - unfold importBookmarks. intros req Hreq.
    destruct (isArray (Some parsed)) eqn:Harr; [|discriminate].
    injection Hreq as <-.
    unfold app_post_bookmarks_import, try_catch.
    cbn [body member mbind completion_bind]. rewrite lookup_singleton_eq, Harr.
    cbn [negb]. destruct (readBookmarks_total w) as [v ->].
    cbn [mbind completion_bind].
    destruct v; cbn [iterate mbind completion_bind]; try discriminate;
      rewrite writeBookmarks_eq; destruct (writable w); discriminate.
  - unfold importBookmarks. destruct (isArray (Some parsed)); split; congruence.
Qed.

Lemma client_guards_match_validation_witness :
  status (fst (app_post_bookmarks (Scenario.rt_at 1736933400000)
                 {| params_id := EmptyString;
                    body := body_of {| title := Some (VStr "X");
                                       url := Some (VStr "https://x.test");
                                       category := Some (VStr EmptyString);
                                       description := None |} |}
                 Scenario.no_file)) <> 400%nat.
Proof.
  destruct (client_guards_match_validation (Scenario.rt_at 1736933400000)
              Scenario.no_file EmptyString
              {| title := Some (VStr "X"); url := Some (VStr "https://x.test");
                 category := Some (VStr EmptyString); description := None |}
              VNull) as [H _].
  apply H. vm_compute. reflexivity.
Defined.

End UpdateFacts.

(** ** Import and export *)

Section ImportExport.
Import JS Store Server Spec Controller Behaviour Startup.

Lemma with_new_id_primitive (rt : runtime) (i : nat) (x : value) :
  match x with
  | VNull | VBool _ | VNum _ => with_new_id rt i x = {[ "id" := VNum (token rt i) ]}
  | _ => True
  end.
Proof. destruct x; try exact I; reflexivity. Qed.

(** X13.  Import takes an array of anything.  With a file that can be
    written, the records of the Collection stay where they are and one
    record per element follows, with a Number from the clock as id; an
    element that is [null], a number or a boolean becomes a record with
    that id and nothing else.  An empty array leaves the Collection as it
    is, yet the file is written and the answer counts 0. *)
Theorem import_accepts_any_element (rt : runtime) (req : request) (w : world)
    (c : Collection) (imported : list value) :
  stored w c -> writable w = true ->
  field (body req) "bookmarks" = Some (VArr imported) ->
  let r := fst (app_post_bookmarks_import rt req w) in
  let w' := snd (app_post_bookmarks_import rt req w) in
  exists news,
    status r = 200%nat /\ stored w' (c ++ news) /\
    List.length news = List.length imported /\
    (forall i, (i < List.length c)%nat -> (c ++ news) !! i = c !! i) /\
    (forall i x, imported !! i = Some x ->
       exists b, news !! i = Some b /\ b !! "id" = Some (VNum (token rt i)) /\
                 match x with
                 | VNull | VBool _ | VNum _ => b = {[ "id" := VNum (token rt i) ]}
                 | _ => True
                 end) /\
    (imported = [] ->
     stored w' c /\ writes w' = S (writes w) /\
     field (json r) "count" = Some (VNum (inject_Z 0))).
Proof.
  intros Hst Hw Hf r w'. subst r w'.
  assert (member (body req) "bookmarks" = Normal (Some (VArr imported))) as Hm.
  { destruct (body req); try discriminate Hf. simpl in *. rewrite Hf. reflexivity. }
  rewrite (post_bookmarks_import_eq rt req w c imported Hst Hm), Hw.
  cbn [fst snd res status json].
  exists (imap (with_new_id rt) imported).
  split; [reflexivity|]. split; [apply stored_written|].
  split; [apply length_imap|].
  split; [intros i Hi; apply lookup_app_l, Hi|]. split.
  - intros i x Hx. exists (with_new_id rt i x).
    rewrite list_lookup_imap, Hx. split; [reflexivity|].
    split; [apply with_new_id_id|]. apply with_new_id_primitive.
  - intros ->. cbn [imap List.length]. rewrite app_nil_r.
    split; [apply stored_written|]. split; reflexivity.
Qed.

Lemma import_accepts_any_element_witness :
  exists news,
    stored (snd (app_post_bookmarks_import (Scenario.rt_at 1736933400000)
                   (Scenario.submit (VObj {[ "bookmarks" := VArr [VNull; VNum 7] ]}))
                   (Scenario.disk Scenario.defaultBookmarks)))
      (Scenario.defaultBookmarks ++ news) /\
    List.length news = 2%nat.
Proof.
  pose proof (import_accepts_any_element (Scenario.rt_at 1736933400000)
                (Scenario.submit (VObj {[ "bookmarks" := VArr [VNull; VNum 7] ]}))
                (Scenario.disk Scenario.defaultBookmarks)
                Scenario.defaultBookmarks [VNull; VNum 7]) as H.
  evaluate_premises H. destruct H as (news & _ & Hst & Hlen & _).
  exists news. split; [exact Hst|exact Hlen].
Defined.

(** X14.  Export answers with what List answers and changes nothing; the
    file name it proposes is [bookmarks-<date>.json].  The client sends
    an exported document back as it is, and the Import of it, into any
    Collection that can be written, appends one record per exported
    record, in order, equal to it in every property but the id, which is
    new. *)
Theorem import_of_an_export (rt : runtime) (w : world) (c : Collection) :
  stored w c ->
  let d := fst (app_get_bookmarks_export rt w) in
  snd (app_get_bookmarks_export rt w) = w /\
  reply d = fst (app_get_bookmarks w) /\
  json (reply d) = VArr (VObj <$> c) /\
  Content_Disposition d
  = Some ("attachment; filename=" +:+ quote
          +:+ ("bookmarks-" +:+ split_T_0 (Date_toISOString rt) +:+ ".json")
          +:+ quote) /\
  exists req,
    importBookmarks (json (reply d)) = Some req /\
    forall rt' w0 c0,
      stored w0 c0 -> writable w0 = true ->
      exists copies,
        stored (snd (app_post_bookmarks_import rt' req w0)) (c0 ++ copies) /\
        List.length copies = List.length c /\
        forall i b, c !! i = Some b ->
          exists b', copies !! i = Some b' /\
                     b' !! "id" = Some (VNum (token rt' i)) /\
                     forall k, k <> "id" -> b' !! k = b !! k.
Proof.
  intros Hst d. subst d.
  assert (app_get_bookmarks_export rt w
          = ({| reply := res 200 (VArr (VObj <$> c));
                Content_Disposition :=
                  Some ("attachment; filename=" +:+ quote
                        +:+ ("bookmarks-" +:+ split_T_0 (Date_toISOString rt)
                             +:+ ".json")
                        +:+ quote);
                Content_Type := Some "application/json" |}, w)) as ->.
  { unfold app_get_bookmarks_export. unfold stored in Hst. rewrite Hst.
    reflexivity. }
  rewrite (get_bookmarks_eq w _ Hst).
  cbn [fst snd reply json res Content_Disposition].
  split; [reflexivity|]. split; [reflexivity|]. split; [reflexivity|].
  split; [reflexivity|].
  eexists. split; [reflexivity|]. intros rt' w0 c0 Hst0 Hw0.
  destruct (import_appends rt' {| params_id := EmptyString;
                                  body := VObj {[ "bookmarks" := VArr (VObj <$> c) ]} |}
              w0 c0 (VObj <$> c) Hst0 Hw0)
    as (r & w1 & Hrun & _ & _ & Hst1 & _).
  { cbn [body field]. apply lookup_singleton_eq. }
  rewrite Hrun. cbn [snd].
  exists (imap (with_new_id rt') (VObj <$> c)).
  split; [exact Hst1|]. split; [rewrite length_imap, length_fmap; reflexivity|].
  intros i b Hb. exists (with_new_id rt' i (VObj b)).
  rewrite list_lookup_imap, list_lookup_fmap, Hb. split; [reflexivity|].
  split; [apply with_new_id_id|]. intros k Hk. apply with_new_id_other, Hk.
Qed.

Lemma import_of_an_export_witness :
  exists req,
    importBookmarks (json (reply (fst (app_get_bookmarks_export
                                         (Scenario.rt_at 1736933400000)
                                         (Scenario.disk Scenario.defaultBookmarks)))))
    = Some req /\
    exists copies,
      stored (snd (app_post_bookmarks_import (Scenario.rt_at 1736933400000) req
                     Scenario.no_file)) ([] ++ copies) /\
      List.length copies = 3%nat.
Proof.
  pose proof (import_of_an_export (Scenario.rt_at 1736933400000)
                (Scenario.disk Scenario.defaultBookmarks)
                Scenario.defaultBookmarks) as H.
  evaluate_premises H. destruct H as (_ & _ & _ & _ & req & Hreq & Himp).
  exists req. split; [exact Hreq|].
  destruct (Himp (Scenario.rt_at 1736933400000) Scenario.no_file [])
    as (copies & Hst & Hlen & _); [reflexivity|reflexivity|].
  exists copies. split; [exact Hst|exact Hlen].
Defined.

End ImportExport.

(** ** The id that a path gives *)

Section PathFacts.
Import JS Store Server Spec Controller Behaviour.

Lemma digit_is_no_sign (a : ascii) (r : string) :
  is_digit a = true ->
  is_space a = false /\
  match String a r with
  | String "-" r' => (-1, r')
  | String "+" r' => (1, r')
  | _ => (1, String a r)
  end = (1, String a r).
Proof.
  intros H.
  destruct a as [[] [] [] [] [] [] [] []]; vm_compute in H; try discriminate H;
    split; reflexivity.
Qed.

Lemma digit_is_no_x (a : ascii) :
  is_digit a = true -> a <> "x"%char /\ a <> "X"%char.
Proof.
  intros H.
  destruct a as [[] [] [] [] [] [] [] []]; vm_compute in H; try discriminate H;
    split; discriminate.
Qed.

Lemma no_hex_prefix (s : string) :
  (forall r, s <> String "0" (String "x" r)) ->
  (forall r, s <> String "0" (String "X" r)) ->
  match s with
  | String "0" (String "x" r) => (16, r)
  | String "0" (String "X" r) => (16, r)
  | _ => (10, s)
  end = (10, s).
Proof.
  intros Hx HX. destruct s as [|a [|b r]].
  - reflexivity.
  - destruct a as [[] [] [] [] [] [] [] []]; reflexivity.
  - destruct a as [[] [] [] [] [] [] [] []]; try reflexivity.
    destruct b as [[] [] [] [] [] [] [] []]; try reflexivity;
      first [destruct (HX r eq_refl) | destruct (Hx r eq_refl)].
Qed.

Lemma digits_stop (ds t : string) (acc : option Z) :
  stops t = true -> digits 10 (ds +:+ t) acc = digits 10 ds acc.
Proof.
  intros Ht. revert acc. induction ds as [|a ds IH]; intros acc.
  - change (EmptyString +:+ t) with t. destruct t as [|b t]; [reflexivity|].
    cbn [digits stops] in *. unfold is_digit in Ht.
    destruct (digit_of 10 b); [discriminate Ht|reflexivity].
  - change (String a ds +:+ t) with (String a (ds +:+ t)). cbn [digits].
    destruct (digit_of 10 a); [apply IH|reflexivity].
Qed.

Lemma parseInt_of_digits (a : ascii) (r : string) :
  is_digit a = true ->
  (forall r', String a r <> String "0" (String "x" r')) ->
  (forall r', String a r <> String "0" (String "X" r')) ->
  parseInt (String a r) =
  match digits 10 (String a r) None with
  | Some n => Some (binary64 (inject_Z (1 * n)))
  | None => None
  end.
Proof.
  intros Ha Hx HX. unfold parseInt.
  destruct (digit_is_no_sign a r Ha) as [Hsp Hsign].
  cbn [trimStart]. rewrite Hsp, Hsign, (no_hex_prefix _ Hx HX). reflexivity.
Qed.

(** X15.  [parseInt] reads the leading digits of the path and ignores the
    rest: when digits are followed by a text that is empty or begins with
    something that is neither a digit nor an x, the path parses as the
    digits alone, so a Delete or an Update for it is the Delete or the
    Update for the digits.  ([7abc] and [7.5] are the id 7.) *)
Theorem parseInt_reads_the_leading_digits (ds t : string) :
  ds <> EmptyString -> all_digit ds = true -> stops t = true ->
  parseInt (ds +:+ t) = parseInt ds /\
  forall (payload : value) (w : world),
    app_delete_bookmarks_id {| params_id := ds +:+ t; body := payload |} w
    = app_delete_bookmarks_id {| params_id := ds; body := payload |} w /\
    app_put_bookmarks_id {| params_id := ds +:+ t; body := payload |} w
    = app_put_bookmarks_id {| params_id := ds; body := payload |} w.
Proof.
  intros Hne Hds Ht.
  assert (parseInt (ds +:+ t) = parseInt ds) as Hparse.
  { destruct ds as [|a ds]; [contradiction|].
    cbn [all_digit] in Hds. apply andb_true_iff in Hds as [Ha Hds].
    change (String a ds +:+ t) with (String a (ds +:+ t)).
    assert (forall c r', is_digit a = true ->
              (c = "x"%char \/ c = "X"%char) ->
              String a (ds +:+ t) <> String "0" (String c r')) as Hmixed.
    { intros c r' _ Hc Heq. injection Heq as -> Hrest.
      destruct ds as [|b ds].
      - change (EmptyString +:+ t) with t in Hrest. subst t.
        cbn [stops] in Ht. destruct Hc as [-> | ->]; vm_compute in Ht;
          discriminate Ht.
      - change (String b ds +:+ t) with (String b (ds +:+ t)) in Hrest.
        injection Hrest as -> _. cbn [all_digit] in Hds.
        apply andb_true_iff in Hds as [Hb _].
        destruct (digit_is_no_x _ Hb) as [Hx HX].
        destruct Hc; contradiction. }
    assert (forall c r', (c = "x"%char \/ c = "X"%char) ->
              String a ds <> String "0" (String c r')) as Hplain.
    { intros c r' Hc Heq. injection Heq as -> Hrest.
      destruct ds as [|b ds]; [discriminate Hrest|].
      injection Hrest as -> _. cbn [all_digit] in Hds.
      apply andb_true_iff in Hds as [Hb _].
      destruct (digit_is_no_x _ Hb) as [Hx HX].
      destruct Hc; contradiction. }
    rewrite (parseInt_of_digits a (ds +:+ t) Ha), (parseInt_of_digits a ds Ha);
      eauto.
    change (String a (ds +:+ t)) with (String a ds +:+ t).
    rewrite (digits_stop _ _ _ Ht). reflexivity. }
  split; [exact Hparse|]. intros payload w.
  unfold app_delete_bookmarks_id, app_put_bookmarks_id. cbn [params_id body].
  rewrite Hparse. split; reflexivity.
Qed.

Lemma parseInt_reads_the_leading_digits_witness :
  app_delete_bookmarks_id {| params_id := "2" +:+ "abc"; body := VNull |}
    (Scenario.disk Scenario.defaultBookmarks)
  = app_delete_bookmarks_id {| params_id := "2"; body := VNull |}
      (Scenario.disk Scenario.defaultBookmarks).
Proof.
  destruct (parseInt_reads_the_leading_digits "2" "abc") as [_ H].
  - discriminate.
  - vm_compute. reflexivity.
  - vm_compute. reflexivity.
  - apply (H VNull (Scenario.disk Scenario.defaultBookmarks)).
Defined.

End PathFacts.

(** ** The categories and the search of the client *)

Section MirrorFacts.
Import JS Client Spec Controller Behaviour.

Lemma Array_map_member (k : string) (c : Collection) :
  Array_map (fun b => member b k) (VObj <$> c)
  = Normal ((fun b : gmap string value => b !! k) <$> c).
Proof.
  induction c as [|b c IH]; [reflexivity|].
  cbn [fmap list_fmap Array_map member mbind completion_bind].
  change (list_fmap _ _ VObj c) with (VObj <$> c). rewrite IH. reflexivity.
Qed.

Lemma filter_Boolean_elem (l : list jsval) (x : value) :
  x ∈ filter_Boolean l <-> Some x ∈ l /\ truthy (Some x) = true.
Proof.
  induction l as [|[v|] l IH]; cbn [filter_Boolean].
  - split; [intros H; inversion H|intros [H _]; inversion H].
  - destruct (truthy (Some v)) eqn:Hv.
    + rewrite !elem_of_cons, IH.
      split; [intros [->|[? ?]]; auto|intros [[[= ->]|?] ?]; auto].
    + rewrite IH, elem_of_cons.
      split; [intros [? ?]; auto|intros [[[= ->]|?] ?]; [congruence|auto]].
  - rewrite IH, elem_of_cons. split; [intros [? ?]; auto|].
    intros [[?|?] ?]; [discriminate|auto].
Qed.

Lemma filter_Boolean_text (c : Collection) :
  forallb category_text c = true ->
  filter_Boolean ((fun b : gmap string value => b !! "category") <$> c)
  = VStr <$> omap category_of c.
Proof.
  induction c as [|b c IH]; [reflexivity|].
  cbn [forallb]. intros [Hb Hc]%andb_true_iff.
  cbn [fmap list_fmap filter_Boolean omap list_omap].
  change (list_fmap _ _ ?f c) with (f <$> c). rewrite (IH Hc).
  unfold category_text, category_of in *.
  destruct (b !! "category") as [[| | |s| |]|]; try discriminate Hb;
    [|reflexivity].
  cbn [truthy]. destruct (String.eqb s EmptyString); reflexivity.
Qed.

Lemma seen_text (seen : list string) (x : string) :
  existsb (fun y => strict_equals (Some y) (Some (VStr x))) (VStr <$> seen) = true
  <-> x ∈ seen.
Proof.
  induction seen as [|y seen IH]; cbn [fmap list_fmap existsb].
  - split; [discriminate|intros H; inversion H].
  - change (list_fmap _ _ VStr seen) with (VStr <$> seen).
    rewrite orb_true_iff, IH, elem_of_cons. cbn [strict_equals].
    rewrite String.eqb_eq. split; intros [?|?]; auto.
Qed.

Lemma Set_values_text (seen l : list string) :
  exists cs,
    Set_values (VStr <$> seen) (VStr <$> l) = VStr <$> cs /\
    NoDup cs /\ sublist cs l /\
    forall s, s ∈ cs <-> s ∈ l /\ s ∉ seen.
Proof.
  revert seen. induction l as [|x l IH]; intros seen.
  - exists []. split; [reflexivity|]. split; [constructor|]. split; [constructor|].
    intros s. split; [intros H; inversion H|intros [H _]; inversion H].
  - cbn [fmap list_fmap Set_values].
    change (list_fmap _ _ VStr l) with (VStr <$> l).
    change (list_fmap _ _ VStr seen) with (VStr <$> seen).
    destruct (existsb _ (VStr <$> seen)) eqn:Hseen.
    + apply seen_text in Hseen. destruct (IH seen) as (cs & Hcs & Hnd & Hsub & Hin).
      exists cs. split; [exact Hcs|]. split; [exact Hnd|].
      split; [apply sublist_cons, Hsub|].
      intros s. rewrite Hin, elem_of_cons. split; [intros [? ?]; auto|].
      intros [[->|?] ?]; [contradiction|auto].
    + assert (x ∉ seen) as Hx.
      { intros Hx. apply seen_text in Hx. congruence. }
      destruct (IH (x :: seen)) as (cs & Hcs & Hnd & Hsub & Hin).
      exists (x :: cs). split.
      * change (VStr x :: (VStr <$> seen)) with (VStr <$> (x :: seen)).
        rewrite Hcs. reflexivity.
      * split; [|split; [apply sublist_skip, Hsub|]].
        -- constructor; [|exact Hnd]. rewrite Hin, elem_of_cons. intros [_ H].
           apply H. auto.
        -- intros s. rewrite !elem_of_cons, Hin, elem_of_cons. split.
           ++ intros [->|[? ?]]; auto.
           ++ intros [[->|?] ?]; [auto|].
              destruct (decide (s = x)) as [->|]; [auto|]. right.
              split; [assumption|]. intros [?|?]; contradiction.
Qed.

Lemma category_of_Some (b : gmap string value) (s : string) :
  category_of b = Some s <-> s <> EmptyString /\ b !! "category" = Some (VStr s).
Proof.
  unfold category_of. destruct (b !! "category") as [[| | |t| |]|];
    try (split; [discriminate|intros [_ H]; discriminate H]).
  destruct (String.eqb_spec t EmptyString) as [->|Ht].
  - split; [discriminate|]. intros [Hs [= Hs']]. congruence.
  - split; [intros [= <-]; auto|]. intros [_ [= <-]]. reflexivity.
Qed.

Lemma filter_filter_both {A} (p q u : A -> bool) (l : list A) :
  (forall y, p y = q y && u y) ->
  List.filter p l = List.filter q (List.filter u l).
Proof.
  intros H. induction l as [|y l IH]; [reflexivity|].
  cbn [List.filter]. rewrite H.
  destruct (u y); cbn [List.filter]; [|rewrite andb_false_r; exact IH].
  rewrite andb_true_r. destruct (q y); rewrite IH; reflexivity.
Qed.

Lemma existsb_eqb_elem (seen : list string) (y : string) :
  existsb (String.eqb y) seen = true <-> y ∈ seen.
Proof.
  induction seen as [|x seen IH]; cbn [existsb].
  - split; [discriminate|intros H; inversion H].
  - rewrite orb_true_iff, IH, elem_of_cons, String.eqb_eq. reflexivity.
Qed.

(** [[...new Set(l)]] on texts is [first_occurrences]: with nothing seen
    yet, each text once at the place of its first occurrence; in general,
    without the texts seen before. *)
Lemma Set_values_first (seen l : list string) :
  Set_values (VStr <$> seen) (VStr <$> l)
  = VStr <$> List.filter (fun y => negb (existsb (String.eqb y) seen))
               (first_occurrences l).
Proof.
  revert seen. induction l as [|x l IH]; intros seen; [reflexivity|].
  cbn [fmap list_fmap Set_values first_occurrences List.filter].
  change (list_fmap _ _ VStr l) with (VStr <$> l).
  change (list_fmap _ _ VStr seen) with (VStr <$> seen).
  destruct (existsb _ (VStr <$> seen)) eqn:Hseen.
  - assert (existsb (String.eqb x) seen = true) as Hx
      by (apply existsb_eqb_elem, seen_text, Hseen).
    rewrite Hx. cbn [negb].
    rewrite IH. f_equal. apply filter_filter_both. intros y.
    destruct (String.eqb_spec y x) as [->|_]; cbn [negb];
      [|rewrite andb_true_r; reflexivity].
    rewrite Hx. reflexivity.
  - assert (existsb (String.eqb x) seen = false) as ->.
    { apply not_true_iff_false. rewrite existsb_eqb_elem, <- seen_text.
      congruence. }
    cbn [negb fmap list_fmap]. f_equal.
    change (VStr x :: (VStr <$> seen)) with (VStr <$> (x :: seen)).
    rewrite IH. f_equal. apply filter_filter_both. intros y.
    cbn [existsb]. rewrite negb_orb, andb_comm. reflexivity.
Qed.

Lemma filter_all {A} (l : list A) : List.filter (fun _ => true) l = l.
Proof. induction l as [|y l IH]; [reflexivity|]. cbn. rewrite IH. reflexivity. Qed.

(** X16.  For a mirror in which every category is text or absent,
    [categories] is "All" followed by the categories of the bookmarks
    that are not empty, each once, in the order in which the bookmarks
    first show them: the list is [first_occurrences] of the categories of
    the bookmarks, taken in the order of the bookmarks.  So it has no
    text twice, and it holds a text exactly when that text is not empty
    and is the category of a bookmark. *)
Theorem categories_lists_each_category_once (bookmarks : Collection) :
  forallb category_text bookmarks = true ->
  exists cs : list string,
    categories (VObj <$> bookmarks) = Normal (VStr "All" :: (VStr <$> cs)) /\
    cs = first_occurrences (omap category_of bookmarks) /\
    NoDup cs /\
    sublist cs (omap category_of bookmarks) /\
    forall s, s ∈ cs <->
              s <> EmptyString /\
              exists b, b ∈ bookmarks /\ b !! "category" = Some (VStr s).
Proof.
  intros Htext.
  destruct (Set_values_text [] (omap category_of bookmarks))
    as (cs & Hcs & Hnd & Hsub & Hin).
  assert (cs = first_occurrences (omap category_of bookmarks)) as Hfirst.
  { pose proof (Set_values_first [] (omap category_of bookmarks)) as H.
    rewrite Hcs in H. cbn [existsb negb] in H. rewrite filter_all in H.
    revert H. generalize (first_occurrences (omap category_of bookmarks)).
    clear. induction cs as [|x cs IH]; intros [|y l] H; try discriminate H;
      [reflexivity|].
    injection H as -> H. rewrite (IH l H). reflexivity. }
  exists cs. split.
  - unfold categories. rewrite Array_map_member. cbn [mbind completion_bind].
    rewrite (filter_Boolean_text _ Htext).
    change (@nil value) with (VStr <$> @nil string). rewrite Hcs. reflexivity.
  - split; [exact Hfirst|]. split; [exact Hnd|]. split; [exact Hsub|].
    intros s. rewrite Hin, list_elem_of_omap. split.
    + intros [(b & Hb & Hc) _]. apply category_of_Some in Hc as [Hs Hc]. eauto.
    + intros (Hs & b & Hb & Hc). split; [|intros H; inversion H].
      exists b. split; [exact Hb|]. apply category_of_Some. auto.
Qed.

Lemma categories_lists_each_category_once_witness :
  categories (VObj <$> Scenario.defaultBookmarks)
  = Normal [VStr "All"; VStr "Development"; VStr "Tools"].
Proof.
  pose proof (categories_lists_each_category_once Scenario.defaultBookmarks) as H.
  evaluate_premises H. destruct H as (cs & Hrun & -> & _).
  exact Hrun.
Defined.

Lemma Set_values_from (seen l : list value) (x : value) :
  x ∈ Set_values seen l -> x ∈ l.
Proof.
  revert seen. induction l as [|y l IH]; intros seen; cbn [Set_values];
    [intros H; inversion H|].
  destruct (existsb _ seen).
  - intros H. apply list_elem_of_further, (IH _ H).
  - rewrite !elem_of_cons. intros [->|H]; [auto|right; apply (IH _ H)].
Qed.

Lemma categories_from (bookmarks : Collection) (cats : list value) (x : value) :
  categories (VObj <$> bookmarks) = Normal cats -> x ∈ cats ->
  x = VStr "All" \/ exists b, b ∈ bookmarks /\ b !! "category" = Some x.
Proof.
  unfold categories. rewrite Array_map_member. cbn [mbind completion_bind].
  intros [= <-]. rewrite elem_of_cons. intros [->|Hx]; [auto|right].
  apply Set_values_from, filter_Boolean_elem in Hx as [Hx _].
  apply list_elem_of_fmap in Hx as (b & Hb & Hin). eauto.
Qed.

Lemma includes_nothing (s : string) : includes s EmptyString = true.
Proof. destruct s; reflexivity. Qed.

Lemma keeps_without_term (selectedCategory : string) (b : gmap string value) :
  has_text b "title" = true ->
  keeps EmptyString selectedCategory (VObj b)
  = Normal (String.eqb selectedCategory "All"
            || strict_equals (b !! "category") (Some (VStr selectedCategory))).
Proof.
  intros [t Ht]%has_text_Some. unfold keeps, field_includes.
  cbn [member mbind completion_bind]. rewrite Ht.
  cbn [call_toLowerCase mbind completion_bind toLowerCase].
  rewrite includes_nothing. cbn [mbind completion_bind].
  destruct (String.eqb selectedCategory "All"); reflexivity.
Qed.

Lemma filteredBookmarks_without_term (bookmarks : Collection)
    (selectedCategory : string) :
  forallb (fun b => has_text b "title") bookmarks = true ->
  filteredBookmarks (VObj <$> bookmarks) EmptyString selectedCategory
  = Normal (VObj <$> List.filter
              (fun b : gmap string value =>
                 String.eqb selectedCategory "All"
                 || strict_equals (b !! "category") (Some (VStr selectedCategory)))
              bookmarks).
Proof.
  unfold filteredBookmarks. induction bookmarks as [|b l IH]; [reflexivity|].
  cbn [forallb]. intros [Hb Hl]%andb_true_iff.
  cbn [fmap list_fmap Array_filter List.filter].
  change (list_fmap _ _ VObj l) with (VObj <$> l).
  rewrite (keeps_without_term _ _ Hb), (IH Hl). cbn [mbind completion_bind].
  destruct (String.eqb selectedCategory "All" || _); reflexivity.
Qed.

(** X17.  While nothing is typed into the search box, only the title of a
    bookmark has to be text.  With "All" selected every bookmark is
    shown; with a category that [categories] offers, other than "All",
    the bookmarks of that category are shown, in their order, and there
    is at least one. *)
Theorem offered_category_shows_its_bookmarks (bookmarks : Collection) :
  forallb (fun b => has_text b "title") bookmarks = true ->
  filteredBookmarks (VObj <$> bookmarks) EmptyString "All"
  = Normal (VObj <$> bookmarks) /\
  forall (cats : list value) (s : string),
    categories (VObj <$> bookmarks) = Normal cats ->
    VStr s ∈ cats -> s <> "All" ->
    exists vis,
      filteredBookmarks (VObj <$> bookmarks) EmptyString s = Normal (VObj <$> vis) /\
      vis <> [] /\ sublist vis bookmarks /\
      forall b, b ∈ vis <-> b ∈ bookmarks /\ b !! "category" = Some (VStr s).
Proof.
  intros Htitle. split.
  - rewrite (filteredBookmarks_without_term _ _ Htitle). cbn [String.eqb orb].
    f_equal. f_equal. induction bookmarks as [|b l IH]; [reflexivity|].
    cbn [List.filter]. cbn [forallb] in Htitle.
    apply andb_true_iff in Htitle as [_ Hl]. rewrite (IH Hl). reflexivity.
  - intros cats s Hcats Hs Hnot.
    rewrite (filteredBookmarks_without_term _ _ Htitle).
    assert (String.eqb s "All" = false) as -> by (apply String.eqb_neq, Hnot).
    cbn [orb]. eexists. split; [reflexivity|].
    assert (forall b : gmap string value,
              strict_equals (b !! "category") (Some (VStr s)) = true
              <-> b !! "category" = Some (VStr s)) as Heq.
    { intros b. destruct (b !! "category") as [[| | |u| |]|]; cbn [strict_equals];
        try (split; discriminate).
      rewrite String.eqb_eq. split; congruence. }
    assert (forall b, b ∈ List.filter
                        (fun b : gmap string value =>
                           strict_equals (b !! "category") (Some (VStr s)))
                        bookmarks
                      <-> b ∈ bookmarks /\ b !! "category" = Some (VStr s)) as Hin.
    { intros b. rewrite !list_elem_of_In, List.filter_In, Heq. reflexivity. }
    split; [|split; [|exact Hin]].
    + destruct (categories_from _ _ _ Hcats Hs) as [[= ->]|(b & Hb & Hc)];
        [contradiction|].
      intros Hnil. assert (b ∈ @nil (gmap string value)) as Hbad
        by (rewrite <- Hnil; apply Hin; auto).
      inversion Hbad.
    + clear. induction bookmarks as [|b l IH]; cbn [List.filter]; [constructor|].
      destruct (strict_equals _ _); [apply sublist_skip|apply sublist_cons];
        exact IH.
Qed.

Lemma offered_category_shows_its_bookmarks_witness :
  filteredBookmarks (VObj <$> Scenario.defaultBookmarks) EmptyString "All"
  = Normal (VObj <$> Scenario.defaultBookmarks).
Proof.
  pose proof (offered_category_shows_its_bookmarks Scenario.defaultBookmarks) as H.
  evaluate_premises H. destruct H as [H _]. exact H.
Defined.

Lemma Array_filter_throws (p : value -> completion bool) (l : list value)
    (x : value) :
  x ∈ l -> p x = Throw -> Array_filter p l = Throw.
Proof.
  intros Hx Hp. induction l as [|y l IH]; [inversion Hx|].
  cbn [Array_filter]. apply elem_of_cons in Hx as [<-|Hx].
  - rewrite Hp. reflexivity.
  - rewrite (IH Hx). destruct (p y); reflexivity.
Qed.

(** X18.  A stored bookmark without a text description breaks the search:
    as soon as the search term does not occur in its title, letter case
    aside, the filter reads the description, the read throws, and
    [filteredBookmarks] throws for the whole mirror, whatever the other
    bookmarks are.  (Import stores such records: it adds no
    description.) *)
Theorem search_throws_without_description (bookmarks : list value)
    (b : gmap string value) (t searchTerm selectedCategory : string) :
  VObj b ∈ bookmarks -> b !! "title" = Some (VStr t) ->
  ~ ci_contains t searchTerm ->
  has_text b "description" = false ->
  filteredBookmarks bookmarks searchTerm selectedCategory = Throw.
Proof.
  intros Hb Ht Hmiss Hd. unfold filteredBookmarks.
  apply (Array_filter_throws _ _ (VObj b) Hb).
  unfold keeps, field_includes. cbn [member mbind completion_bind].
  rewrite Ht. cbn [call_toLowerCase mbind completion_bind].
  assert (includes (toLowerCase t) (toLowerCase searchTerm) = false) as ->
    by (apply not_true_iff_false; rewrite includes_ci; exact Hmiss).
  cbn [mbind completion_bind]. unfold has_text in Hd.
  destruct (b !! "description") as [[| | |d| |]|]; try discriminate Hd;
    reflexivity.
Qed.

Lemma search_throws_without_description_witness :
  filteredBookmarks
    ((VObj <$> Scenario.defaultBookmarks)
     ++ [VObj (Server.with_new_id (Scenario.rt_at 1736933400000) 0
                 (Scenario.form "X" "https://x.test"))])
    "react" "All" = Throw.
Proof.
  apply (search_throws_without_description _
           (Server.with_new_id (Scenario.rt_at 1736933400000) 0
              (Scenario.form "X" "https://x.test")) "X" "react" "All").
  - apply elem_of_app. right. apply list_elem_of_here.
  - vm_compute. reflexivity.
  - intros H%includes_ci. vm_compute in H. discriminate H.
  - vm_compute. reflexivity.
Defined.

End MirrorFacts.

(** ** The mirror of the client and the file of the server *)

Section ReconcileFacts.
Import JS Store Server Spec Controller Behaviour BookmarkManager.

Lemma strict_equals_number (y : jsval) (p : option Q) (x : jsval) :
  equals_number y p = true -> strict_equals x y = equals_number x p.
Proof.
  destruct p as [n|]; [|discriminate]. cbn [equals_number].
  destruct y as [[ | | q| | | ]|]; try discriminate. cbn [strict_equals].
  intros Hq%Qeq_bool_iff.
  destruct x as [[ | |z| | | ]|]; cbn [strict_equals]; try reflexivity.
  apply eq_true_iff_eq. rewrite !Qeq_bool_iff. rewrite Hq. reflexivity.
Qed.

Lemma Array_filter_ext (p q : value -> completion bool) (l : list value) :
  (forall x, p x = q x) -> Array_filter p l = Array_filter q l.
Proof.
  intros H. induction l as [|x l IH]; [reflexivity|].
  cbn [Array_filter]. rewrite H, IH. reflexivity.
Qed.

(** X19.  Deleting from the list keeps the mirror in step with the file.
    When the mirror is what List would answer and the id that the user
    clicked is the number that the path of the request parses to, then
    after [handleDelete] has seen the answer of the server the mirror is
    again what List would answer: both dropped the same records, or, after
    an answer that is not 200, neither changed anything.  The error slot
    is empty exactly after a 200. *)
Theorem delete_keeps_the_mirror_in_step (req : request) (w : world)
    (st : state) (id : value) :
  agrees w st ->
  equals_number (Some id) (parseInt (params_id req)) = true ->
  let r := app_delete_bookmarks_id req w in
  let st' := handleDelete (Some id) (Responded r.1) st in
  agrees r.2 st' /\
  (BookmarkManager.error st' = None <-> status r.1 = 200%nat).
Proof.
  unfold agrees. intros Hag Hid. cbv zeta.
  unfold app_delete_bookmarks_id, try_catch. rewrite Hag.
  destruct st as [bm ld er sf eb fd]. cbn [bookmarks] in *.
  cbn [mbind completion_bind].
  destruct bm as [ |b|q|s|l|m]; cbn [as_array mbind completion_bind];
    try (split; [exact Hag|split; discriminate]).
  unfold handleDelete.
  cbn [bookmarks setError as_array mbind completion_bind].
  rewrite (Array_filter_ext
             (fun bookmark =>
                id' ← member bookmark "id";
                Normal (negb (strict_equals id' (Some id))))
             (fun b =>
                id ← member b "id";
                Normal (negb (equals_number id (parseInt (params_id req))))))
    by (intros x; destruct (member x "id") as [i|]; [|reflexivity];
        cbn [mbind completion_bind];
        rewrite (strict_equals_number _ _ i Hid); reflexivity).
  destruct (Array_filter _ l) as [kept|] eqn:Hkept; cbn [mbind completion_bind];
    [|split; [exact Hag|split; discriminate]].
  destruct (Nat.eqb _ _); [split; [exact Hag|split; discriminate]|].
  rewrite writeBookmarks_eq. destruct (writable w).
  - cbn. split; [reflexivity|split; reflexivity].
  - split; [exact Hag|split; discriminate].
Qed.

Lemma delete_keeps_the_mirror_in_step_witness :
  agrees
    (app_delete_bookmarks_id (Scenario.call "2" VNull)
       (Scenario.disk Scenario.defaultBookmarks)).2
    (handleDelete (Some (VNum 2))
       (Responded (app_delete_bookmarks_id (Scenario.call "2" VNull)
                     (Scenario.disk Scenario.defaultBookmarks)).1)
       (setBookmarks (VArr (VObj <$> Scenario.defaultBookmarks)) initial)).
Proof.
  pose proof (delete_keeps_the_mirror_in_step (Scenario.call "2" VNull)
                (Scenario.disk Scenario.defaultBookmarks)
                (setBookmarks (VArr (VObj <$> Scenario.defaultBookmarks)) initial)
                (VNum 2)) as H.
  evaluate_premises H. exact (proj1 H).
Defined.

Lemma body_of_lookup (fd : Controller.formData) :
  exists m, body_of fd = VObj m /\
    m !! "title" = Controller.title fd /\ m !! "url" = Controller.url fd /\
    m !! "category" = Controller.category fd /\
    m !! "description" = Controller.description fd.
Proof.
  destruct (member_body_of fd) as (Ht & Hu & Hc & Hd).
  unfold body_of in *. eexists. split; [reflexivity|].
  cbn [member] in Ht, Hu, Hc, Hd.
  repeat split; congruence.
Qed.

Lemma sends_truthy (fd : Controller.formData) :
  sends fd = true ->
  negb (truthy (Controller.title fd)) || negb (truthy (Controller.url fd)) = false.
Proof. unfold sends. intros H%negb_true_iff. exact H. Qed.

(** X20.  Adding a bookmark keeps the mirror in step with the file.  When
    the mirror is what List would answer, no bookmark is being edited and
    the form passes the guard of [handleSubmit], then after the handler
    has seen the answer to its POST the mirror is again what List would
    answer: after 201 both have the new record at the end, and the form is
    emptied and closed; after any other answer neither changed, the error
    slot is set, and the form keeps what the user typed. *)
Theorem create_keeps_the_mirror_in_step (rt : runtime) (req : request)
    (w : world) (st : state) :
  agrees w st -> sends (formData st) = true ->
  truthy (Some (editingBookmark st)) = false ->
  body req = body_of (formData st) ->
  let r := app_post_bookmarks rt req w in
  let st' := handleSubmit (Responded r.1) st in
  agrees r.2 st' /\
  (status r.1 = 201%nat ->
   BookmarkManager.error st' = None /\ formData st' = emptyForm /\
   showAddForm st' = false) /\
  (status r.1 <> 201%nat ->
   BookmarkManager.error st' <> None /\ formData st' = formData st /\
   showAddForm st' = showAddForm st).
Proof.
  unfold agrees. intros Hag Hsends Hedit Hbody. cbv zeta.
  unfold handleSubmit. rewrite Hsends.
  cbn [negb setError editingBookmark bookmarks]. rewrite Hedit.
  unfold app_post_bookmarks, try_catch. rewrite Hbody, Hag.
  destruct (member_body_of (formData st)) as (-> & -> & -> & ->).
  cbn [mbind completion_bind]. rewrite (sends_truthy _ Hsends).
  destruct (bookmarks st) as [ |b|q|s|l|m] eqn:Hbm;
    cbn [as_array mbind completion_bind];
    try (cbn; split; [congruence|split; [discriminate|intros _; auto]]).
  rewrite writeBookmarks_eq. destruct (writable w).
  - cbn. split; [reflexivity|]. split; [auto|]. intros H; contradiction.
  - cbn. split; [rewrite Hbm; exact Hag|split; [discriminate|intros _; auto]].
Qed.

Lemma create_keeps_the_mirror_in_step_witness :
  agrees
    (app_post_bookmarks (Scenario.rt_at 1736933400000)
       (Scenario.submit (body_of
          {| Controller.title := Some (VStr "Example");
             Controller.url := Some (VStr "https://example.com");
             Controller.category := Some (VStr EmptyString);
             Controller.description := Some (VStr EmptyString) |}))
       Scenario.no_file).2
    (handleSubmit
       (Responded
          (app_post_bookmarks (Scenario.rt_at 1736933400000)
             (Scenario.submit (body_of
                {| Controller.title := Some (VStr "Example");
                   Controller.url := Some (VStr "https://example.com");
                   Controller.category := Some (VStr EmptyString);
                   Controller.description := Some (VStr EmptyString) |}))
             Scenario.no_file).1)
       (setFormData
          {| Controller.title := Some (VStr "Example");
             Controller.url := Some (VStr "https://example.com");
             Controller.category := Some (VStr EmptyString);
             Controller.description := Some (VStr EmptyString) |}
          initial)).
Proof.
  pose proof (create_keeps_the_mirror_in_step (Scenario.rt_at 1736933400000)
                (Scenario.submit (body_of
                   {| Controller.title := Some (VStr "Example");
                      Controller.url := Some (VStr "https://example.com");
                      Controller.category := Some (VStr EmptyString);
                      Controller.description := Some (VStr EmptyString) |}))
                Scenario.no_file
                (setFormData
                   {| Controller.title := Some (VStr "Example");
                      Controller.url := Some (VStr "https://example.com");
                      Controller.category := Some (VStr EmptyString);
                      Controller.description := Some (VStr EmptyString) |}
                   initial)) as H.
  evaluate_premises H. exact (proj1 H).
Defined.

Lemma strict_equals_shared (a b c : jsval) :
  strict_equals a c = true -> strict_equals b c = true ->
  strict_equals a b = true.
Proof.
  destruct a as [[ |x|x|x|x|x]|], c as [[ |z|z|z|z|z]|]; cbn [strict_equals];
    try discriminate;
    destruct b as [[ |y|y|y|y|y]|]; cbn [strict_equals]; try discriminate;
    try reflexivity.
  - intros H1 H2. apply Bool.eqb_prop in H1, H2. subst. apply Bool.eqb_reflx.
  - rewrite !Qeq_bool_iff. intros H1 H2. rewrite H1, H2. reflexivity.
  - rewrite !String.eqb_eq. congruence.
Qed.

Lemma replaced_cons (e : gmap string value) (u : value)
    (b : gmap string value) (l : list value) :
  replaced (VObj e) u (VObj b :: l)
  = rest ← replaced (VObj e) u l;
    Normal ((if strict_equals (b !! "id") (e !! "id") then u else VObj b) :: rest).
Proof. reflexivity. Qed.

Lemma replaced_none (e : gmap string value) (u : value) (c : Collection) :
  forallb (fun b : gmap string value =>
             negb (strict_equals (b !! "id") (e !! "id"))) c = true ->
  replaced (VObj e) u (VObj <$> c) = Normal (VObj <$> c).
Proof.
  induction c as [|b c IH]; [reflexivity|].
  cbn [forallb]. intros [Hb Hc]%andb_true_iff.
  rewrite fmap_cons, replaced_cons, (IH Hc).
  apply negb_true_iff in Hb. rewrite Hb. reflexivity.
Qed.

Lemma replaced_first (e : gmap string value) (u : value) (c : Collection)
    (i : nat) :
  unique_ids c = true ->
  index_where (fun b : gmap string value =>
                 strict_equals (b !! "id") (e !! "id")) c = Some i ->
  replaced (VObj e) u (VObj <$> c) = Normal (<[i := u]> (VObj <$> c)).
Proof.
  unfold unique_ids. revert i. induction c as [|b c IH]; intros i; [discriminate|].
  cbn [ids fmap list_fmap pairwise_distinct index_where].
  change (list_fmap _ _ VObj c) with (VObj <$> c).
  intros [Hb Hc]%andb_true_iff. rewrite replaced_cons.
  destruct (strict_equals (b !! "id") (e !! "id")) eqn:Hid.
  - intros [= <-].
    rewrite replaced_none; [reflexivity|].
    rewrite forallb_forall in Hb |- *. intros b' Hb'.
    apply negb_true_iff.
    destruct (strict_equals (b' !! "id") (e !! "id")) eqn:Hid'; [|reflexivity].
    assert (In (b' !! "id") (list_fmap _ _ (fun b : record => b !! "id") c)) as Hin
      by (apply in_map, Hb').
    specialize (Hb _ Hin). apply negb_true_iff in Hb.
    rewrite (strict_equals_shared _ _ _ Hid Hid') in Hb. discriminate.
  - destruct (index_where _ c) as [j|] eqn:Hj; [|discriminate].
    intros [= <-]. rewrite (IH j Hc eq_refl). reflexivity.
Qed.

Lemma index_where_ext (p q : gmap string value -> bool) (c : Collection) :
  (forall b, p b = q b) -> index_where p c = index_where q c.
Proof.
  intros H. induction c as [|b c IH]; [reflexivity|].
  cbn [index_where]. rewrite H, IH. reflexivity.
Qed.

(** X21.  Saving an edited bookmark keeps the mirror in step with the
    file.  When the mirror is the stored Collection, in which no two
    records share an id, and the bookmark being edited has the id that the
    path of the request parses to, then after [handleSubmit] has seen the
    answer to its PUT the mirror is again the stored Collection: after 200
    both hold the updated record at the place of the old one, and the
    form is emptied and nothing is being edited any more; after any other
    answer neither changed, the error slot is set, and the form and the
    bookmark being edited stay. *)
Theorem update_keeps_the_mirror_in_step (req : request) (w : world)
    (st : state) (c : Collection) (e : gmap string value) :
  stored w c -> bookmarks st = VArr (VObj <$> c) -> unique_ids c = true ->
  sends (formData st) = true -> editingBookmark st = VObj e ->
  targets (parseInt (params_id req)) e = true ->
  body req = body_of (formData st) ->
  let r := app_put_bookmarks_id req w in
  let st' := handleSubmit (Responded r.1) st in
  agrees r.2 st' /\
  (status r.1 = 200%nat ->
   BookmarkManager.error st' = None /\ editingBookmark st' = VNull /\
   formData st' = emptyForm /\ showAddForm st' = false) /\
  (status r.1 <> 200%nat ->
   BookmarkManager.error st' <> None /\
   editingBookmark st' = editingBookmark st /\ formData st' = formData st).
Proof.
  intros Hst Hbm Huniq Hsends Hedit Htarget Hbody. cbv zeta.
  destruct (body_of_lookup (formData st)) as (m & Hm & Mt & Mu & Mc & Md).
  rewrite (put_bookmarks_id_eq req w c m Hst (eq_trans Hbody Hm)).
  rewrite Mt, Mu, Mc, Md, (sends_truthy _ Hsends).
  unfold agrees, handleSubmit. rewrite Hsends.
  cbn [negb setError editingBookmark bookmarks]. rewrite Hedit, Hbm.
  cbn [truthy as_array mbind completion_bind].
  destruct (index_where _ c) as [i|] eqn:Hi;
    [|cbn; rewrite Hbm, Hedit;
      split; [exact Hst|split; [discriminate|intros _; auto]]].
  cbv zeta. destruct (writable w);
    [|cbn; rewrite Hbm, Hedit;
      split; [exact Hst|split; [discriminate|intros _; auto]]].
  rewrite (index_where_ext _
             (fun b : gmap string value =>
                strict_equals (b !! "id") (e !! "id"))) in Hi
    by (intros b; unfold targets;
        rewrite (strict_equals_number _ _ (b !! "id") Htarget); reflexivity).
  cbn [fst snd apiCall ok status res negb Nat.leb andb json].
  rewrite (replaced_first _ _ _ _ Huniq Hi).
  cbn. rewrite list_fmap_insert.
  split; [reflexivity|]. split; [auto|]. intros H; contradiction.
Qed.

Lemma update_keeps_the_mirror_in_step_witness :
  let fd := {| Controller.title := Some (VStr "GitHub");
               Controller.url := Some (VStr "https://github.com");
               Controller.category := Some (VStr "Code");
               Controller.description := None |} in
  let st := setFormData fd
              (setEditingBookmark
                 (VObj (Scenario.bookmark 3 "GitHub" "https://github.com" "Tools"
                          "Code hosting and collaboration platform"))
                 (setBookmarks (VArr (VObj <$> Scenario.defaultBookmarks)) initial)) in
  let r := app_put_bookmarks_id {| params_id := "3"; body := body_of fd |}
             (Scenario.disk Scenario.defaultBookmarks) in
  agrees r.2 (handleSubmit (Responded r.1) st).
Proof.
  intros fd st r.
  pose proof (update_keeps_the_mirror_in_step
                {| params_id := "3"; body := body_of fd |}
                (Scenario.disk Scenario.defaultBookmarks) st
                Scenario.defaultBookmarks
                (Scenario.bookmark 3 "GitHub" "https://github.com" "Tools"
                   "Code hosting and collaboration platform")) as H.
  evaluate_premises H. exact (proj1 H).
Defined.

(** X22.  Clearing keeps the mirror in step with the file.  When the
    mirror is what List would answer and the user confirms, then after
    [clearAllBookmarks] has seen the answer of the server the mirror is
    again what List would answer: empty after 200, as it was after 500.
    When the user does not confirm, the state stays as it is, whatever a
    request would have been answered. *)
Theorem clear_keeps_the_mirror_in_step (w : world) (st : state) :
  agrees w st ->
  let r := app_delete_bookmarks w in
  let st' := clearAllBookmarks true (Responded r.1) st in
  agrees r.2 st' /\
  (BookmarkManager.error st' = None <-> status r.1 = 200%nat) /\
  (status r.1 = 200%nat -> bookmarks st' = VArr []) /\
  forall reply, clearAllBookmarks false reply st = st.
Proof.
  unfold agrees. intros Hag. cbv zeta. rewrite delete_bookmarks_eq.
  destruct (writable w); cbn.
  - repeat split; auto.
  - repeat split; try discriminate; auto.
Qed.

Lemma clear_keeps_the_mirror_in_step_witness :
  agrees (app_delete_bookmarks (Scenario.disk Scenario.defaultBookmarks)).2
    (clearAllBookmarks true
       (Responded (app_delete_bookmarks (Scenario.disk Scenario.defaultBookmarks)).1)
       (setBookmarks (VArr (VObj <$> Scenario.defaultBookmarks)) initial)).
Proof.
  pose proof (clear_keeps_the_mirror_in_step
                (Scenario.disk Scenario.defaultBookmarks)
                (setBookmarks (VArr (VObj <$> Scenario.defaultBookmarks)) initial))
    as H.
  evaluate_premises H. exact (proj1 H).
Defined.

(** X23.  Loading makes the mirror agree with the file.  Whatever the file
    holds and whatever the state was, after [loadBookmarks] has seen the
    answer to GET /bookmarks the mirror is what [readBookmarks] returned,
    nothing is loading, and the error slot is empty; nothing else of the
    state changed, and the request left the file alone.  When [fetch]
    rejects instead, the mirror stays and the error slot is set. *)
Theorem load_makes_the_mirror_agree (w : world) (st : state) :
  let r := app_get_bookmarks w in
  let st' := loadBookmarks (Responded r.1) st in
  r.2 = w /\ agrees w st' /\ loading st' = false /\
  BookmarkManager.error st' = None /\
  st' = setBookmarks (bookmarks st') (setLoading false (setError None st)) /\
  forall reason,
    loadBookmarks (Rejected reason) st
    = setLoading false
        (setError (Some ("Failed to load bookmarks: ", Failed reason)) st).
Proof.
  cbv zeta. destruct (readBookmarks_total w) as [v Hv].
  rewrite (get_bookmarks_eq w v Hv). unfold agrees. cbn.
  repeat split; auto.
Qed.

(** X24.  Importing a file reloads the mirror.  When the file parses to an
    array, [importBookmarks] sends it; after 200 the handler asks for the
    list again, so that the mirror is what List answers after the import,
    whatever the mirror was before; after any other answer the mirror
    stays as it was and the error slot is set.  A file that does not
    parse, or parses to something that is no array, sets the error slot
    and leaves the mirror alone, whatever the requests would have been
    answered. *)
Theorem import_reloads_the_mirror (rt : runtime) (file : text) (w : world)
    (st : state) :
  match JSON_parse file with
  | Normal parsed =>
      match importBookmarks parsed with
      | Some req =>
          let r := app_post_bookmarks_import rt req w in
          let st' := onload file (Responded r.1)
                       (Responded (app_get_bookmarks r.2).1) st in
          (status r.1 = 200%nat ->
           agrees r.2 st' /\ BookmarkManager.error st' = None) /\
          (status r.1 <> 200%nat ->
           bookmarks st' = bookmarks st /\ BookmarkManager.error st' <> None)
      | None =>
          forall imported listed,
            bookmarks (onload file imported listed st) = bookmarks st /\
            BookmarkManager.error (onload file imported listed st) <> None
      end
  | Throw =>
      forall imported listed,
        onload file imported listed st
        = setError (Some ("Failed to import bookmarks: ", SyntaxError)) st
  end.
Proof.
  unfold onload. destruct (JSON_parse file) as [parsed|]; [|reflexivity].
  unfold importBookmarks.
  destruct (isArray (Some parsed)) eqn:Harr; cbn [negb];
    [|intros imported listed; cbn; split; [reflexivity|discriminate]].
  destruct parsed as [ |b|q|s|imported|m]; try discriminate Harr. cbv zeta.
  unfold app_post_bookmarks_import, try_catch.
  cbn [body member]. rewrite lookup_singleton_eq.
  cbn [mbind completion_bind isArray negb elements].
  destruct (readBookmarks_total w) as [v Hv]. rewrite Hv.
  cbn [mbind completion_bind].
  destruct (iterate v) as [current|]; cbn [mbind completion_bind];
    [|cbn; split; [discriminate|intros _; split; [reflexivity|discriminate]]].
  rewrite writeBookmarks_eq. destruct (writable w);
    [|cbn; split; [discriminate|intros _; split; [reflexivity|discriminate]]].
  cbn [fst snd]. rewrite (get_bookmarks_eq _ _ (readBookmarks_written _ w)).
  cbn. split; [intros _; split; reflexivity|intros H; contradiction].
Qed.

Lemma import_reloads_the_mirror_witness :
  let r := app_post_bookmarks_import (Scenario.rt_at 1736933400000)
             (Scenario.submit
                (VObj {[ "bookmarks" := VArr [Scenario.form "X" "https://x.test"] ]}))
             Scenario.no_file in
  agrees r.2
    (onload (Serialized (VArr [Scenario.form "X" "https://x.test"]))
       (Responded r.1) (Responded (app_get_bookmarks r.2).1) initial).
Proof.
  pose proof (import_reloads_the_mirror (Scenario.rt_at 1736933400000)
                (Serialized (VArr [Scenario.form "X" "https://x.test"]))
                Scenario.no_file initial) as H.
  cbn [JSON_parse importBookmarks isArray] in H. cbv zeta in H.
  destruct H as [H _]. evaluate_premises H. exact (proj1 H).
Defined.

End ReconcileFacts.

(** ** The name of the exported file *)

Section ExportName.
Import JS Store Server Spec Controller Behaviour Startup BookmarkManager.

Lemma lacks_app (a : ascii) (s t : string) :
  lacks a (s +:+ t) = lacks a s && lacks a t.
Proof.
  induction s as [|b s IH]; [reflexivity|].
  change (String b s +:+ t) with (String b (s +:+ t)).
  cbn [lacks]. rewrite IH, andb_assoc. reflexivity.
Qed.

Lemma date_text_lacks (a : ascii) (s : string) :
  is_digit a = false -> a <> "-"%char -> a <> "+"%char ->
  date_text s = true -> lacks a s = true.
Proof.
  intros Hd Hm Hp. induction s as [|b s IH]; [reflexivity|].
  cbn [date_text lacks]. intros [Hb Hs]%andb_true_iff.
  rewrite (IH Hs), andb_true_r. apply negb_true_iff, Ascii.eqb_neq.
  intros ->. rewrite Hd in Hb. cbn [orb] in Hb.
  apply orb_true_iff in Hb as [Hb|Hb]; apply Ascii.eqb_eq in Hb; congruence.
Qed.

Lemma split_whole (sep : string) (a : ascii) (r s : string) :
  sep = String a r -> lacks a s = true ->
  BookmarkManager.split sep s 0 = [s].
Proof.
  intros -> . induction s as [|b s IH]; [reflexivity|].
  cbn [lacks]. intros [Hb Hs]%andb_true_iff.
  cbn [BookmarkManager.split String.prefix].
  apply negb_true_iff, Ascii.eqb_neq in Hb.
  destruct (ascii_dec a b) as [->|_]; [contradiction|].
  rewrite (IH Hs). reflexivity.
Qed.

Lemma replace_quotes_app (s t : string) :
  replace_quotes (s +:+ t) = replace_quotes s +:+ replace_quotes t.
Proof.
  induction s as [|b s IH]; [reflexivity|].
  change (String b s +:+ t) with (String b (s +:+ t)).
  cbn [replace_quotes]. rewrite IH. destruct (Ascii.eqb b "034"); reflexivity.
Qed.

Lemma replace_quotes_none (s : string) :
  lacks "034" s = true -> replace_quotes s = s.
Proof.
  induction s as [|b s IH]; [reflexivity|].
  cbn [lacks replace_quotes]. intros [Hb Hs]%andb_true_iff.
  apply negb_true_iff in Hb. rewrite Hb, (IH Hs). reflexivity.
Qed.

Lemma append_empty (s : string) : s +:+ EmptyString = s.
Proof.
  induction s as [|b s IH]; [reflexivity|].
  change (String b s +:+ EmptyString) with (String b (s +:+ EmptyString)).
  rewrite IH. reflexivity.
Qed.

Lemma split_header (rest : string) :
  BookmarkManager.split "filename=" ("attachment; filename=" +:+ rest) 0
  = "attachment; " :: BookmarkManager.split "filename=" rest 0.
Proof. destruct rest; reflexivity. Qed.

(** X25.  The download gets the name that the server chose.  Whatever the
    file holds, the export route answers 200 with a Content-Disposition
    header; when [exportBookmarks] reads that header, the name it gives to
    the download is [bookmarks-<date>.json] with the date of the server,
    without the quotes of the header, whatever the clock of the client
    says, and the error slot is empty (the date being digits and signs,
    as [toISOString] writes it).  When the header does not reach the
    client, the name has the same form with the date of the client. *)
Theorem export_names_the_download (rt : runtime) (w : world) (iso : string)
    (st : state) :
  date_text (split_T_0 (Date_toISOString rt)) = true ->
  let d := (app_get_bookmarks_export rt w).1 in
  exportBookmarks (inr d) iso st
  = (setError None st,
     Some (Some ("bookmarks-" +:+ split_T_0 (Date_toISOString rt) +:+ ".json"))) /\
  exportBookmarks
    (inr {| reply := reply d; Content_Disposition := None;
            Content_Type := Content_Type d |}) iso st
  = (setError None st, Some (Some ("bookmarks-" +:+ split_T_0 iso +:+ ".json"))).
Proof.
  intros Hdate. cbv zeta. unfold app_get_bookmarks_export.
  destruct (readBookmarks_total w) as [v ->]. cbn [fst].
  unfold exportBookmarks. cbn [reply Content_Disposition ok status res negb].
  split; [|reflexivity].
  change (Nat.leb 200 200 && Nat.leb 200 299) with true. cbn [negb].
  do 3 f_equal.
  set (date := split_T_0 (Date_toISOString rt)) in *.
  set (name := "bookmarks-" +:+ date +:+ ".json").
  set (rest := Startup.quote +:+ name +:+ Startup.quote).
  assert (lacks "f" rest = true) as Hf.
  { unfold rest, name. rewrite !lacks_app.
    rewrite (date_text_lacks "f" date) by (reflexivity || discriminate || exact Hdate).
    reflexivity. }
  assert (lacks "034" name = true) as Hq.
  { unfold name. rewrite !lacks_app.
    rewrite (date_text_lacks "034" date) by (reflexivity || discriminate || exact Hdate).
    reflexivity. }
  unfold filename.
  assert (truthy (Some (VStr ("attachment; filename=" +:+ rest))) = true)
    as -> by reflexivity.
  rewrite split_header.
  rewrite (split_whole "filename=" "f" "ilename=" rest eq_refl Hf).
  cbn [lookup list_lookup fmap option_fmap option_map].
  unfold rest. rewrite !replace_quotes_app, (replace_quotes_none _ Hq).
  change (replace_quotes Startup.quote) with EmptyString.
  change (EmptyString +:+ name +:+ EmptyString) with (name +:+ EmptyString).
  rewrite append_empty. reflexivity.
Qed.

Lemma export_names_the_download_witness :
  exportBookmarks
    (inr (app_get_bookmarks_export (Scenario.rt_at 1736933400000)
            Scenario.no_file).1)
    "2026-02-01T00:00:00.000Z" initial
  = (initial, Some (Some "bookmarks-2025-01-15.json")).
Proof.
  pose proof (export_names_the_download (Scenario.rt_at 1736933400000)
                Scenario.no_file "2026-02-01T00:00:00.000Z" initial) as H.
  evaluate_premises H. exact (proj1 H).
Defined.

End ExportName.
